(** * Tinker / R2E-Gym: GRPO training data and the OpenAI-compatible proxy

    A shallow embedding of
    - [tinker_proxy.py]: the tool-call decoder [_parse_tool_calls], the
      chat-completion builder [TinkerInferenceServer.generate] and the HTTP
      handler [Handler.do_POST];
    - [tinker_grpo.py]: [trajectories_to_training_data] and [train_step].

    Python values are modelled as the program has them: [str] is a sequence
    of Unicode code points, [float] is IEEE binary64 (Rocq's primitive
    floats), [int] is [Z], a [dict] built by [json.loads] is an association
    list in insertion order.  Library code the repository only calls
    ([json.loads], the tokenizer, the Tinker clients, [uuid], [time]) is taken
    as an interface (a type class); code of the repository is transcribed. *)

From Stdlib Require Import ZArith NArith List Bool String Ascii Lia.
From Stdlib Require Import DecimalString Floats QArith Qcanon Field.
From Stdlib Require Import Permutation.
Import ListNotations.

Set Implicit Arguments.
Set Warnings "-register-all,-inexact-float".
Local Open Scope list_scope.

(* ===================================================================== *)
(** * Python values                                                       *)
(* ===================================================================== *)

Module Py.

Local Open Scope N_scope.

(** A Python [str]: a list of code points. *)
Definition pychar := N.
Definition pystr := list pychar.

(** An ASCII literal, read as code points. *)
Definition str (s : string) : pystr :=
  map N_of_ascii (list_ascii_of_string s).

(** An ASCII literal in which the apostrophe stands for the double quote
    (code point 34), so that JSON text can be written down legibly. *)
Definition jstr (s : string) : pystr :=
  map (fun c => if N.eqb c 39 then 34%N else c) (str s).

Fixpoint pystr_eqb (a b : pystr) : bool :=
  match a, b with
  | [], [] => true
  | x :: a', y :: b' => N.eqb x y && pystr_eqb a' b'
  | _, _ => false
  end.

(** [Py_UNICODE_ISSPACE]: the code points for which [str.isspace] holds.
    The same predicate decides [\s] in a [str] pattern of [re] and the
    characters removed by [str.strip()]. *)
Definition isspace (c : pychar) : bool :=
  ((9 <=? c) && (c <=? 13)) || ((0x1c <=? c) && (c <=? 0x20))
  || (c =? 0x85) || (c =? 0xa0) || (c =? 0x1680)
  || ((0x2000 <=? c) && (c <=? 0x200a))
  || (c =? 0x2028) || (c =? 0x2029) || (c =? 0x202f) || (c =? 0x205f)
  || (c =? 0x3000).

(** [s.lstrip()], [s.rstrip()] and [s.strip()] without argument. *)
Fixpoint lstrip (s : pystr) : pystr :=
  match s with
  | c :: s' => if isspace c then lstrip s' else s
  | [] => []
  end.

Definition rstrip (s : pystr) : pystr := rev (lstrip (rev s)).

Definition strip (s : pystr) : pystr := rstrip (lstrip s).

(** [t.startswith(p)], returning what follows the prefix. *)
Fixpoint strip_prefix (p t : pystr) : option pystr :=
  match p, t with
  | [], _ => Some t
  | a :: p', b :: t' => if N.eqb a b then strip_prefix p' t' else None
  | _ :: _, [] => None
  end.

(** The values [json.loads] builds, which are also the values a request
    body hands to the server: [None], [bool], [int], [float], [str], [list]
    and [dict] with [str] keys. *)
Inductive value : Type :=
| VNone
| VBool (b : bool)
| VInt (z : Z)
| VFloat (f : float)
| VStr (s : pystr)
| VList (l : list value)
| VDict (kv : list (pystr * value)).

(** Truth value of an object, as [if x:] tests it.  [nan] is true. *)
Definition truthy (v : value) : bool :=
  match v with
  | VNone => false
  | VBool b => b
  | VInt z => negb (Z.eqb z 0)
  | VFloat f => negb (PrimFloat.eqb f 0%float)
  | VStr s => match s with [] => false | _ => true end
  | VList l => match l with [] => false | _ => true end
  | VDict kv => match kv with [] => false | _ => true end
  end.

(** Lookup in a [dict]. *)
Fixpoint lookup (k : pystr) (kv : list (pystr * value)) : option value :=
  match kv with
  | [] => None
  | (k', v) :: kv' => if pystr_eqb k k' then Some v else lookup k kv'
  end.

(** Exceptions the modelled code can meet.  [External] stands for whatever
    a collaborator (tokenizer, remote service) raises. *)
Inductive exn : Type :=
| AttributeError
| TypeError
| ValueError
| JSONDecodeError
| External (msg : pystr).

Inductive result (A : Type) : Type :=
| Ok (a : A)
| Raised (e : exn).
Arguments Ok {A} a.
Arguments Raised {A} e.

(** [d.get(k, default)] on the items of a [dict]. *)
Definition get_or (kv : list (pystr * value)) (k : pystr) (default : value)
  : value :=
  match lookup k kv with
  | Some v => v
  | None => default
  end.

(** [d.get(k, default)]: only a [dict] has the method. *)
Definition py_get (d : value) (k : pystr) (default : value) : result value :=
  match d with
  | VDict kv => Ok (get_or kv k default)
  | _ => Raised AttributeError
  end.

(** [v == 0] for a number. *)
Definition number_is_zero (v : value) : bool :=
  match v with
  | VFloat f => PrimFloat.eqb f 0%float
  | VInt z => Z.eqb z 0
  | VBool b => negb b
  | _ => false
  end.

(** ** [json.dumps] with its default arguments

    [ensure_ascii=True], separators [", "] and [": "], [allow_nan=True].
    The shortest-repr printing of a [float] is the interpreter's and stays a
    parameter. *)

Class FloatRepr := { float_repr : float -> pystr }.

Definition hex_digit (n : N) : pychar :=
  if n <? 10 then 48 + n else 87 + n.

Definition hex4 (n : N) : pystr :=
  [hex_digit ((n / 4096) mod 16); hex_digit ((n / 256) mod 16);
   hex_digit ((n / 16) mod 16); hex_digit (n mod 16)].

Definition u_escape (n : N) : pystr := [92; 117] ++ hex4 n.

(** [ESCAPE_ASCII] / [ESCAPE_DCT] of [json.encoder]. *)
Definition escape_char (c : pychar) : pystr :=
  if c =? 34 then [92; 34]
  else if c =? 92 then [92; 92]
  else if (32 <=? c) && (c <=? 126) then [c]
  else if c =? 8 then [92; 98]
  else if c =? 12 then [92; 102]
  else if c =? 10 then [92; 110]
  else if c =? 13 then [92; 114]
  else if c =? 9 then [92; 116]
  else if c <? 0x10000 then u_escape c
  else let n := c - 0x10000 in
       u_escape (N.lor 0xd800 (N.land (N.shiftr n 10) 0x3ff))
       ++ u_escape (N.lor 0xdc00 (N.land n 0x3ff)).

Definition encode_basestring_ascii (s : pystr) : pystr :=
  [34] ++ flat_map escape_char s ++ [34].

(** [str(n)] for an [int]. *)
Definition int_repr (z : Z) : pystr :=
  str (NilZero.string_of_int (Z.to_int z)).

(** [sep.join(parts)]. *)
Fixpoint join (sep : pystr) (parts : list pystr) : pystr :=
  match parts with
  | [] => []
  | [p] => p
  | p :: ps => p ++ sep ++ join sep ps
  end.

Section Dumps.
Context `{FloatRepr}.

Fixpoint json_dumps (v : value) : pystr :=
  match v with
  | VNone => str "null"
  | VBool true => str "true"
  | VBool false => str "false"
  | VInt z => int_repr z
  | VFloat f => float_repr f
  | VStr s => encode_basestring_ascii s
  | VList l => str "[" ++ join (str ", ") (map json_dumps l) ++ str "]"
  | VDict kv =>
      str "{"
      ++ join (str ", ")
           (map (fun p => encode_basestring_ascii (fst p) ++ str ": "
                          ++ json_dumps (snd p)) kv)
      ++ str "}"
  end.

End Dumps.

(** ** Collaborators shared by the proxy and the trainer *)

(** [json.loads] on a [str]; [None] is [json.JSONDecodeError]. *)
Class Json := { json_loads : pystr -> option value }.

Definition token := Z.

(** The tokenizer of [transformers].  [encode text add_special_tokens]
    receives whatever object the caller passes; every call may raise. *)
Class Tokenizer := {
  apply_chat_template : value -> option value -> result pystr;
  encode : value -> bool -> result (list token);
  decode : list token -> result pystr;
  eos_token_id : token
}.

(** Sequencing of computations that may raise. *)
Definition rbind {A B} (r : result A) (k : A -> result B) : result B :=
  match r with
  | Ok a => k a
  | Raised e => Raised e
  end.

End Py.

(* ===================================================================== *)
(** * tinker_proxy.py                                                     *)
(* ===================================================================== *)

Module Proxy.
Import Py.

Local Open Scope N_scope.

(** ** Collaborators *)

(** The process environment: the hexadecimal form of the [n]-th
    [uuid.uuid4()] drawn by the process, and [int(time.time())]. *)
Class Host := { uuid4_hex : nat -> pystr; time_time : Z }.

Record SamplingParams : Type :=
  { sp_max_tokens : value; sp_temperature : value; sp_stop : value }.

(** [sampling_client.sample(prompt, num_samples=1, sampling_params)
    .result().sequences[0].tokens]: building the parameter object and one
    round trip to the remote service; either may raise. *)
Class SamplingClient := {
  sample : list token -> SamplingParams -> result (list token)
}.

(** ** Effects: the count of uuids drawn so far, the log, and the sampling
    requests sent to the remote service *)

Inductive level : Type := INFO | WARNING | ERROR.

Record world : Type :=
  { draws : nat;
    log : list (level * pystr);
    sent : list (list token * SamplingParams) }.

Definition M (A : Type) : Type := world -> result A * world.

Definition ret {A} (a : A) : M A := fun w => (Ok a, w).

Definition bind {A B} (m : M A) (k : A -> M B) : M B :=
  fun w => match m w with
           | (Ok a, w') => k a w'
           | (Raised e, w') => (Raised e, w')
           end.

Definition lift {A} (r : result A) : M A := fun w => (r, w).

Definition logger (lv : level) (msg : pystr) : M unit :=
  fun w => (Ok tt, {| draws := draws w; log := log w ++ [(lv, msg)];
                      sent := sent w |}).

Definition uuid4 `{Host} : M pystr :=
  fun w => (Ok (uuid4_hex (draws w)),
            {| draws := S (draws w); log := log w; sent := sent w |}).

(** A sampling request: recorded, then answered by the service. *)
Definition sample_remote `{SamplingClient} (prompt : list token)
    (params : SamplingParams) : M (list token) :=
  fun w => (sample prompt params,
            {| draws := draws w; log := log w;
               sent := sent w ++ [(prompt, params)] |}).

(** [try: body except Exception as e: handler(e)]. *)
Definition try_except {A} (body : M A) (handler : exn -> M A) : M A :=
  fun w => match body w with
           | (Ok a, w') => (Ok a, w')
           | (Raised e, w') => handler e w'
           end.

Declare Scope py_scope.
Notation "x <- m ;; k" := (bind m (fun x => k))
  (at level 61, m at next level, right associativity) : py_scope.
Local Open Scope py_scope.

(** ** [_TOOL_CALL_RE]

    [re.compile(r"<tool_call>\s*(\{.*?\})\s*</tool_call>", re.DOTALL)].
    At a given start the pattern can match in one way only: the opening
    tag, all the whitespace that follows, an opening brace, then (the lazy
    [.*?], which under DOTALL takes any character) the text up to the first
    closing brace that is followed by optional whitespace and the closing
    tag.  A greedy [\s*] before a literal that is not whitespace never
    gains by giving characters back. *)

Definition TOOL_CALL_OPEN : pystr := str "<tool_call>".
Definition TOOL_CALL_CLOSE : pystr := str "</tool_call>".
Definition LBRACE : pychar := 123.
Definition RBRACE : pychar := 125.

(** [.*?\}\s*</tool_call>]: [seen] is the group so far, reversed.  Returns
    group 1 and the text after the match. *)
Fixpoint lazy_body (seen t : pystr) : option (pystr * pystr) :=
  match t with
  | [] => None
  | c :: t' =>
      if c =? RBRACE then
        match strip_prefix TOOL_CALL_CLOSE (lstrip t') with
        | Some rest => Some (rev (c :: seen), rest)
        | None => lazy_body (c :: seen) t'
        end
      else lazy_body (c :: seen) t'
  end.

(** The pattern anchored at the head of [t]. *)
Definition match_here (t : pystr) : option (pystr * pystr) :=
  match strip_prefix TOOL_CALL_OPEN t with
  | Some t1 =>
      match lstrip t1 with
      | c :: t2 => if c =? LBRACE then lazy_body [c] t2 else None
      | [] => None
      end
  | None => None
  end.

(** [finditer]: leftmost matches, the search resuming where the last match
    ended.  A match is never empty, so [S (length t)] steps suffice. *)
Fixpoint finditer_from (fuel : nat) (t : pystr) : list pystr :=
  match fuel with
  | O => []
  | S fuel' =>
      match match_here t with
      | Some (g, rest) => g :: finditer_from fuel' rest
      | None => match t with
                | [] => []
                | _ :: t' => finditer_from fuel' t'
                end
      end
  end.

(** [[m.group(1) for m in _TOOL_CALL_RE.finditer(text)]]. *)
Definition finditer (text : pystr) : list pystr :=
  finditer_from (S (List.length text)) text.

(** ** [_parse_tool_calls] *)

Record function_call : Type := { fn_name : value; fn_arguments : pystr }.

Record tool_call : Type :=
  { tc_id : pystr; tc_type : pystr; tc_function : function_call }.

Section ParseToolCalls.
Context `{Json} `{Host} `{FloatRepr}.

Definition MALFORMED_WARNING : pystr :=
  str "Failed to parse tool_call JSON: ".

(** [if not isinstance(arguments, str): arguments = json.dumps(arguments)]. *)
Definition arguments_string (arguments : value) : pystr :=
  match arguments with
  | VStr s => s
  | other => json_dumps other
  end.

(** The dictionary appended for one block; [u] is [uuid.uuid4().hex]. *)
Definition make_tool_call (u : pystr) (name : value) (arguments : pystr)
  : tool_call :=
  {| tc_id := str "call_" ++ firstn 8 u;
     tc_type := str "function";
     tc_function := {| fn_name := name; fn_arguments := arguments |} |}.

(** The body of the [for match in ...] loop, over the group-1 texts. *)
Fixpoint parse_matches (groups : list pystr) (tool_calls : list tool_call)
  : M (list tool_call) :=
  match groups with
  | [] => ret tool_calls
  | g :: groups' =>
      match json_loads g with
      | None =>
          _ <- logger WARNING (MALFORMED_WARNING ++ g) ;;
          parse_matches groups' tool_calls
      | Some call =>
          arguments <- lift (py_get call (str "arguments") (VDict [])) ;;
          let arguments := arguments_string arguments in
          u <- uuid4 ;;
          name <- lift (py_get call (str "name") (VStr [])) ;;
          parse_matches groups'
            (tool_calls ++ [make_tool_call u name arguments])
      end
  end.

Definition _parse_tool_calls (text : pystr) : M (list tool_call) :=
  parse_matches (finditer text) [].

End ParseToolCalls.

(** ** [TinkerInferenceServer.generate] *)

(** The floor of the temperature, the float literal [0.01]. *)
Definition TEMPERATURE_FLOOR : float := 0.01%float.

(** [0.01 > v], the comparison [max(temperature, 0.01)] makes.  Python
    compares an [int] (or [bool]) with a [float] exactly, and an integer is
    below [0.01] exactly when it is at most [0]; a [float] is compared as
    IEEE prescribes; any other operand raises [TypeError]. *)
Definition floor_gt (v : value) : result bool :=
  match v with
  | VFloat f => Ok (PrimFloat.ltb f TEMPERATURE_FLOOR)
  | VInt z => Ok (Z.leb z 0)
  | VBool b => Ok (negb b)
  | _ => Raised TypeError
  end.

(** [max(temperature, 0.01)]: the first argument is kept unless the second
    is strictly greater. *)
Definition max_floor (temperature : value) : result value :=
  match floor_gt temperature with
  | Ok gt => Ok (if gt then VFloat TEMPERATURE_FLOOR else temperature)
  | Raised e => Raised e
  end.

(** [re.split(pat, t, maxsplit=1)[0]] for a literal, non-empty [pat]: the
    text before the first occurrence of [pat], or all of [t]. *)
Fixpoint before_first (pat t : pystr) : pystr :=
  match strip_prefix pat t with
  | Some _ => []
  | None => match t with
            | [] => []
            | c :: t' => c :: before_first pat t'
            end
  end.

(** [content] is [None] for JSON [null]; [tool_calls] is [None] when the
    key is absent from the message. *)
Record message : Type :=
  { role : pystr; content : option pystr;
    tool_calls : option (list tool_call) }.

Record choice : Type :=
  { index : Z; choice_message : message; finish_reason : pystr }.

Record usage : Type :=
  { prompt_tokens : nat; completion_tokens : nat; total_tokens : nat }.

Record completion : Type :=
  { completion_id : pystr; object : pystr; created : Z; model : pystr;
    choices : list choice; completion_usage : usage }.

(** The [if tool_calls: ... else: ...] of [generate]. *)
Definition assistant_message (completion_text : pystr)
    (calls : list tool_call) : message * pystr :=
  match calls with
  | _ :: _ =>
      let stripped := strip (before_first TOOL_CALL_OPEN completion_text) in
      ({| role := str "assistant";
          content := match stripped with [] => None | _ => Some stripped end;
          tool_calls := Some calls |},
       str "tool_calls")
  | [] =>
      ({| role := str "assistant"; content := Some completion_text;
          tool_calls := None |},
       str "stop")
  end.

(** [types.SamplingParams(max_tokens=..., temperature=..., stop=stop or [])]
    once the temperature has been floored. *)
Definition sampling_params (max_tokens effective stop : value)
  : SamplingParams :=
  {| sp_max_tokens := max_tokens;
     sp_temperature := effective;
     sp_stop := if truthy stop then stop else VList [] |}.

Section Server.
Context `{Json} `{Host} `{FloatRepr} `{Tokenizer} `{SamplingClient}.
Variable model_name : pystr.

(** The dictionary [generate] returns. *)
Definition make_completion (u : pystr) (answer : message * pystr)
    (prompt_tokens output_tokens : list token) : completion :=
  {| completion_id := str "chatcmpl-" ++ firstn 8 u;
     object := str "chat.completion";
     created := time_time;
     model := model_name;
     choices := [{| index := 0; choice_message := fst answer;
                    finish_reason := snd answer |}];
     completion_usage :=
       {| prompt_tokens := List.length prompt_tokens;
          completion_tokens := List.length output_tokens;
          total_tokens := List.length prompt_tokens
                          + List.length output_tokens |} |}.

Definition generate (messages temperature max_tokens stop tools : value)
  : M completion :=
  let template_tools := if truthy tools then Some tools else None in
  prompt_text <- lift (apply_chat_template messages template_tools) ;;
  prompt_tokens <- lift (encode (VStr prompt_text) true) ;;
  effective <- lift (max_floor temperature) ;;
  let params := sampling_params max_tokens effective stop in
  output_tokens <- sample_remote prompt_tokens params ;;
  completion_text <- lift (decode output_tokens) ;;
  calls <- (if truthy tools then _parse_tool_calls completion_text
            else ret []) ;;
  let answer := assistant_message completion_text calls in
  u <- uuid4 ;;
  ret (make_completion u answer prompt_tokens output_tokens).

End Server.

(** ** [Handler.do_POST] *)

(** The response dictionaries as JSON values, for [json.dumps]. *)
Definition tool_call_value (c : tool_call) : value :=
  VDict [(str "id", VStr (tc_id c));
         (str "type", VStr (tc_type c));
         (str "function",
          VDict [(str "name", fn_name (tc_function c));
                 (str "arguments", VStr (fn_arguments (tc_function c)))])].

Definition message_value (m : message) : value :=
  VDict ([(str "role", VStr (role m));
          (str "content",
           match content m with Some c => VStr c | None => VNone end)]
         ++ match tool_calls m with
            | Some calls => [(str "tool_calls",
                              VList (map tool_call_value calls))]
            | None => []
            end).

Definition choice_value (c : choice) : value :=
  VDict [(str "index", VInt (index c));
         (str "message", message_value (choice_message c));
         (str "finish_reason", VStr (finish_reason c))].

Definition completion_value (c : completion) : value :=
  VDict [(str "id", VStr (completion_id c));
         (str "object", VStr (object c));
         (str "created", VInt (created c));
         (str "model", VStr (model c));
         (str "choices", VList (map choice_value (choices c)));
         (str "usage",
          VDict [(str "prompt_tokens",
                  VInt (Z.of_nat (prompt_tokens (completion_usage c))));
                 (str "completion_tokens",
                  VInt (Z.of_nat (completion_tokens (completion_usage c))));
                 (str "total_tokens",
                  VInt (Z.of_nat (total_tokens (completion_usage c))))])].

(** What the handler reads of a request: the path, the request line, the
    value of [self.headers["Content-Length"]] ([None] when the header is
    missing) and [self.rfile.read]. *)
Record request : Type :=
  { path : pystr; requestline : pystr; content_length : option pystr;
    rfile_read : Z -> pystr }.

Record response : Type :=
  { status : Z; headers : list (pystr * pystr); body : pystr }.

(** The access line [log_request] formats for a status code, with the size
    left at its default: the request line in double quotes, the code and a
    dash. *)
Definition access_line (req : request) (code : Z) : pystr :=
  [34%N] ++ requestline req ++ [34%N; 32%N] ++ int_repr code ++ str " -".

(** [self.send_response(code)]: the status line is buffered, and
    [log_request] hands the access line to [log_message], which the handler
    overrides with [logger.info(format % args)]. *)
Definition send_response (req : request) (code : Z) : M unit :=
  logger INFO (access_line req code).

(** The interpreter services the handler uses: [int(s)] on a [str] ([None]
    is [ValueError]), [json.loads] on the [bytes] read ([None] is
    [JSONDecodeError] or [UnicodeDecodeError], both [ValueError]s) and
    [str(e)] of an exception. *)
Class Interp := {
  int_of_str : pystr -> option Z;
  json_loads_bytes : pystr -> option value;
  str_of_exn : exn -> pystr
}.

Section Handler.
Context `{Json} `{Host} `{FloatRepr} `{Tokenizer} `{SamplingClient} `{Interp}.
Variable model_name : pystr.

(** [int(x)] where [x] is a header value or [None]. *)
Definition py_int (x : option pystr) : result Z :=
  match x with
  | None => Raised TypeError
  | Some s => match int_of_str s with
              | Some z => Ok z
              | None => Raised ValueError
              end
  end.

Definition loads_body (b : pystr) : result value :=
  match json_loads_bytes b with
  | Some v => Ok v
  | None => Raised JSONDecodeError
  end.

Definition CHAT_PATHS : list pystr :=
  [str "/v1/chat/completions"; str "/chat/completions"].

Definition JSON_HEADER : list (pystr * pystr) :=
  [(str "Content-Type", str "application/json")].

(** The body of the [try]: the call of [generate] with its arguments read
    from the payload, then the 200 response.  Writing to the socket is
    taken to succeed. *)
Definition respond (req : request) (payload : value) : M response :=
  messages <- lift (py_get payload (str "messages") (VList [])) ;;
  temperature <- lift (py_get payload (str "temperature")
                         (VFloat 0%float)) ;;
  max_tokens <- lift (py_get payload (str "max_tokens") (VInt 4096)) ;;
  stop <- lift (py_get payload (str "stop") VNone) ;;
  tools <- lift (py_get payload (str "tools") VNone) ;;
  result <- generate model_name messages temperature max_tokens stop tools ;;
  _ <- send_response req 200 ;;
  ret {| status := 200; headers := JSON_HEADER;
         body := json_dumps (completion_value result) |}.

(** The [except Exception as e] handler. *)
Definition report (req : request) (e : exn) : M response :=
  _ <- logger ERROR (str "Generation error: " ++ str_of_exn e) ;;
  _ <- send_response req 500 ;;
  ret {| status := 500; headers := JSON_HEADER;
         body := json_dumps (VDict [(str "error", VStr (str_of_exn e))]) |}.

Definition do_POST (req : request) : M response :=
  if existsb (pystr_eqb (path req)) CHAT_PATHS then
    n <- lift (py_int (content_length req)) ;;
    payload <- lift (loads_body (rfile_read req n)) ;;
    try_except (respond req payload) (report req)
  else
    _ <- send_response req 404 ;;
    ret {| status := 404; headers := []; body := [] |}.

End Handler.

End Proxy.

(* ===================================================================== *)
(** * tinker_grpo.py                                                      *)
(* ===================================================================== *)

Module Grpo.
Import Py.

(** ** Numbers

    The advantage code is written against Python's numeric protocol
    ([sum], [len], [/], [-], [==]); what it computes depends on the type of the
    rewards.  [Number] is that protocol.  Rewards produced by R2E-Gym are
    Python [float]s, for which the instances [Binary64] (the left-to-right
    [sum] of CPython up to 3.11) and [Binary64Compensated] (the
    Neumaier-compensated [sum] of CPython 3.12 and later) apply.  [Exact]
    interprets the same code over the rationals and is used to state what
    holds in the absence of rounding. *)

Class Number (R : Type) : Type := {
  zero : R;                 (* the literal 0.0 *)
  of_len : nat -> R;        (* the int [len(...)] as an operand of [/] *)
  sub : R -> R -> R;
  truediv : R -> R -> R;
  eq_zero : R -> bool;      (* [a == 0.0] *)
  py_sum : list R -> R      (* the builtin [sum] *)
}.

(** [float(n)] for a length: lists are shorter than 2^63. *)
Definition float_of_len (n : nat) : float :=
  PrimFloat.of_uint63 (Uint63.of_Z (Z.of_nat n)).

(** [sum] starts from the int [0]; [0 + x] is [0.0 + x] for a float. *)
Definition float_sum (l : list float) : float :=
  fold_left PrimFloat.add l 0%float.

(** The float loop of [builtin_sum] since CPython 3.12: the first item is
    added to the int [0], the others with Neumaier's compensation [c],
    which is applied at the end when it is non-zero and finite. *)
Fixpoint neumaier (f c : float) (l : list float) : float :=
  match l with
  | [] =>
      if negb (PrimFloat.eqb c 0%float) && PrimFloat.is_finite c
      then PrimFloat.add f c else f
  | x :: l' =>
      let t := PrimFloat.add f x in
      let c' :=
        if PrimFloat.leb (PrimFloat.abs x) (PrimFloat.abs f)
        then PrimFloat.add c (PrimFloat.add (PrimFloat.sub f t) x)
        else PrimFloat.add c (PrimFloat.add (PrimFloat.sub x t) f) in
      neumaier t c' l'
  end.

Definition float_sum_compensated (l : list float) : float :=
  match l with
  | [] => 0%float
  | x :: l' => neumaier (PrimFloat.add 0%float x) 0%float l'
  end.

Definition Binary64 : Number float :=
  {| zero := 0%float; of_len := float_of_len;
     sub := PrimFloat.sub; truediv := PrimFloat.div;
     eq_zero := fun a => PrimFloat.eqb a 0%float;
     py_sum := float_sum |}.

Definition Binary64Compensated : Number float :=
  {| zero := 0%float; of_len := float_of_len;
     sub := PrimFloat.sub; truediv := PrimFloat.div;
     eq_zero := fun a => PrimFloat.eqb a 0%float;
     py_sum := float_sum_compensated |}.

Definition exact_of_len (n : nat) : Qc := Q2Qc (inject_Z (Z.of_nat n)).

Definition exact_sum (l : list Qc) : Qc := fold_left Qcplus l (Q2Qc 0).

Definition Exact : Number Qc :=
  {| zero := Q2Qc 0; of_len := exact_of_len;
     sub := Qcminus; truediv := Qcdiv;
     eq_zero := fun a => Qc_eq_bool a (Q2Qc 0);
     py_sum := exact_sum |}.

(** ** Data *)

(** A rollout as [collect_rollouts] builds it. *)
Record rollout (R : Type) : Type :=
  { trajectory_json : pystr; reward : R; task_id : pystr }.

(** A [tinker.Datum], by the three Python lists the code hands to the
    Tinker constructors. *)
Record datum (R : Type) : Type :=
  { model_input : list token; target_tokens : list token;
    weights : list R }.

(** [str(v)], as an f-string formats a value that is not a [str]. *)
Class Format := { str_of_value : value -> pystr }.

Definition format_value `{Format} (v : value) : pystr :=
  match v with
  | VStr s => s
  | other => str_of_value other
  end.

Declare Scope result_scope.
Notation "x <- r ;; k" := (rbind r (fun x => k))
  (at level 61, r at next level, right associativity) : result_scope.
Local Open Scope result_scope.

Section TrainingData.
Context {R : Type} {num : Number R} `{Json} `{Tokenizer} `{Format}.

(** [sum(rewards) / len(rewards) if rewards else 0.0]. *)
Definition mean_reward (rewards : list R) : R :=
  match rewards with
  | [] => zero
  | _ :: _ => truediv (py_sum rewards) (of_len (List.length rewards))
  end.

(** [advantages = [r - mean_reward for r in rewards]]. *)
Definition group_advantages (group : list (rollout R)) : list R :=
  let rewards := map (@reward R) group in
  let mean := mean_reward rewards in
  map (fun r => sub r mean) rewards.

(** [all(a == 0.0 for a in advantages)]. *)
Definition no_signal (advantages : list R) : bool :=
  forallb eq_zero advantages.

Definition PROMPT_HEAD : pystr := str "Fix the following issue:" ++ [10%N].

(** The body of [for rollout, advantage in zip(group, advantages)]:
    [Ok None] is [continue], [Ok (Some d)] is [data.append(d)]. *)
Definition rollout_datum (rollout : rollout R) (advantage : R)
  : result (option (datum R)) :=
  match json_loads (trajectory_json rollout) with
  | None => Ok None
  | Some traj =>
      problem_statement <- py_get traj (str "problem_statement") (VStr []) ;;
      output_patch <- py_get traj (str "output_patch") (VStr []) ;;
      let prompt_text := PROMPT_HEAD ++ format_value problem_statement in
      let completion_text :=
        if truthy output_patch then output_patch else VStr [] in
      if negb (truthy completion_text) then Ok None
      else
        prompt_tokens <- encode (VStr prompt_text) true ;;
        completion_tokens <- encode completion_text false ;;
        let full_tokens := prompt_tokens ++ completion_tokens in
        let weights :=
          repeat zero (List.length prompt_tokens)
          ++ repeat advantage (List.length completion_tokens) in
        let target_tokens := tl full_tokens ++ [eos_token_id] in
        Ok (Some {| model_input := full_tokens;
                    target_tokens := target_tokens;
                    weights := weights |})
  end.

(** The inner loop over [zip(group, advantages)], appending to [data]. *)
Fixpoint group_data (pairs : list (rollout R * R)) (data : list (datum R))
  : result (list (datum R)) :=
  match pairs with
  | [] => Ok data
  | (rollout, advantage) :: pairs' =>
      made <- rollout_datum rollout advantage ;;
      match made with
      | None => group_data pairs' data
      | Some d => group_data pairs' (data ++ [d])
      end
  end.

(** The outer loop over [rollout_groups]. *)
Fixpoint groups_data (rollout_groups : list (list (rollout R)))
    (data : list (datum R)) : result (list (datum R)) :=
  match rollout_groups with
  | [] => Ok data
  | group :: groups' =>
      match group with
      | [] => groups_data groups' data
      | _ :: _ =>
          let advantages := group_advantages group in
          if no_signal advantages then groups_data groups' data
          else
            data' <- group_data (combine group advantages) data ;;
            groups_data groups' data'
      end
  end.

Definition trajectories_to_training_data
    (rollout_groups : list (list (rollout R))) : result (list (datum R)) :=
  groups_data rollout_groups [].

End TrainingData.

(** ** [train_step] *)

Record AdamParams : Type :=
  { learning_rate : float; beta1 : float; beta2 : float; eps : float }.

(** The Tinker training client: each operation is awaited to completion
    and may raise.  [forward_backward] returns [result.metrics], a
    dictionary of floats (empty when there are none). *)
Class TrainingClient (R : Type) := {
  forward_backward : list (datum R) -> pystr -> result (list (pystr * float));
  optim_step : AdamParams -> result unit
}.

(** The requests sent to the training service, in order. *)
Inductive client_request (R : Type) : Type :=
| ForwardBackward (data : list (datum R)) (loss_fn : pystr)
| OptimStep (params : AdamParams).

Record step_metrics : Type := { loss : float; num_samples : nat }.

Fixpoint metric (k : pystr) (kv : list (pystr * float)) : option float :=
  match kv with
  | [] => None
  | (k', v) :: kv' => if pystr_eqb k k' then Some v else metric k kv'
  end.

Section TrainStep.
Context {R : Type} `{TrainingClient R}.

(** The state threaded is the list of requests issued so far. *)
Definition train_step (data : list (datum R)) (lr : float)
    (sent : list (client_request R))
  : result step_metrics * list (client_request R) :=
  match data with
  | [] => (Ok {| loss := 0%float; num_samples := 0 |}, sent)
  | _ :: _ =>
      let sent1 :=
        sent ++ [ForwardBackward data (str "importance_sampling")] in
      match forward_backward data (str "importance_sampling") with
      | Raised e => (Raised e, sent1)
      | Ok metrics =>
          let adam_params :=
            {| learning_rate := lr; beta1 := 0.9%float;
               beta2 := 0.95%float; eps := 1e-8%float |} in
          let sent2 := sent1 ++ [OptimStep R adam_params] in
          match optim_step adam_params with
          | Raised e => (Raised e, sent2)
          | Ok _ =>
              (Ok {| loss := match metric (str "loss") metrics with
                             | Some l => l
                             | None => 0%float
                             end;
                     num_samples := List.length data |}, sent2)
          end
      end
  end.

End TrainStep.

End Grpo.

(* ===================================================================== *)
(** * Reference collaborators                                             *)
(* ===================================================================== *)

(** Small executable stand-ins for the collaborators, on which the code
    above can be run.  [loads] reads the JSON fragment made of objects,
    arrays, strings without escapes, integers and the three literals; on
    that fragment it returns what [json.loads] returns, and it rejects
    everything else. *)

Module Reference.
Import Py.

Local Open Scope N_scope.

Definition is_ws (c : pychar) : bool :=
  (c =? 32) || (c =? 9) || (c =? 10) || (c =? 13).

Fixpoint skip_ws (s : pystr) : pystr :=
  match s with
  | c :: s' => if is_ws c then skip_ws s' else s
  | [] => []
  end.

(** After the opening quote: the characters up to the closing quote. *)
Fixpoint read_string (seen s : pystr) : option (pystr * pystr) :=
  match s with
  | [] => None
  | c :: s' =>
      if c =? 34 then Some (rev seen, s')
      else if (c =? 92) || (c <? 32) then None
      else read_string (c :: seen) s'
  end.

Definition is_digit (c : pychar) : bool := (48 <=? c) && (c <=? 57).

Fixpoint read_digits (acc : Z) (s : pystr) : Z * pystr :=
  match s with
  | c :: s' =>
      if is_digit c then read_digits (acc * 10 + Z.of_N (c - 48)) s'
      else (acc, s)
  | [] => (acc, [])
  end.

Definition read_nat (s : pystr) : option (Z * pystr) :=
  match s with
  | c :: s' =>
      if c =? 48 then Some (0%Z, s')
      else if is_digit c then Some (read_digits 0 s) else None
  | [] => None
  end.

(** A fraction or an exponent would make the number a float. *)
Definition no_fraction (s : pystr) : bool :=
  match s with
  | c :: _ => negb ((c =? 46) || (c =? 101) || (c =? 69))
  | [] => true
  end.

Definition read_int (s : pystr) : option (value * pystr) :=
  match s with
  | c :: s' =>
      match (if c =? 45 then read_nat s' else read_nat s) with
      | Some (z, rest) =>
          if no_fraction rest
          then Some (VInt (if c =? 45 then Z.opp z else z), rest)
          else None
      | None => None
      end
  | [] => None
  end.

(** [d[k] = v] on a dictionary kept in insertion order. *)
Fixpoint dict_set (kv : list (pystr * value)) (k : pystr) (v : value)
  : list (pystr * value) :=
  match kv with
  | [] => [(k, v)]
  | (k', v') :: kv' =>
      if pystr_eqb k k' then (k', v) :: kv'
      else (k', v') :: dict_set kv' k v
  end.

Fixpoint read_value (fuel : nat) (s : pystr) : option (value * pystr) :=
  match fuel with
  | O => None
  | S fuel' =>
      match s with
      | [] => None
      | c :: s' =>
          if c =? 34 then
            match read_string [] s' with
            | Some (x, rest) => Some (VStr x, rest)
            | None => None
            end
          else if c =? 123 then
            match skip_ws s' with
            | c1 :: s1 =>
                if c1 =? 125 then Some (VDict [], s1)
                else read_members fuel' [] (c1 :: s1)
            | [] => None
            end
          else if c =? 91 then
            match skip_ws s' with
            | c1 :: s1 =>
                if c1 =? 93 then Some (VList [], s1)
                else read_elements fuel' [] (c1 :: s1)
            | [] => None
            end
          else
            match strip_prefix (str "null") s with
            | Some rest => Some (VNone, rest)
            | None =>
                match strip_prefix (str "true") s with
                | Some rest => Some (VBool true, rest)
                | None =>
                    match strip_prefix (str "false") s with
                    | Some rest => Some (VBool false, rest)
                    | None => read_int s
                    end
                end
            end
      end
  end
with read_members (fuel : nat) (kv : list (pystr * value)) (s : pystr)
  : option (value * pystr) :=
  match fuel with
  | O => None
  | S fuel' =>
      match s with
      | c :: s' =>
          if c =? 34 then
            match read_string [] s' with
            | Some (k, rest) =>
                match skip_ws rest with
                | c1 :: s1 =>
                    if c1 =? 58 then
                      match read_value fuel' (skip_ws s1) with
                      | Some (v, rest') =>
                          match skip_ws rest' with
                          | c2 :: s2 =>
                              if c2 =? 125
                              then Some (VDict (dict_set kv k v), s2)
                              else if c2 =? 44
                              then read_members fuel' (dict_set kv k v)
                                     (skip_ws s2)
                              else None
                          | [] => None
                          end
                      | None => None
                      end
                    else None
                | [] => None
                end
            | None => None
            end
          else None
      | [] => None
      end
  end
with read_elements (fuel : nat) (seen : list value) (s : pystr)
  : option (value * pystr) :=
  match fuel with
  | O => None
  | S fuel' =>
      match read_value fuel' s with
      | Some (v, rest) =>
          match skip_ws rest with
          | c2 :: s2 =>
              if c2 =? 93 then Some (VList (rev (v :: seen)), s2)
              else if c2 =? 44
              then read_elements fuel' (v :: seen) (skip_ws s2)
              else None
          | [] => None
          end
      | None => None
      end
  end.

Definition loads (s : pystr) : option value :=
  match read_value (S (List.length s)) (skip_ws s) with
  | Some (v, rest) =>
      match skip_ws rest with
      | [] => Some v
      | _ :: _ => None
      end
  | None => None
  end.

Definition json : Json := {| json_loads := loads |}.

(** Floats and other values are printed as a placeholder. *)
Definition float_printer : FloatRepr :=
  {| float_repr := fun _ => str "<float>" |}.

Definition formatter : Grpo.Format :=
  {| Grpo.str_of_value := fun _ => str "<object>" |}.

(** One token per code point, after a leading special token [1] when
    special tokens are asked for; only a [str] can be encoded. *)
Definition tokenizer : Tokenizer :=
  {| apply_chat_template := fun _ _ => Ok (str "<prompt>");
     encode := fun v special =>
       match v with
       | VStr s => Ok ((if special then [1%Z] else []) ++ map Z.of_N s)
       | _ => Raised TypeError
       end;
     decode := fun toks => Ok (map Z.to_N toks);
     eos_token_id := 2%Z |}.

(** A sampling service that always answers with the tokens of [text]. *)
Definition canned (text : pystr) : Proxy.SamplingClient :=
  {| Proxy.sample := fun _ _ => Ok (map Z.of_N text) |}.

(** A sampling service that is down. *)
Definition unreachable : Proxy.SamplingClient :=
  {| Proxy.sample := fun _ _ => Raised (External (str "connection refused")) |}.

Definition host : Proxy.Host :=
  {| Proxy.uuid4_hex := fun _ => str "0123456789abcdef0123456789abcdef";
     Proxy.time_time := 1700000000%Z |}.

Definition interp : Proxy.Interp :=
  {| Proxy.int_of_str := fun s =>
       match read_nat s with
       | Some (z, []) => Some z
       | _ => None
       end;
     Proxy.json_loads_bytes := loads;
     Proxy.str_of_exn := fun e =>
       match e with
       | External msg => msg
       | _ => str "error"
       end |}.

Definition fresh : Proxy.world :=
  {| Proxy.draws := 0; Proxy.log := []; Proxy.sent := [] |}.

(** A training service that reports a loss of one half. *)
Definition trainer (R : Type) : Grpo.TrainingClient R :=
  {| Grpo.forward_backward := fun _ _ => Ok [(str "loss", 0.5%float)];
     Grpo.optim_step := fun _ => Ok tt |}.

(** A rollout whose trajectory has a problem statement and a patch. *)
Definition solved (R : Type) (r : R) : Grpo.rollout R :=
  {| Grpo.trajectory_json :=
       jstr "{'problem_statement': 'bug', 'output_patch': 'fix'}";
     Grpo.reward := r;
     Grpo.task_id := str "task" |}.

End Reference.

(* ===================================================================== *)
(** * Inputs of the worked cases                                          *)
(* ===================================================================== *)

Module Cases.
Import Py.

(** ** Model outputs *)

(** The object of one well-formed block. *)
Definition F_BLOCK : pystr := jstr "{'name':'f','arguments':{'x':1}}".

(** A block cut short before its closing brace, followed by a well-formed
    block; the group the pattern finds in it; the second block on its own,
    and its object. *)
Definition TRUNCATED_THEN_VALID : pystr :=
  jstr "<tool_call>{'name': 'f'</tool_call><tool_call>{'name':'g','arguments':{}}</tool_call>".

Definition MERGED_GROUP : pystr :=
  jstr "{'name': 'f'</tool_call><tool_call>{'name':'g','arguments':{}}".

Definition VALID_ALONE : pystr :=
  jstr "<tool_call>{'name':'g','arguments':{}}</tool_call>".

Definition G_BLOCK : pystr := jstr "{'name':'g','arguments':{}}".

(** A block cut short before its closing brace, followed by a block that
    holds the empty object; the group the pattern finds in it; the second
    block on its own. *)
Definition CUT_THEN_EMPTY_OBJECT : pystr :=
  jstr "<tool_call>{bad</tool_call><tool_call>{}</tool_call>".

Definition CUT_GROUP : pystr := jstr "{bad</tool_call><tool_call>{}".

Definition EMPTY_OBJECT_ALONE : pystr := jstr "<tool_call>{}</tool_call>".

(** A block whose braces are closed but whose content is not JSON,
    followed by a well-formed block. *)
Definition MALFORMED_THEN_VALID : pystr :=
  jstr "<tool_call>{bad}</tool_call><tool_call>{'name':'g','arguments':{}}</tool_call>".

(** Prose, a space and a newline, then a block. *)
Definition CHATTY_OUTPUT : pystr :=
  jstr "hi 
<tool_call>{'name':'f','arguments':{}}</tool_call>".

Definition SOME_TOOLS : value :=
  VList [VDict [(str "type", VStr (str "function"))]].

(** ** Requests *)

Definition ZERO_TEMPERATURE_REQUEST : Proxy.request :=
  {| Proxy.path := str "/v1/chat/completions";
     Proxy.requestline := str "POST /v1/chat/completions HTTP/1.1";
     Proxy.content_length := Some (str "35");
     Proxy.rfile_read := fun _ => jstr "{'messages': [], 'temperature': 0}" |}.

Definition BROKEN_REQUEST : Proxy.request :=
  {| Proxy.path := str "/v1/chat/completions";
     Proxy.requestline := str "POST /v1/chat/completions HTTP/1.1";
     Proxy.content_length := Some (str "9");
     Proxy.rfile_read := fun _ => jstr "{'messages" |}.

(** ** Rollout groups *)


Definition TENTHS_GROUP : list (Grpo.rollout float) :=
  [Reference.solved 0.1%float; Reference.solved 0.1%float;
   Reference.solved 0.1%float].

Definition MIXED_GROUP : list (Grpo.rollout float) :=
  [Reference.solved 1%float; Reference.solved 0%float].

Definition ZERO_GROUP : list (Grpo.rollout float) :=
  [Reference.solved 0%float; Reference.solved 0%float].

(** ** Rewards of zero and one

    A rollout that fails scores 0.0 and one that resolves its task 1.0;
    [GRPOConfig.group_size] defaults to 10.  [binary_rewards n] lists the
    reward vectors of length [n] over these two values. *)

Fixpoint binary_rewards (n : nat) : list (list float) :=
  match n with
  | O => [[]]
  | S n' => map (cons 0%float) (binary_rewards n')
            ++ map (cons 1%float) (binary_rewards n')
  end.

Definition DEFAULT_GROUP_SIZE : nat := 10.



(** The group with the given rewards carries no signal. *)
Definition rewards_without_signal (num : Grpo.Number float)
    (rewards : list float) : bool :=
  @Grpo.no_signal float num
    (@Grpo.group_advantages float num
       (map (Reference.solved (R:=float)) rewards)).

End Cases.

(* ===================================================================== *)
(** * More of tinker_proxy.py                                             *)
(* ===================================================================== *)

Module Routes.
Import Py Proxy.

Local Open Scope py_scope.

(** [pat in t] for a literal [pat]. *)
Fixpoint occurs (pat t : pystr) : bool :=
  match strip_prefix pat t with
  | Some _ => true
  | None => match t with
            | [] => false
            | _ :: t' => occurs pat t'
            end
  end.

(** ** Tagged blocks, as the protocol describes them

    [block] is a tagged block of [text]: it stands between an opening tag
    and a closing tag, separated from each by whitespace only, it runs from
    an opening brace to a closing brace, and no closing tag lies inside
    it. *)
Definition delimited_block (text block : pystr) : Prop :=
  exists pre ws1 u ws2 post,
    text = pre ++ TOOL_CALL_OPEN ++ ws1 ++ block ++ ws2
               ++ TOOL_CALL_CLOSE ++ post
    /\ block = LBRACE :: u ++ [RBRACE]
    /\ forallb isspace ws1 = true
    /\ forallb isspace ws2 = true
    /\ occurs TOOL_CALL_CLOSE block = false.

(** No group that the pattern matches in [text] holds a tag: no match runs
    across the end of one block or across the start of another. *)
Definition tag_free_groups (text : pystr) : bool :=
  forallb (fun g => negb (occurs TOOL_CALL_OPEN g)
                    && negb (occurs TOOL_CALL_CLOSE g))
    (finditer text).

(** No occurrence of the opening tag begins inside [s], whatever follows
    [s]. *)
Definition tag_sealed (s : pystr) : Prop :=
  forall a1 a2 tail,
    s = a1 ++ a2 -> a2 <> [] ->
    strip_prefix TOOL_CALL_OPEN (a2 ++ tail) = None.

(** ** [Handler.do_GET] *)

Definition MODEL_PATHS : list pystr := [str "/v1/models"; str "/models"].

Definition HEALTH_PATH : pystr := str "/health".

Section Get.
Context `{FloatRepr}.
Variable model_name : pystr.

(** [{"data": [{"id": server.model_name, "object": "model"}]}]. *)
Definition models_value : value :=
  VDict [(str "data",
          VList [VDict [(str "id", VStr model_name);
                        (str "object", VStr (str "model"))]])].

(** Every branch calls [send_response], which logs the access line. *)
Definition do_GET (req : request) : M response :=
  if existsb (pystr_eqb (path req)) MODEL_PATHS then
    _ <- send_response req 200 ;;
    ret {| status := 200;
           headers := [(str "Content-Type", str "application/json")];
           body := json_dumps models_value |}
  else if pystr_eqb (path req) HEALTH_PATH then
    _ <- send_response req 200 ;;
    ret {| status := 200; headers := []; body := [] |}
  else
    _ <- send_response req 404 ;;
    ret {| status := 404; headers := []; body := [] |}.

End Get.

(** Text that [str.encode()] can always encode: code points below 128. *)
Definition ascii_text (s : pystr) : Prop := Forall (fun c => (c < 128)%N) s.

End Routes.

(* ===================================================================== *)
(** * More of tinker_grpo.py: the training loop                           *)
(* ===================================================================== *)

Module Loop.
Import Py.

Local Open Scope Z_scope.

(** [a % b] on [int]s; [None] is [ZeroDivisionError].  The remainder has
    the sign of the divisor, as [Z.modulo]. *)
Definition py_mod (a b : Z) : option Z :=
  if b =? 0 then None else Some (a mod b).

(** [range(n)]: empty when [n] is not positive. *)
Definition range (n : Z) : list Z := map Z.of_nat (seq 0 (Z.to_nat n)).

(** [[f(x) for x in l]] where [f] may raise. *)
Fixpoint comprehension {A B : Type} (f : A -> option B) (l : list A)
  : option (list B) :=
  match l with
  | [] => Some []
  | x :: l' =>
      match f x with
      | None => None
      | Some y =>
          match comprehension f l' with
          | None => None
          | Some ys => Some (y :: ys)
          end
      end
  end.

(** [[(step * config.batch_size + i) % len(ds)
      for i in range(config.batch_size)]]. *)
Definition batch_indices (step batch_size : Z) (len_ds : nat)
  : option (list Z) :=
  comprehension (fun i => py_mod (step * batch_size + i) (Z.of_nat len_ds))
    (range batch_size).

(** [config.save_every > 0 and (step + 1) % config.save_every == 0]: the
    remainder is not evaluated when the first test fails. *)
Definition checkpoint_due (save_every step : Z) : bool :=
  (0 <? save_every) && ((step + 1) mod save_every =? 0).

(** The steps of [for step in range(config.num_steps)] after which a
    periodic checkpoint is saved. *)
Definition checkpoint_steps (save_every num_steps : Z) : list Z :=
  filter (checkpoint_due save_every) (range num_steps).

End Loop.

(* ===================================================================== *)
(** * More of tinker_grpo.py: collect_rollouts                            *)
(* ===================================================================== *)

Module Rollouts.
Import Py.

(** ** Collaborators *)

(** [Trajectory.load_from_model_dump_json(traj_json).reward]. *)
Class TrajectoryLoader (R : Type) := { load_reward : pystr -> result R }.

(** [str(e)], as an f-string formats an exception. *)
Class ExnText := { exn_text : exn -> pystr }.

(** The process pool.  [submit ds_entry] is
    [executor.submit(runagent, ds=ds_entry, ...)], which may raise (a broken
    pool, a pool shut down).  [as_completed ds_entries] lists the futures of
    the entries submitted, each with its entry and with what
    [future.result()] gives (the JSON of a trajectory or [None], unless it
    raises), in the order in which the futures complete. *)
Class Pool := {
  submit : value -> result unit;
  as_completed : list value -> list (value * result (option pystr))
}.

(** One entry of the list returned. *)
Record collected (R : Type) : Type :=
  { trajectory_json : pystr; reward : R; task_id : value }.

Section Collect.
Context {R : Type} `{TrajectoryLoader R} `{ExnText} `{Grpo.Format} `{Pool}.

(** [ds_entry.get("instance_id", ds_entry.get("docker_image", "unknown"))]. *)
Definition task_id_of (ds_entry : value) : result value :=
  rbind (py_get ds_entry (str "docker_image") (VStr (str "unknown")))
    (fun image => py_get ds_entry (str "instance_id") image).

(** The body of the [try], for the future of [ds_entry]: [outcome] is what
    [future.result()] gives, the JSON of a trajectory or [None], unless it
    raises. *)
Definition gather (ds_entry : value) (outcome : result (option pystr))
    (results : list (collected R)) : result (list (collected R)) :=
  rbind outcome
    (fun traj_json =>
       match traj_json with
       | None => Ok results
       | Some json =>
           rbind (load_reward json)
             (fun r =>
                rbind (task_id_of ds_entry)
                  (fun t => Ok (results ++ [{| trajectory_json := json;
                                               reward := r;
                                               task_id := t |}])))
       end).

(** The handler of [except Exception as e]: one error in the log. *)
Definition report_failure (ds_entry : value) (e : exn)
    (log : list (Proxy.level * pystr)) : result (list (Proxy.level * pystr)) :=
  rbind (py_get ds_entry (str "docker_image") (VStr (str "?")))
    (fun image =>
       Ok (log ++ [(Proxy.ERROR,
                    str "Rollout failed for " ++ Grpo.format_value image
                    ++ str ": " ++ exn_text e)])).

(** The loop over [as_completed(future_to_ds)]: [completed] lists the
    entries with the outcome of their futures, in the order in which the
    futures complete. *)
Fixpoint collect_completed
    (completed : list (value * result (option pystr)))
    (results : list (collected R)) (log : list (Proxy.level * pystr))
  : result (list (collected R) * list (Proxy.level * pystr)) :=
  match completed with
  | [] => Ok (results, log)
  | (ds_entry, outcome) :: completed' =>
      match gather ds_entry outcome results with
      | Ok results' => collect_completed completed' results' log
      | Raised e =>
          rbind (report_failure ds_entry e log)
            (fun log' => collect_completed completed' results log')
      end
  end.

(** The dictionary comprehension that submits one call of [runagent] per
    entry, in order: the first [submit] that raises ends it. *)
Fixpoint submit_all (ds_entries : list value) : result unit :=
  match ds_entries with
  | [] => Ok tt
  | ds_entry :: ds_entries' =>
      rbind (submit ds_entry) (fun _ => submit_all ds_entries')
  end.

(** [collect_rollouts], for [config.max_workers] an [int]:
    [ProcessPoolExecutor(max_workers=...)] raises [ValueError] unless it is
    positive; the submissions and the loop run inside the [with] block, whose
    exit waits for the workers and lets an exception through. *)
Definition collect_rollouts (max_workers : Z) (ds_entries : list value)
    (log : list (Proxy.level * pystr))
  : result (list (collected R) * list (Proxy.level * pystr)) :=
  if (max_workers <=? 0)%Z then Raised ValueError
  else
    rbind (submit_all ds_entries)
      (fun _ => collect_completed (as_completed ds_entries) [] log).

(** The future returned [None]. *)
Definition returned_none (c : value * result (option pystr)) : bool :=
  match snd c with
  | Ok None => true
  | _ => false
  end.

End Collect.

End Rollouts.

(* ===================================================================== *)
(** * More of tinker_grpo.py: GRPOConfig                                  *)
(* ===================================================================== *)

Module Config.
Import Py.

(** The dataclass.  Annotations are not enforced: a field holds whatever
    the YAML document gave. *)
Record GRPOConfig : Type := {
  model_name : value; lora_rank : value; lora_alpha : value;
  learning_rate : value; num_steps : value; group_size : value;
  batch_size : value; temperature : value; kl_coeff : value;
  dataset : value; split : value; max_steps : value; max_workers : value;
  backend : value; scaffold : value; use_fn_calling : value;
  log_dir : value; save_every : value; eval_every : value;
  wandb_project : value; wandb_run_name : value
}.

(** [cls.__dataclass_fields__] with the default of each field. *)
Definition DEFAULTS : list (pystr * value) :=
  [(str "model_name", VStr (str "Qwen/Qwen3-30B-A3B"));
   (str "lora_rank", VInt 32);
   (str "lora_alpha", VInt 64);
   (str "learning_rate", VFloat 2e-5%float);
   (str "num_steps", VInt 1000);
   (str "group_size", VInt 10);
   (str "batch_size", VInt 8);
   (str "temperature", VFloat 1%float);
   (str "kl_coeff", VFloat 0.01%float);
   (str "dataset", VStr (str "R2E-Gym/R2E-Gym-Lite"));
   (str "split", VStr (str "train"));
   (str "max_steps", VInt 40);
   (str "max_workers", VInt 20);
   (str "backend", VStr (str "kubernetes"));
   (str "scaffold", VStr (str "r2egym"));
   (str "use_fn_calling", VBool true);
   (str "log_dir", VStr (str "/data/training/"));
   (str "save_every", VInt 50);
   (str "eval_every", VInt 0);
   (str "wandb_project", VStr []);
   (str "wandb_run_name", VStr [])].

Definition dataclass_fields : list pystr := map fst DEFAULTS.

Definition default (name : pystr) : value := get_or DEFAULTS name VNone.

(** [d[k] = v]: a key already present keeps its place. *)
Fixpoint setitem (k : pystr) (v : value) (d : list (pystr * value))
  : list (pystr * value) :=
  match d with
  | [] => [(k, v)]
  | (k', v') :: d' =>
      if pystr_eqb k k' then (k', v) :: d' else (k', v') :: setitem k v d'
  end.

(** [d.update(other)]. *)
Definition update (d other : list (pystr * value)) : list (pystr * value) :=
  fold_left (fun acc kv => setitem (fst kv) (snd kv) acc) other d.

(** The loop [for section in raw.values()]: a section that is a mapping is
    merged into [kwargs]; the first value that is not a mapping merges the
    whole document instead and ends the loop. *)
Fixpoint flatten (sections : list value) (raw kwargs : list (pystr * value))
  : list (pystr * value) :=
  match sections with
  | [] => kwargs
  | VDict section :: sections' => flatten sections' raw (update kwargs section)
  | _ :: _ => update kwargs raw
  end.

(** [{k: v for k, v in kwargs.items() if k in cls.__dataclass_fields__}]. *)
Definition known (kwargs : list (pystr * value)) : list (pystr * value) :=
  filter (fun kv => existsb (pystr_eqb (fst kv)) dataclass_fields) kwargs.

(** The call of [cls] with [kwargs] as keyword arguments: a field takes
    its keyword argument, or its default. *)
Definition field (kwargs : list (pystr * value)) (name : pystr) : value :=
  get_or kwargs name (default name).

Definition construct (kwargs : list (pystr * value)) : GRPOConfig :=
  {| model_name := field kwargs (str "model_name");
     lora_rank := field kwargs (str "lora_rank");
     lora_alpha := field kwargs (str "lora_alpha");
     learning_rate := field kwargs (str "learning_rate");
     num_steps := field kwargs (str "num_steps");
     group_size := field kwargs (str "group_size");
     batch_size := field kwargs (str "batch_size");
     temperature := field kwargs (str "temperature");
     kl_coeff := field kwargs (str "kl_coeff");
     dataset := field kwargs (str "dataset");
     split := field kwargs (str "split");
     max_steps := field kwargs (str "max_steps");
     max_workers := field kwargs (str "max_workers");
     backend := field kwargs (str "backend");
     scaffold := field kwargs (str "scaffold");
     use_fn_calling := field kwargs (str "use_fn_calling");
     log_dir := field kwargs (str "log_dir");
     save_every := field kwargs (str "save_every");
     eval_every := field kwargs (str "eval_every");
     wandb_project := field kwargs (str "wandb_project");
     wandb_run_name := field kwargs (str "wandb_run_name") |}.

(** [GRPOConfig.from_yaml], from the document [yaml.safe_load] returned:
    anything but a mapping has no [values()]. *)
Definition from_yaml (raw : value) : result GRPOConfig :=
  match raw with
  | VDict items => Ok (construct (known (flatten (map snd items) items [])))
  | _ => Raised AttributeError
  end.

(** [getattr(config, name)]; [None] is [AttributeError]. *)
Definition getattr (config : GRPOConfig) (name : pystr) : option value :=
  lookup name
    [(str "model_name", model_name config);
     (str "lora_rank", lora_rank config);
     (str "lora_alpha", lora_alpha config);
     (str "learning_rate", learning_rate config);
     (str "num_steps", num_steps config);
     (str "group_size", group_size config);
     (str "batch_size", batch_size config);
     (str "temperature", temperature config);
     (str "kl_coeff", kl_coeff config);
     (str "dataset", dataset config);
     (str "split", split config);
     (str "max_steps", max_steps config);
     (str "max_workers", max_workers config);
     (str "backend", backend config);
     (str "scaffold", scaffold config);
     (str "use_fn_calling", use_fn_calling config);
     (str "log_dir", log_dir config);
     (str "save_every", save_every config);
     (str "eval_every", eval_every config);
     (str "wandb_project", wandb_project config);
     (str "wandb_run_name", wandb_run_name config)].

(** A mapping as [yaml.safe_load] builds it: a dictionary, no key twice. *)
Definition mapping (section : value) : Prop :=
  exists kv, section = VDict kv /\ NoDup (map fst kv).

(** The value a key has once an empty dictionary has been updated with
    each mapping of [sections] in turn: the binding of the last mapping that
    has the key. *)
Definition last_binding (name : pystr) (sections : list value)
  : option value :=
  fold_left (fun found section =>
               match section with
               | VDict kv => match lookup name kv with
                             | Some v => Some v
                             | None => found
                             end
               | _ => found
               end) sections None.

End Config.

(* ===================================================================== *)
(** * s3_sync.py                                                          *)
(* ===================================================================== *)

Module S3.
Import Py.

(** ** Collaborators *)

(** [os.environ.get(name)]. *)
Class Environ := { environ_get : pystr -> option pystr }.

(** [pathlib] and the file system, over an abstract type of paths:
    [p.relative_to(base)] ([None] is [ValueError]), [str(p)], [p.parent],
    [p.is_file()], [p.is_dir()] and the sorted list of [p.rglob] on the
    pattern that matches every name. *)
Class PathLib (Path : Type) := {
  relative_to : Path -> Path -> option Path;
  path_str : Path -> pystr;
  parent : Path -> Path;
  is_file : Path -> bool;
  is_dir : Path -> bool;
  rglob_sorted : Path -> list Path
}.

(** What [client.upload_file(Filename, Bucket, Key)] does: it returns,
    raises [ClientError], or raises something else. *)
Inductive outcome : Type :=
| Stored
| ClientError (msg : pystr)
| Failure (e : exn).

Class Client := { client_upload : pystr -> pystr -> pystr -> outcome }.

(** ** Effects: the log and the uploads requested, in order *)

Record put : Type :=
  { put_filename : pystr; put_bucket : pystr; put_key : pystr }.

Record world : Type :=
  { log : list (Proxy.level * pystr); puts : list put }.

Definition M (A : Type) : Type := world -> result A * world.

Definition ret {A} (a : A) : M A := fun w => (Ok a, w).

Definition bind {A B} (m : M A) (k : A -> M B) : M B :=
  fun w => match m w with
           | (Ok a, w') => k a w'
           | (Raised e, w') => (Raised e, w')
           end.

Definition logger (lv : Proxy.level) (msg : pystr) : M unit :=
  fun w => (Ok tt, {| log := log w ++ [(lv, msg)]; puts := puts w |}).

Definition raise {A} (e : exn) : M A := fun w => (Raised e, w).

Declare Scope s3_scope.
Notation "x <- m ;; k" := (bind m (fun x => k))
  (at level 61, m at next level, right associativity) : s3_scope.
Local Open Scope s3_scope.

(** ** [S3Sync] *)

(** [_client] is [None] or a client: [has_client] tells which. *)
Record S3Sync : Type :=
  { bucket : pystr; prefix : pystr; has_client : bool }.

(** [x or y] for [x] a [str] or [None]. *)
Definition str_or (x : option pystr) (y : pystr) : pystr :=
  match x with
  | Some (c :: s) => c :: s
  | _ => y
  end.

(** [os.environ.get(name, default)]. *)
Definition environ_get_or `{Environ} (name default : pystr) : pystr :=
  match environ_get name with
  | Some v => v
  | None => default
  end.

Definition NOT_SET_WARNING : pystr :=
  str "S3_BUCKET not set " ++ [8212%N] ++ str " S3 uploads will be skipped".

(** [S3Sync.__init__]; creating the client is taken to succeed. *)
Definition init `{Environ} (bucket prefix : option pystr) : M S3Sync :=
  let bucket := str_or bucket (environ_get_or (str "S3_BUCKET") []) in
  let prefix :=
    str_or prefix (environ_get_or (str "S3_PREFIX")
                     (str "r2egym-trajectories")) in
  match bucket with
  | [] =>
      _ <- logger Proxy.WARNING NOT_SET_WARNING ;;
      ret {| bucket := bucket; prefix := prefix; has_client := false |}
  | _ :: _ =>
      _ <- logger Proxy.INFO
             (str "S3Sync ready: s3://" ++ bucket ++ str "/" ++ prefix
              ++ str "/") ;;
      ret {| bucket := bucket; prefix := prefix; has_client := true |}
  end.

(** [self._client is not None and bool(self.bucket)]. *)
Definition enabled (self : S3Sync) : bool :=
  has_client self && match bucket self with [] => false | _ :: _ => true end.

Section Sync.
Context {Path : Type} `{PathLib Path} `{Client}.
Variable self : S3Sync.

(** [_s3_key]: [f"{self.prefix}/{rel}"]. *)
Definition _s3_key (local_path base_dir : Path) : M pystr :=
  match relative_to local_path base_dir with
  | Some rel => ret (prefix self ++ str "/" ++ path_str rel)
  | None => raise ValueError
  end.

(** The call of the client inside [try ... except ClientError]. *)
Definition client_upload_file (filename key : pystr) : M outcome :=
  fun w => (Ok (client_upload filename (bucket self) key),
            {| log := log w;
               puts := puts w ++ [{| put_filename := filename;
                                     put_bucket := bucket self;
                                     put_key := key |}] |}).

Definition upload_file (local_path : Path) (base_dir : option Path)
  : M bool :=
  if negb (enabled self) then ret false
  else if negb (is_file local_path) then
    _ <- logger Proxy.WARNING
           (str "File not found, skipping upload: " ++ path_str local_path) ;;
    ret false
  else
    let base_dir := match base_dir with
                    | None => parent local_path
                    | Some b => b
                    end in
    key <- _s3_key local_path base_dir ;;
    done <- client_upload_file (path_str local_path) key ;;
    match done with
    | Stored =>
        _ <- logger Proxy.INFO
               (str "Uploaded " ++ path_str local_path ++ str " -> s3://"
                ++ bucket self ++ str "/" ++ key) ;;
        ret true
    | ClientError msg =>
        _ <- logger Proxy.ERROR
               (str "S3 upload failed for " ++ path_str local_path
                ++ str ": " ++ msg) ;;
        ret false
    | Failure e => raise e
    end.

(** The loop of [sync_dir] over the sorted paths, counting. *)
Fixpoint sync_paths (local_dir : Path) (paths : list Path) (count : nat)
  : M nat :=
  match paths with
  | [] => ret count
  | path :: paths' =>
      if is_file path then
        uploaded <- upload_file path (Some local_dir) ;;
        sync_paths local_dir paths' (if uploaded then S count else count)
      else sync_paths local_dir paths' count
  end.

(** The key a file of [local_dir] is stored under, the upload requested
    for it, and whether the client stores it. *)
Definition key_under (local_dir p : Path) : pystr :=
  match relative_to p local_dir with
  | Some rel => prefix self ++ str "/" ++ path_str rel
  | None => []
  end.

Definition put_under (local_dir p : Path) : put :=
  {| put_filename := path_str p; put_bucket := bucket self;
     put_key := key_under local_dir p |}.

Definition stored_under (local_dir p : Path) : bool :=
  match client_upload (path_str p) (bucket self) (key_under local_dir p) with
  | Stored => true
  | _ => false
  end.

Definition sync_dir (local_dir : Path) : M nat :=
  if negb (enabled self) then ret 0%nat
  else if negb (is_dir local_dir) then
    _ <- logger Proxy.WARNING
           (str "Directory not found, skipping sync: "
            ++ path_str local_dir) ;;
    ret 0%nat
  else
    count <- sync_paths local_dir (rglob_sorted local_dir) 0%nat ;;
    _ <- logger Proxy.INFO
           (str "Synced " ++ int_repr (Z.of_nat count) ++ str " files from "
            ++ path_str local_dir ++ str " to s3://" ++ bucket self
            ++ str "/" ++ prefix self ++ str "/") ;;
    ret count.

End Sync.

End S3.

(* ===================================================================== *)
(** * Checks over groups of pass/fail rewards                             *)
(* ===================================================================== *)

Module Checks.
Import Py Grpo.

(** All the rewards are the same float. *)
Definition uniform (rewards : list float) : bool :=
  match rewards with
  | [] => true
  | x :: rest => forallb (PrimFloat.eqb x) rest
  end.

(** How many rollouts resolved their task. *)
Definition successes (rewards : list float) : nat :=
  List.length (filter (PrimFloat.eqb 1%float) rewards).

(** The group is dropped exactly when its rewards are uniform. *)
Definition dropped_iff_uniform (num : Number float) (rewards : list float)
  : bool :=
  Bool.eqb
    (@no_signal float num
       (@group_advantages float num
          (map (Reference.solved (R:=float)) rewards)))
    (uniform rewards).

(** The mean reward is the correctly rounded quotient of the number of
    successes by the size of the group. *)
Definition mean_is_success_rate (num : Number float) (rewards : list float)
  : bool :=
  PrimFloat.Leibniz.eqb
    (@mean_reward float num rewards)
    (PrimFloat.div (float_of_len (successes rewards))
       (float_of_len (List.length rewards))).

End Checks.

(* ===================================================================== *)
(** * Inputs of further worked cases                                      *)
(* ===================================================================== *)

Module Fixtures.
Import Py.

(** ** Model outputs and requests *)

Definition PLAIN_OUTPUT : pystr := str "plain answer".

(** An e with acute accent and an emoji from outside the basic plane. *)
Definition ACCENTED_OUTPUT : pystr := [233%N; 128512%N].

Definition PLAIN_REQUEST : Proxy.request :=
  {| Proxy.path := str "/v1/chat/completions";
     Proxy.requestline := str "POST /v1/chat/completions HTTP/1.1";
     Proxy.content_length := Some (str "16");
     Proxy.rfile_read := fun _ => jstr "{'messages': []}" |}.

Definition HEALTH_REQUEST : Proxy.request :=
  {| Proxy.path := str "/health";
     Proxy.requestline := str "GET /health HTTP/1.1";
     Proxy.content_length := None;
     Proxy.rfile_read := fun _ => [] |}.

(** A body that is JSON, but a list. *)
Definition LIST_BODY_REQUEST : Proxy.request :=
  {| Proxy.path := str "/chat/completions";
     Proxy.requestline := str "POST /chat/completions HTTP/1.1";
     Proxy.content_length := Some (str "2");
     Proxy.rfile_read := fun _ => str "[]" |}.

(** A temperature that is not a number. *)
Definition HOT_REQUEST : Proxy.request :=
  {| Proxy.path := str "/v1/chat/completions";
     Proxy.requestline := str "POST /v1/chat/completions HTTP/1.1";
     Proxy.content_length := Some (str "22");
     Proxy.rfile_read := fun _ => jstr "{'temperature': 'hot'}" |}.

(** ** Rollouts and data *)

(** A rollout whose trajectory is JSON, but a list. *)
Definition LIST_TRAJECTORY (r : float) : Grpo.rollout float :=
  {| Grpo.trajectory_json := str "[]";
     Grpo.reward := r;
     Grpo.task_id := str "task" |}.

Definition LIST_THEN_SOLVED : list (Grpo.rollout float) :=
  [LIST_TRAJECTORY 1%float; Reference.solved 0%float].

Definition ONE_DATUM : Grpo.datum float :=
  {| Grpo.model_input := [1%Z; 7%Z; 8%Z];
     Grpo.target_tokens := [7%Z; 8%Z; 2%Z];
     Grpo.weights := [0%float; 0.5%float; 0.5%float] |}.

(** ** Configuration documents *)

(** Two sections that both set [lora_rank]. *)
Definition NESTED_DOCUMENT : list (pystr * value) :=
  [(str "model", VDict [(str "model_name", VStr (str "Qwen/Qwen3-8B"));
                        (str "lora_rank", VInt 8)]);
   (str "training", VDict [(str "lora_rank", VInt 16);
                           (str "warmup", VInt 3)])].

(** A section, then a top-level scalar, then another section. *)
Definition LEADING_SECTIONS : list (pystr * value) :=
  [(str "model", VDict [(str "lora_rank", VInt 8)])].

Definition TRAILING_SECTIONS : list (pystr * value) :=
  [(str "rollout", VDict [(str "max_steps", VInt 7)])].

(** ** Finished rollouts *)

(** A loader that reads the reward 1.0 from every trajectory but the
    empty one. *)
Definition loader : Rollouts.TrajectoryLoader float :=
  {| Rollouts.load_reward := fun json =>
       match json with
       | [] => Raised ValueError
       | _ :: _ => Ok 1%float
       end |}.

Definition plain_exn_text : Rollouts.ExnText :=
  {| Rollouts.exn_text := fun e =>
       match e with
       | External msg => msg
       | _ => str "error"
       end |}.

Definition TASK_ENTRY : value :=
  VDict [(str "docker_image", VStr (str "image:1"))].

(** One task run four times: a trajectory, a crash, no trajectory, and a
    trajectory that cannot be loaded. *)
Definition FOUR_FUTURES : list (value * result (option pystr)) :=
  [(TASK_ENTRY, Ok (Some (str "{}")));
   (TASK_ENTRY, Raised (External (str "pod evicted")));
   (TASK_ENTRY, Ok None);
   (TASK_ENTRY, Ok (Some []))].

Definition FOUR_ENTRIES : list value := repeat TASK_ENTRY 4.

(** A pool that accepts every submission and completes the four runs of
    the task as above. *)
Definition four_runs : Rollouts.Pool :=
  {| Rollouts.submit := fun _ => Ok tt;
     Rollouts.as_completed := fun _ => FOUR_FUTURES |}.

(** ** A directory tree, an environment and an S3 client *)

Definition no_environ : S3.Environ := {| S3.environ_get := fun _ => None |}.

Fixpoint parts_eqb (a b : list pystr) : bool :=
  match a, b with
  | [], [] => true
  | x :: a', y :: b' => pystr_eqb x y && parts_eqb a' b'
  | _, _ => false
  end.

Fixpoint strip_parts (base p : list pystr) : option (list pystr) :=
  match base, p with
  | [], _ => Some p
  | b :: base', x :: p' => if pystr_eqb b x then strip_parts base' p' else None
  | _ :: _, [] => None
  end.

Definition DATA_DIR : list pystr := [str "data"].

Definition FILES : list (list pystr) :=
  [[str "data"; str "a.json"]; [str "data"; str "sub"; str "b.json"]].

Definition DIRECTORIES : list (list pystr) :=
  [[str "data"]; [str "data"; str "sub"]].

(** Paths by their parts, over a tree with two files. *)
Definition tree : S3.PathLib (list pystr) :=
  {| S3.relative_to := fun p base => strip_parts base p;
     S3.path_str := join (str "/");
     S3.parent := @removelast pystr;
     S3.is_file := fun p => existsb (parts_eqb p) FILES;
     S3.is_dir := fun p => existsb (parts_eqb p) DIRECTORIES;
     S3.rglob_sorted := fun d =>
       if parts_eqb d DATA_DIR
       then [[str "data"; str "a.json"]; [str "data"; str "sub"];
             [str "data"; str "sub"; str "b.json"]]
       else [] |}.

(** A client that stores one file and is refused the others. *)
Definition picky_client : S3.Client :=
  {| S3.client_upload := fun filename _ _ =>
       if pystr_eqb filename (str "data/a.json") then S3.Stored
       else S3.ClientError (str "AccessDenied") |}.

Definition RUNS_BUCKET : S3.S3Sync :=
  {| S3.bucket := str "bucket"; S3.prefix := str "runs";
     S3.has_client := true |}.

End Fixtures.

Unset Implicit Arguments.

(* ===================================================================== *)
(** * Properties of the proxy                                             *)
(* ===================================================================== *)

Module ProxyFacts.
Import Py Proxy Cases.

Section StringFacts.

Lemma pystr_eqb_eq (a b : pystr) : pystr_eqb a b = true <-> a = b.
Proof.
  revert b; induction a as [|x a IH]; intros [|y b]; simpl; split;
    try congruence; try reflexivity.
  - intros E. apply andb_true_iff in E as [Ex Er].
    apply N.eqb_eq in Ex. apply IH in Er. congruence.
  - intros E. injection E as -> ->.
    rewrite N.eqb_refl. simpl. now apply IH.
Qed.

Lemma strip_prefix_length (p t rest : pystr) :
  strip_prefix p t = Some rest ->
  List.length t = (List.length p + List.length rest)%nat.
Proof.
  revert t; induction p as [|a p IH]; intros [|b t]; simpl; try discriminate.
  - intros [= <-]. reflexivity.
  - intros [= <-]. reflexivity.
  - destruct (N.eqb a b); [|discriminate].
    intros E. apply IH in E. lia.
Qed.

Lemma lstrip_length (s : pystr) : (List.length (lstrip s) <= List.length s)%nat.
Proof.
  induction s as [|c s IH]; simpl; [lia|].
  destruct (isspace c); simpl; lia.
Qed.

End StringFacts.

Section PatternFacts.

(** A match of the lazy body keeps what was seen and ends before the rest. *)
Lemma lazy_body_shape (t seen g rest : pystr) :
  lazy_body seen t = Some (g, rest) ->
  (exists tail, g = rev seen ++ tail)
  /\ (List.length rest < List.length t)%nat.
Proof.
  revert seen; induction t as [|c t IH]; intros seen; cbn [lazy_body];
    [discriminate|].
  assert (Hrec : lazy_body (c :: seen) t = Some (g, rest) ->
                 (exists tail, g = rev seen ++ tail)
                 /\ (List.length rest < S (List.length t))%nat).
  { intros E. apply IH in E as [[tail ->] Hl]. split; [|lia].
    exists (c :: tail). simpl. now rewrite <- app_assoc. }
  destruct (N.eqb c RBRACE); [|exact Hrec].
  destruct (strip_prefix TOOL_CALL_CLOSE (lstrip t)) as [r|] eqn:Ec;
    [|exact Hrec].
  intros [= <- <-]. split.
  - exists [c]. reflexivity.
  - apply strip_prefix_length in Ec. pose proof (lstrip_length t).
    cbn [List.length]. lia.
Qed.

Lemma match_here_shape (t g rest : pystr) :
  match_here t = Some (g, rest) ->
  (exists tail, g = LBRACE :: tail)
  /\ (List.length rest < List.length t)%nat.
Proof.
  unfold match_here.
  destruct (strip_prefix TOOL_CALL_OPEN t) as [t1|] eqn:E1; [|discriminate].
  destruct (lstrip t1) as [|c t2] eqn:E2; [discriminate|].
  destruct (N.eqb c LBRACE) eqn:Ec; [|discriminate].
  intros E. apply lazy_body_shape in E as [[tail ->] Hl].
  apply N.eqb_eq in Ec. subst c. split.
  - exists tail. reflexivity.
  - apply strip_prefix_length in E1. pose proof (lstrip_length t1).
    rewrite E2 in *. cbn [List.length] in *. lia.
Qed.

(** The fuel of [finditer] never runs out. *)
Lemma finditer_from_enough (n m : nat) (t : pystr) :
  (List.length t < n)%nat -> (List.length t < m)%nat ->
  finditer_from n t = finditer_from m t.
Proof.
  revert m t; induction n as [|n IH]; intros [|m] t Hn Hm; try lia.
  cbn [finditer_from]. destruct (match_here t) as [[g rest]|] eqn:E.
  - apply match_here_shape in E as [_ Hl].
    f_equal. apply IH; lia.
  - destruct t as [|c t]; [reflexivity|]. simpl in *. apply IH; lia.
Qed.

Lemma finditer_unfold (t : pystr) :
  finditer t =
  match match_here t with
  | Some (g, rest) => g :: finditer rest
  | None => match t with
            | [] => []
            | _ :: t' => finditer t'
            end
  end.
Proof.
  unfold finditer at 1. cbn [finditer_from].
  destruct (match_here t) as [[g rest]|] eqn:E.
  - apply match_here_shape in E as [_ Hl].
    f_equal. apply finditer_from_enough; lia.
  - destruct t as [|c t]; [reflexivity|].
    apply finditer_from_enough; simpl; lia.
Qed.

(** Every group handed to [json.loads] starts with an opening brace. *)
Lemma finditer_groups_braced (t : pystr) :
  Forall (fun g => exists tail, g = LBRACE :: tail) (finditer t).
Proof.
  unfold finditer. generalize (S (List.length t)) as n.
  intros n; revert t; induction n as [|n IH]; intros t; cbn [finditer_from];
    [constructor|].
  destruct (match_here t) as [[g rest]|] eqn:E.
  - constructor; [|apply IH]. now apply match_here_shape in E as [Hg _].
  - destruct t; [constructor|apply IH].
Qed.

End PatternFacts.

Section DecoderFacts.
Context `{Json} `{Host} `{FloatRepr}.


(** A block that [json.loads] rejects leaves the list as it is, adds one
    warning to the log, and the loop goes on with the next block. *)
Lemma parse_matches_skip (g : pystr) (gs : list pystr)
    (acc : list tool_call) (w : world) :
  json_loads g = None ->
  parse_matches (g :: gs) acc w
  = parse_matches gs acc (snd (logger WARNING (MALFORMED_WARNING ++ g) w)).
Proof.
  intros E. cbn [parse_matches]. rewrite E. reflexivity.
Qed.

(** A block that parses to an object appends one call and draws one uuid. *)
Lemma parse_matches_object (g : pystr) (kv : list (pystr * value))
    (gs : list pystr) (acc : list tool_call) (w : world) :
  json_loads g = Some (VDict kv) ->
  parse_matches (g :: gs) acc w
  = parse_matches gs
      (acc ++ [make_tool_call (uuid4_hex (draws w))
                 (get_or kv (str "name") (VStr []))
                 (arguments_string (get_or kv (str "arguments") (VDict [])))])
      (snd (uuid4 w)).
Proof.
  intros E. cbn [parse_matches]. rewrite E.
  reflexivity.
Qed.

(** The loop only ever appends. *)
Lemma parse_matches_extends (gs : list pystr) (acc r : list tool_call)
    (w w' : world) :
  parse_matches gs acc w = (Ok r, w') -> exists tail, r = acc ++ tail.
Proof.
  revert acc w; induction gs as [|g gs IH]; intros acc w.
  - intros [= <- <-]. exists []. now rewrite app_nil_r.
  - destruct (json_loads g) as [call|] eqn:E.
    + destruct call; try (cbn [parse_matches]; rewrite E; discriminate).
      rewrite (parse_matches_object _ _ _ _ _ E).
      intros E'. apply IH in E' as [tail ->].
      eexists. rewrite <- app_assoc. reflexivity.
    + rewrite (parse_matches_skip _ _ _ _ E). apply IH.
Qed.

(** Decoding returns normally when every group that parses is an object. *)
Lemma parse_matches_returns (gs : list pystr) (acc : list tool_call)
    (w : world) :
  Forall (fun g => forall v, json_loads g = Some v -> exists kv, v = VDict kv)
    gs ->
  exists r w', parse_matches gs acc w = (Ok r, w').
Proof.
  intros Hall; revert acc w; induction Hall as [|g gs Hg _ IH]; intros acc w.
  - now exists acc, w.
  - destruct (json_loads g) as [call|] eqn:E.
    + destruct (Hg _ eq_refl) as [kv ->].
      rewrite (parse_matches_object _ _ _ _ _ E). apply IH.
    + rewrite (parse_matches_skip _ _ _ _ E). apply IH.
Qed.

(** The calls returned are as many as the groups that parse. *)
Lemma parse_matches_count (gs : list pystr) (acc r : list tool_call)
    (w w' : world) :
  parse_matches gs acc w = (Ok r, w') ->
  List.length r
  = (List.length acc
     + List.length (filter (fun g => match json_loads g with
                                     | Some _ => true
                                     | None => false
                                     end) gs))%nat.
Proof.
  revert acc w; induction gs as [|g gs IH]; intros acc w.
  - intros [= <- _]. cbn [filter List.length]. lia.
  - cbn [filter]. destruct (json_loads g) as [call|] eqn:E.
    + destruct call; try (cbn [parse_matches]; rewrite E; discriminate).
      rewrite (parse_matches_object _ _ _ _ _ E).
      intros E'. apply IH in E'. rewrite E', length_app.
      cbn [List.length]. lia.
    + rewrite (parse_matches_skip _ _ _ _ E). apply IH.
Qed.

(** No call is returned exactly when no group parses. *)
Lemma no_calls_iff_no_block_parses (text : pystr) (calls : list tool_call)
    (w w' : world) :
  _parse_tool_calls text w = (Ok calls, w') ->
  (calls = [] <-> Forall (fun g => json_loads g = None) (finditer text)).
Proof.
  unfold _parse_tool_calls. intros E. apply parse_matches_count in E.
  cbn [List.length Nat.add] in E.
  split.
  - intros ->. cbn [List.length] in E.
    induction (finditer text) as [|g gs IH]; [constructor|].
    cbn [filter] in E. destruct (json_loads g) eqn:Eg; [discriminate|].
    constructor; [exact Eg|]. apply IH, E.
  - intros Hall. destruct calls as [|c calls]; [reflexivity|].
    exfalso. cbn [List.length] in E.
    induction Hall as [|g gs Hg _ IH]; [discriminate|].
    cbn [filter] in E. rewrite Hg in E. apply IH, E.
Qed.

End DecoderFacts.


(** C4.  A model output whose only tagged block holds the object with
    name f and arguments x = 1 decodes to exactly one tool call, of type
    function, named f, whose arguments are the JSON text of the object with
    a space after the colon; and whenever the arguments of a block are not
    already a string, the call carries their [json.dumps]. *)
Theorem decode_single_block `{Json} `{Host} `{FloatRepr} :
  (forall (text : pystr) (w : world),
      finditer text = [F_BLOCK] ->
      json_loads F_BLOCK
      = Some (VDict [(str "name", VStr (str "f"));
                     (str "arguments", VDict [(str "x", VInt 1)])]) ->
      exists c w',
        _parse_tool_calls text w = (Ok [c], w')
        /\ fn_name (tc_function c) = VStr (str "f")
        /\ tc_type c = str "function"
        /\ fn_arguments (tc_function c) = jstr "{'x': 1}")
  /\
  (forall (g : pystr) (kv : list (pystr * value)) (v : value)
          (gs : list pystr) (acc : list tool_call) (w : world),
      json_loads g = Some (VDict kv) ->
      lookup (str "arguments") kv = Some v ->
      (forall s, v <> VStr s) ->
      exists c,
        parse_matches (g :: gs) acc w
        = parse_matches gs (acc ++ [c]) (snd (uuid4 w))
        /\ fn_arguments (tc_function c) = json_dumps v).
Proof.
  split.
  - intros text w Hblocks Hloads. unfold _parse_tool_calls.
    rewrite Hblocks, (parse_matches_object _ _ _ _ _ Hloads).
    eexists. eexists. split; [reflexivity|]. repeat split.
  - intros g kv v gs acc w Hloads Hargs Hobj.
    rewrite (parse_matches_object _ _ _ _ _ Hloads).
    eexists. split; [reflexivity|].
    cbn [make_tool_call tc_function fn_arguments].
    unfold get_or. rewrite Hargs.
    destruct v; try reflexivity. now elim (Hobj s).
Qed.

(** C4 on a concrete output, with the reference JSON reader. *)
Lemma decode_single_block_witness :
  let text := jstr "I will call f.
<tool_call>
{'name':'f','arguments':{'x':1}}
</tool_call>" in
  exists c w',
    @_parse_tool_calls Reference.json Reference.host Reference.float_printer
      text Reference.fresh = (Ok [c], w')
    /\ fn_name (tc_function c) = VStr (str "f")
    /\ tc_type c = str "function"
    /\ fn_arguments (tc_function c) = jstr "{'x': 1}".
Proof.
  intros text.
  apply (proj1 (@decode_single_block Reference.json Reference.host
                  Reference.float_printer) text Reference.fresh).
  - vm_compute. reflexivity.
  - vm_compute. reflexivity.
Defined.


(** C7.  A tagged block cut short before its closing brace, followed by a
    well-formed block: the second block alone would decode to one call,
    but the pattern finds a single group running from the first opening
    brace to the end of the second block, [json.loads] rejects it, and
    decoding returns no call at all (with one warning logged). *)
Theorem truncated_block_swallows_next `{Json} `{Host} `{FloatRepr} :
  json_loads MERGED_GROUP = None ->
  json_loads G_BLOCK
  = Some (VDict [(str "name", VStr (str "g")); (str "arguments", VDict [])]) ->
  forall w : world,
    (exists c w', _parse_tool_calls VALID_ALONE w = (Ok [c], w')
                  /\ fn_name (tc_function c) = VStr (str "g"))
    /\ finditer TRUNCATED_THEN_VALID = [MERGED_GROUP]
    /\ _parse_tool_calls TRUNCATED_THEN_VALID w
       = (Ok [], snd (logger WARNING (MALFORMED_WARNING ++ MERGED_GROUP) w)).
Proof.
  intros Hbad Hgood w. split; [|split].
  - unfold _parse_tool_calls.
    replace (finditer VALID_ALONE) with [G_BLOCK] by (vm_compute; reflexivity).
    rewrite (parse_matches_object _ _ _ _ _ Hgood).
    eexists. eexists. split; reflexivity.
  - vm_compute. reflexivity.
  - unfold _parse_tool_calls.
    replace (finditer TRUNCATED_THEN_VALID) with [MERGED_GROUP]
      by (vm_compute; reflexivity).
    rewrite (parse_matches_skip _ _ _ _ Hbad). reflexivity.
Qed.

(** C7 run with the reference JSON reader. *)
Lemma truncated_block_swallows_next_witness :
  @_parse_tool_calls Reference.json Reference.host Reference.float_printer
    TRUNCATED_THEN_VALID Reference.fresh
  = (Ok [], snd (logger WARNING (MALFORMED_WARNING ++ MERGED_GROUP)
                   Reference.fresh)).
Proof.
  refine (proj2 (proj2 (@truncated_block_swallows_next Reference.json
                          Reference.host Reference.float_printer _ _
                          Reference.fresh))).
  - vm_compute. reflexivity.
  - vm_compute. reflexivity.
Defined.

(** When the malformed block is delimited by the pattern, it is skipped
    with a warning and the block after it is decoded. *)
Example delimited_malformed_block_is_skipped :
  @_parse_tool_calls Reference.json Reference.host Reference.float_printer
    MALFORMED_THEN_VALID Reference.fresh
  = (Ok [make_tool_call (str "0123456789abcdef") (VStr (str "g"))
           (str "{}")],
     {| draws := 1;
        log := [(WARNING, MALFORMED_WARNING ++ str "{bad}")];
        sent := [] |}).
Proof. vm_compute. reflexivity. Qed.

(** X28.  A group that the pattern has matched and that parses to a JSON
    object is never skipped by the loop: it appends one call of type
    function, which is in the final list; a missing name defaults to the
    empty string and missing arguments to the text of the empty object. *)
Theorem missing_keys_default `{Json} `{Host} `{FloatRepr}
    (g : pystr) (kv : list (pystr * value)) (gs : list pystr)
    (acc : list tool_call) (w : world) :
  json_loads g = Some (VDict kv) ->
  exists c,
    parse_matches (g :: gs) acc w
    = parse_matches gs (acc ++ [c]) (snd (uuid4 w))
    /\ tc_type c = str "function"
    /\ (lookup (str "name") kv = None -> fn_name (tc_function c) = VStr [])
    /\ (lookup (str "arguments") kv = None ->
        fn_arguments (tc_function c) = str "{}")
    /\ (forall r w',
           parse_matches (g :: gs) acc w = (Ok r, w') -> In c r).
Proof.
  intros Hloads. rewrite (parse_matches_object _ _ _ _ _ Hloads).
  eexists. split; [reflexivity|]. split; [reflexivity|]. split; [|split].
  - intros E. cbn [make_tool_call tc_function fn_name].
    unfold get_or. now rewrite E.
  - intros E. cbn [make_tool_call tc_function fn_arguments].
    unfold get_or. now rewrite E.
  - intros r w' E. apply parse_matches_extends in E as [tail ->].
    apply in_or_app. left. apply in_or_app. right. now left.
Qed.

(** X28 on the empty object in a block of its own. *)
Lemma missing_keys_default_witness :
  exists c w',
    @_parse_tool_calls Reference.json Reference.host Reference.float_printer
      (jstr "<tool_call>{}</tool_call>") Reference.fresh = (Ok [c], w')
    /\ fn_name (tc_function c) = VStr []
    /\ fn_arguments (tc_function c) = str "{}".
Proof.
  destruct (@missing_keys_default Reference.json Reference.host
              Reference.float_printer (str "{}") [] [] [] Reference.fresh
              eq_refl) as (c & Estep & _ & Hname & Hargs & _).
  exists c, (snd (@uuid4 Reference.host Reference.fresh)).
  split; [exact Estep|]. split; [apply Hname|apply Hargs]; reflexivity.
Defined.

(** C10.  A tagged block that holds the empty object, standing after a
    block cut short before its closing brace: the block on its own decodes
    to one call whose name is the empty string and whose arguments are the
    text of the empty object; in the longer output it is still a tagged
    block, but the pattern finds a single group running from the first
    opening brace to the end of the second block, [json.loads] rejects it,
    and decoding returns no call: the block is skipped. *)
Theorem object_block_lost_after_cut_block `{Json} `{Host} `{FloatRepr} :
  json_loads (str "{}") = Some (VDict []) ->
  json_loads CUT_GROUP = None ->
  forall w : world,
    Routes.delimited_block CUT_THEN_EMPTY_OBJECT (str "{}")
    /\ (exists c w',
           _parse_tool_calls EMPTY_OBJECT_ALONE w = (Ok [c], w')
           /\ tc_type c = str "function"
           /\ fn_name (tc_function c) = VStr []
           /\ fn_arguments (tc_function c) = str "{}")
    /\ finditer CUT_THEN_EMPTY_OBJECT = [CUT_GROUP]
    /\ _parse_tool_calls CUT_THEN_EMPTY_OBJECT w
       = (Ok [], snd (logger WARNING (MALFORMED_WARNING ++ CUT_GROUP) w)).
Proof.
  intros Hgood Hbad w. split; [|split; [|split]].
  - exists (jstr "<tool_call>{bad</tool_call>"), [], [], [], [].
    repeat split; vm_compute; reflexivity.
  - unfold _parse_tool_calls.
    replace (finditer EMPTY_OBJECT_ALONE) with [str "{}"]
      by (vm_compute; reflexivity).
    rewrite (parse_matches_object _ _ _ _ _ Hgood).
    eexists. eexists. repeat split; reflexivity.
  - vm_compute. reflexivity.
  - unfold _parse_tool_calls.
    replace (finditer CUT_THEN_EMPTY_OBJECT) with [CUT_GROUP]
      by (vm_compute; reflexivity).
    rewrite (parse_matches_skip _ _ _ _ Hbad). reflexivity.
Qed.

(** C10 run with the reference JSON reader. *)
Lemma object_block_lost_after_cut_block_witness :
  @_parse_tool_calls Reference.json Reference.host Reference.float_printer
    CUT_THEN_EMPTY_OBJECT Reference.fresh
  = (Ok [], snd (logger WARNING (MALFORMED_WARNING ++ CUT_GROUP)
                   Reference.fresh)).
Proof.
  refine (proj2 (proj2 (proj2 (@object_block_lost_after_cut_block
                                 Reference.json Reference.host
                                 Reference.float_printer _ _
                                 Reference.fresh)))).
  - vm_compute. reflexivity.
  - vm_compute. reflexivity.
Defined.

Section FloorFacts.

(** A float equal to zero (of either sign) is below the floor. *)
Lemma zero_below_floor (f : float) :
  PrimFloat.eqb f 0%float = true -> PrimFloat.ltb f TEMPERATURE_FLOOR = true.
Proof.
  rewrite FloatAxioms.eqb_spec, FloatAxioms.ltb_spec.
  replace (Prim2SF 0%float) with (S754_zero false) by reflexivity.
  destruct (Prim2SF f) as [s| s | |s m e]; try discriminate.
  - intros _. vm_compute. reflexivity.
  - destruct s; discriminate.
  - destruct s; discriminate.
Qed.

Lemma max_floor_not_zero (temperature v : value) :
  max_floor temperature = Ok v -> number_is_zero v = false.
Proof.
  unfold max_floor, floor_gt.
  destruct temperature as [ |b|z|f|s|l|kv]; try discriminate.
  - destruct b; intros [= <-]; reflexivity.
  - destruct (Z.leb z 0) eqn:E; intros [= <-]; [reflexivity|].
    simpl. apply Z.eqb_neq. apply Z.leb_gt in E. lia.
  - destruct (PrimFloat.ltb f TEMPERATURE_FLOOR) eqn:E; intros [= <-];
      [reflexivity|].
    simpl. destruct (PrimFloat.eqb f 0%float) eqn:Z; [|reflexivity].
    apply zero_below_floor in Z. congruence.
Qed.

Lemma max_floor_of_zero (temperature : value) :
  number_is_zero temperature = true ->
  max_floor temperature = Ok (VFloat TEMPERATURE_FLOOR).
Proof.
  unfold max_floor, floor_gt.
  destruct temperature as [ |b|z|f|s|l|kv]; simpl; try discriminate.
  - intros ->. reflexivity.
  - intros E. apply Z.eqb_eq in E. subst z. reflexivity.
  - intros E. now rewrite (zero_below_floor _ E).
Qed.

End FloorFacts.

Section GenerateFacts.
Context `{Json} `{Host} `{FloatRepr} `{Tokenizer} `{SamplingClient}.
Variable model_name : pystr.

(** Decoding sends nothing to the sampling service. *)
Lemma parse_matches_sent (gs : list pystr) (acc : list tool_call)
    (w w' : world) (r : result (list tool_call)) :
  parse_matches gs acc w = (r, w') -> sent w' = sent w.
Proof.
  revert acc w; induction gs as [|g gs IH]; intros acc w.
  - intros [= _ <-]. reflexivity.
  - destruct (json_loads g) as [call|] eqn:E.
    + destruct call;
        try (cbn [parse_matches]; rewrite E; intros [= _ <-]; reflexivity).
      rewrite (parse_matches_object _ _ _ _ _ E).
      intros E'. apply IH in E'. exact E'.
    + rewrite (parse_matches_skip _ _ _ _ E).
      intros E'. apply IH in E'. exact E'.
Qed.

(** What [generate] returns when every collaborator answers. *)
Lemma generate_run (messages temperature max_tokens stop tools : value)
    (w w2 : world) (prompt_text : pystr) (prompt_tokens : list token)
    (effective : value) (output_tokens : list token)
    (completion_text : pystr) (calls : list tool_call) :
  apply_chat_template messages (if truthy tools then Some tools else None)
  = Ok prompt_text ->
  encode (VStr prompt_text) true = Ok prompt_tokens ->
  max_floor temperature = Ok effective ->
  sample prompt_tokens (sampling_params max_tokens effective stop)
  = Ok output_tokens ->
  decode output_tokens = Ok completion_text ->
  (if truthy tools then _parse_tool_calls completion_text else ret [])
    (snd (sample_remote prompt_tokens
            (sampling_params max_tokens effective stop) w))
  = (Ok calls, w2) ->
  generate model_name messages temperature max_tokens stop tools w
  = (Ok (make_completion model_name (uuid4_hex (draws w2))
           (assistant_message completion_text calls)
           prompt_tokens output_tokens),
     snd (uuid4 w2)).
Proof.
  intros Ht He Hm Hs Hd Hp.
  unfold generate, bind, lift. rewrite Ht, He, Hm.
  unfold sample_remote at 1. rewrite Hs, Hd.
  unfold sample_remote in Hp. cbn [snd] in Hp. rewrite Hp.
  reflexivity.
Qed.

(** Every sampling request [generate] sends carries the floored
    temperature. *)
Lemma generate_sent (messages temperature max_tokens stop tools : value)
    (w w' : world) (r : result completion) :
  generate model_name messages temperature max_tokens stop tools w = (r, w')
  ->
  sent w' = sent w
  \/ exists prompt_tokens effective,
       max_floor temperature = Ok effective
       /\ sent w' = sent w ++ [(prompt_tokens,
                                sampling_params max_tokens effective stop)].
Proof.
  unfold generate, bind, lift.
  destruct (apply_chat_template _ _) as [pt|e]; [|intros [= _ <-]; now left].
  destruct (encode _ _) as [ptoks|e]; [|intros [= _ <-]; now left].
  destruct (max_floor temperature) as [eff|e] eqn:Em;
    [|intros [= _ <-]; now left].
  intros E. right. exists ptoks, eff. split; [reflexivity|]. revert E.
  unfold sample_remote.
  destruct (sample _ _) as [out|e]; [|intros [= _ <-]; reflexivity].
  destruct (decode out) as [text|e]; [|intros [= _ <-]; reflexivity].
  match goal with
  | |- context [(if truthy tools then ?a else ?b) ?w1] =>
      destruct ((if truthy tools then a else b) w1) as [[calls|e] w2] eqn:Ep
  end.
  - intros [= _ <-]. cbn [uuid4 snd sent].
    destruct (truthy tools).
    + apply parse_matches_sent in Ep. exact Ep.
    + injection Ep as _ <-. reflexivity.
  - intros [= _ <-].
    destruct (truthy tools).
    + apply parse_matches_sent in Ep. exact Ep.
    + discriminate.
Qed.

End GenerateFacts.



(** C5 as stated fails: the text before the first tagged block ends with a
    space and a newline, the content of the answer does not; and when the
    tools supplied are an empty list the blocks are not looked at. *)
Lemma content_is_not_the_preceding_text :
  before_first TOOL_CALL_OPEN CHATTY_OUTPUT = str "hi " ++ [10%N]
  /\ (exists c w',
         @generate Reference.json Reference.host Reference.float_printer
           Reference.tokenizer (Reference.canned CHATTY_OUTPUT)
           (str "model") (VList []) (VFloat 1%float) (VInt 64) VNone
           SOME_TOOLS Reference.fresh = (Ok c, w')
         /\ map finish_reason (choices c) = [str "tool_calls"]
         /\ map (fun ch => content (choice_message ch)) (choices c)
            = [Some (str "hi")]
         /\ Some (str "hi")
            <> Some (before_first TOOL_CALL_OPEN CHATTY_OUTPUT))
  /\ (exists c w',
         @generate Reference.json Reference.host Reference.float_printer
           Reference.tokenizer (Reference.canned CHATTY_OUTPUT)
           (str "model") (VList []) (VFloat 1%float) (VInt 64) VNone
           (VList []) Reference.fresh = (Ok c, w')
         /\ map finish_reason (choices c) = [str "stop"]).
Proof.
  split; [vm_compute; reflexivity|]. split.
  - eexists. eexists. split; [vm_compute; reflexivity|].
    split; [vm_compute; reflexivity|].
    split; [vm_compute; reflexivity|].
    vm_compute. discriminate.
  - eexists. eexists. split; [vm_compute; reflexivity|].
    vm_compute. reflexivity.
Qed.

Section AnswerFacts.
Context `{Json} `{Host} `{FloatRepr} `{Tokenizer} `{SamplingClient}.
Variable model_name : pystr.

(** The answer in terms of what decoding returns.  With a non-empty
    [tools] and collaborators that answer: if decoding yields at least one
    call, the finish reason is tool_calls, [tool_calls] holds the calls and
    the content is the text before the first opening tag with surrounding
    whitespace stripped, or null when nothing remains; otherwise (no
    matched group parses) the finish reason is stop, there is no
    [tool_calls] key and the content is the whole decoded text. *)
Lemma answer_follows_decoded_calls
    (messages temperature max_tokens stop tools : value)
    (w w2 : world) (prompt_text : pystr) (prompt_tokens : list token)
    (effective : value) (output_tokens : list token)
    (completion_text : pystr) (calls : list tool_call) :
  truthy tools = true ->
  apply_chat_template messages (Some tools) = Ok prompt_text ->
  encode (VStr prompt_text) true = Ok prompt_tokens ->
  max_floor temperature = Ok effective ->
  sample prompt_tokens (sampling_params max_tokens effective stop)
  = Ok output_tokens ->
  decode output_tokens = Ok completion_text ->
  _parse_tool_calls completion_text
    (snd (sample_remote prompt_tokens
            (sampling_params max_tokens effective stop) w))
  = (Ok calls, w2) ->
  exists c w3 msg reason,
    generate model_name messages temperature max_tokens stop tools w
    = (Ok c, w3)
    /\ choices c = [{| index := 0; choice_message := msg;
                       finish_reason := reason |}]
    /\ role msg = str "assistant"
    /\ (calls = [] <->
        Forall (fun g => json_loads g = None) (finditer completion_text))
    /\ match calls with
       | _ :: _ =>
           reason = str "tool_calls"
           /\ tool_calls msg = Some calls
           /\ content msg
              = match strip (before_first TOOL_CALL_OPEN completion_text) with
                | [] => None
                | c0 :: rest => Some (c0 :: rest)
                end
       | [] =>
           reason = str "stop"
           /\ tool_calls msg = None
           /\ content msg = Some completion_text
       end.
Proof.
  intros Htools Ht He Hm Hs Hd Hp.
  do 2 eexists. exists (fst (assistant_message completion_text calls)).
  exists (snd (assistant_message completion_text calls)).
  split.
  - assert (Ht' : apply_chat_template messages
                    (if truthy tools then Some tools else None)
                  = Ok prompt_text) by now rewrite Htools.
    assert (Hp' : (if truthy tools then _parse_tool_calls completion_text
                   else ret [])
                    (snd (sample_remote prompt_tokens
                            (sampling_params max_tokens effective stop) w))
                  = (Ok calls, w2)) by now rewrite Htools.
    exact (generate_run model_name _ _ _ _ _ _ _ _ _ _ _ _ _
             Ht' He Hm Hs Hd Hp').
  - split; [reflexivity|].
    split; [now destruct calls|].
    split; [exact (no_calls_iff_no_block_parses _ _ _ _ Hp)|].
    destruct calls as [|c0 calls];
      cbn [assistant_message fst snd role content tool_calls].
    + repeat split.
    + repeat split.
      destruct (strip (before_first TOOL_CALL_OPEN completion_text));
        reflexivity.
Qed.

End AnswerFacts.


Section HandlerFacts.
Context `{Json} `{Host} `{FloatRepr} `{Tokenizer} `{SamplingClient} `{Interp}.
Variable model_name : pystr.

(** C6.  The floored temperature is never zero; every sampling request a
    call of [generate] sends carries a temperature that is not zero; and a
    POST to a chat-completions path whose body asks for temperature zero is
    answered with status 200, the request sent carrying the floor 0.01,
    provided the collaborators answer. *)
Theorem temperature_never_zero :
  (forall temperature v,
      max_floor temperature = Ok v -> number_is_zero v = false)
  /\
  (forall (messages temperature max_tokens stop tools : value)
          (w w' : world) (r : result completion),
      generate model_name messages temperature max_tokens stop tools w
      = (r, w') ->
      exists new,
        sent w' = sent w ++ new
        /\ Forall (fun q => number_is_zero (sp_temperature (snd q)) = false)
             new)
  /\
  (forall (req : request) (w : world) (n : Z) (kv : list (pystr * value))
          (prompt_text : pystr) (prompt_tokens output_tokens : list token)
          (completion_text : pystr),
      let tools := get_or kv (str "tools") VNone in
      let params :=
        sampling_params (get_or kv (str "max_tokens") (VInt 4096))
          (VFloat TEMPERATURE_FLOOR) (get_or kv (str "stop") VNone) in
      existsb (pystr_eqb (path req)) CHAT_PATHS = true ->
      py_int (content_length req) = Ok n ->
      json_loads_bytes (rfile_read req n) = Some (VDict kv) ->
      number_is_zero (get_or kv (str "temperature") (VFloat 0%float)) = true ->
      apply_chat_template (get_or kv (str "messages") (VList []))
        (if truthy tools then Some tools else None) = Ok prompt_text ->
      encode (VStr prompt_text) true = Ok prompt_tokens ->
      sample prompt_tokens params = Ok output_tokens ->
      decode output_tokens = Ok completion_text ->
      Forall (fun g => forall v, json_loads g = Some v ->
                                 exists kv', v = VDict kv')
        (finditer completion_text) ->
      exists resp w',
        do_POST model_name req w = (Ok resp, w')
        /\ status resp = 200%Z
        /\ sent w' = sent w ++ [(prompt_tokens, params)]).
Proof.
  split; [exact max_floor_not_zero|split].
  - intros messages temperature max_tokens stop tools w w' r E.
    apply generate_sent in E as [E|(ptoks & eff & Hm & E)].
    + exists []. rewrite app_nil_r. split; [exact E|constructor].
    + eexists. split; [exact E|]. constructor; [|constructor].
      cbn [snd sampling_params sp_temperature].
      exact (max_floor_not_zero _ _ Hm).
  - intros req w n kv prompt_text prompt_tokens output_tokens completion_text
      tools params Hpath Hlen Hbody Hzero Ht He Hs Hd Hgroups.
    pose (w1 := snd (sample_remote prompt_tokens params w)).
    assert (Hparse : exists calls w2,
               (if truthy tools then _parse_tool_calls completion_text
                else ret []) w1 = (Ok calls, w2) /\ sent w2 = sent w1).
    { destruct (truthy tools).
      - destruct (parse_matches_returns _ [] w1 Hgroups) as (r & w2 & E).
        exists r, w2. split; [exact E|].
        exact (parse_matches_sent _ _ _ _ _ E).
      - exists [], w1. split; reflexivity. }
    destruct Hparse as (calls & w2 & Hp & Hsent).
    pose proof (generate_run model_name _ _ _ _ _ w w2 _ _ _ _ _ _
                  Ht He (max_floor_of_zero _ Hzero) Hs Hd Hp) as Hrun.
    unfold do_POST. rewrite Hpath. unfold bind at 1, lift at 1. rewrite Hlen.
    unfold bind at 1, lift at 1, loads_body. rewrite Hbody.
    unfold try_except, respond, bind, lift, py_get.
    fold tools. rewrite Hrun. eexists. eexists. split; [reflexivity|].
    split; [reflexivity|].
    cbn [uuid4 snd sent]. rewrite Hsent. reflexivity.
Qed.

End HandlerFacts.



(** C6 on a request with temperature 0. *)
Lemma temperature_never_zero_witness :
  exists resp w',
    @do_POST Reference.json Reference.host Reference.float_printer
      Reference.tokenizer (Reference.canned (str "ok")) Reference.interp
      (str "model") ZERO_TEMPERATURE_REQUEST Reference.fresh = (Ok resp, w')
    /\ status resp = 200%Z
    /\ map (fun q => sp_temperature (snd q)) (sent w')
       = [VFloat TEMPERATURE_FLOOR].
Proof.
  destruct (proj2 (proj2 (@temperature_never_zero Reference.json
              Reference.host Reference.float_printer Reference.tokenizer
              (Reference.canned (str "ok")) Reference.interp (str "model")))
              ZERO_TEMPERATURE_REQUEST Reference.fresh 35%Z
              [(str "messages", VList []); (str "temperature", VInt 0)]
              (str "<prompt>") ([1%Z] ++ map Z.of_N (str "<prompt>"))
              (map Z.of_N (str "ok")) (str "ok"))
    as (resp & w' & Hrun & Hstatus & Hsent);
    try (vm_compute; reflexivity).
  - constructor.
  - exists resp, w'. split; [exact Hrun|]. split; [exact Hstatus|].
    rewrite Hsent. reflexivity.
Defined.

Section PropagationFacts.
Context `{Json} `{Host} `{FloatRepr} `{Tokenizer} `{SamplingClient} `{Interp}.
Variable model_name : pystr.

(** C9.  On a chat-completions path, a missing or non-integer
    Content-Length and a body that is not JSON raise out of [do_POST] with
    the state untouched: nothing is logged and no response is built.  A
    status-500 response arises only from an exception raised inside the
    guarded region, after the body has been parsed. *)
Theorem body_errors_propagate (req : request) (w : world) :
  existsb (pystr_eqb (path req)) CHAT_PATHS = true ->
  (content_length req = None ->
   do_POST model_name req w = (Raised TypeError, w))
  /\ (forall s, content_length req = Some s -> int_of_str s = None ->
      do_POST model_name req w = (Raised ValueError, w))
  /\ (forall n, py_int (content_length req) = Ok n ->
      json_loads_bytes (rfile_read req n) = None ->
      do_POST model_name req w = (Raised JSONDecodeError, w))
  /\ (forall resp w',
      do_POST model_name req w = (Ok resp, w') ->
      status resp = 500%Z ->
      exists n payload e w1,
        py_int (content_length req) = Ok n
        /\ json_loads_bytes (rfile_read req n) = Some payload
        /\ respond model_name req payload w = (Raised e, w1)
        /\ report req e w1 = (Ok resp, w')).
Proof.
  intros Hpath. unfold do_POST. rewrite Hpath. repeat split.
  - intros E. unfold bind, lift, py_int. now rewrite E.
  - intros s E Hs. unfold bind, lift, py_int. now rewrite E, Hs.
  - intros n E Hb. unfold bind, lift. rewrite E.
    unfold loads_body. now rewrite Hb.
  - intros resp w'. unfold bind at 1, lift at 1.
    destruct (py_int (content_length req)) as [n|e]; [|discriminate].
    unfold bind at 1, lift at 1, loads_body.
    destruct (json_loads_bytes (rfile_read req n)) as [payload|] eqn:Hb;
      [|discriminate].
    unfold try_except.
    destruct (respond model_name req payload w) as [[ok|e] w1] eqn:Hr.
    + intros [= <- <-] Hs. exfalso. revert Hr. unfold respond, bind, lift.
      repeat match goal with
             | |- context [py_get ?d ?k ?v] => destruct (py_get d k v)
             end; try discriminate.
      match goal with
      | |- context [generate ?m ?a ?b ?c ?d ?e ?w] =>
          destruct (generate m a b c d e w) as [[g|e0] w0]
      end; [|discriminate].
      intros [= <- _]. discriminate.
    + intros E _. exists n, payload, e, w1. auto.
Qed.

End PropagationFacts.

(** C9 on a body cut in the middle of a key. *)
Lemma body_errors_propagate_witness :
  @do_POST Reference.json Reference.host Reference.float_printer
    Reference.tokenizer (Reference.canned (str "ok")) Reference.interp
    (str "model") BROKEN_REQUEST Reference.fresh
  = (Raised JSONDecodeError, Reference.fresh).
Proof.
  refine (proj1 (proj2 (proj2 (@body_errors_propagate Reference.json
            Reference.host Reference.float_printer Reference.tokenizer
            (Reference.canned (str "ok")) Reference.interp (str "model")
            BROKEN_REQUEST Reference.fresh _))) 9%Z _ _);
    vm_compute; reflexivity.
Defined.

End ProxyFacts.

(* ===================================================================== *)
(** * Properties of the trainer                                           *)
(* ===================================================================== *)

Module GrpoFacts.
Import Py Grpo Cases.

Section AdvantageFacts.
Context {R : Type} {num : Number R}.

Lemma group_advantages_map (group : list (rollout R)) :
  group_advantages group
  = map (fun x => sub (reward x) (mean_reward (map (@reward R) group))) group.
Proof. unfold group_advantages. now rewrite map_map. Qed.



End AdvantageFacts.

Section ExactFacts.
Local Open Scope Qc_scope.


Lemma fold_left_Qcplus (l : list Qc) (a : Qc) :
  fold_left Qcplus l a = a + exact_sum l.
Proof.
  unfold exact_sum. revert a; induction l as [|x l IH]; intros a; simpl.
  - ring.
  - rewrite IH, (IH (Q2Qc 0 + x)). ring.
Qed.


Lemma exact_of_len_S (n : nat) : exact_of_len (S n) = exact_of_len n + 1.
Proof.
  unfold exact_of_len. apply Qc_is_canon.
  unfold Qcplus. cbn [this Q2Qc].
  rewrite !Qred_correct, Nat2Z.inj_succ. unfold Z.succ.
  rewrite inject_Z_plus. reflexivity.
Qed.

Lemma exact_of_len_pos (n : nat) : exact_of_len (S n) <> Q2Qc 0.
Proof.
  unfold exact_of_len. intros E. apply Q2Qc_eq_iff in E.
  unfold Qeq, inject_Z in E. cbn [Qnum Qden] in E. lia.
Qed.



Lemma exact_sum_constant (l : list Qc) (r : Qc) :
  Forall (fun x => x = r) l ->
  exact_sum l = exact_of_len (List.length l) * r.
Proof.
  intros Hall; induction Hall as [|x l -> _ IH].
  - unfold exact_sum, exact_of_len. cbn. apply Qc_is_canon. reflexivity.
  - unfold exact_sum in *. cbn [fold_left List.length].
    rewrite fold_left_Qcplus. unfold exact_sum. rewrite IH, exact_of_len_S.
    change (Q2Qc 0) with 0. ring.
Qed.

(** In exact arithmetic a group of identical rewards carries no signal. *)
Lemma exact_identical_rewards_no_signal (group : list (rollout Qc))
    (r : Qc) :
  Forall (fun x => reward x = r) group ->
  @no_signal Qc Exact (@group_advantages Qc Exact group) = true.
Proof.
  intros Hall. unfold no_signal. apply forallb_forall. intros a Ha.
  unfold group_advantages in Ha. apply in_map_iff in Ha as (x & <- & Hx).
  apply in_map_iff in Hx as (y & <- & Hy).
  assert (Hr : Forall (fun x => x = r) (map (@reward Qc) group)).
  { apply Forall_map. exact Hall. }
  rewrite Forall_forall in Hall. rewrite (Hall _ Hy).
  unfold mean_reward.
  destruct (map (@reward Qc) group) as [|x0 l] eqn:El.
  - destruct group; [destruct Hy|discriminate].
  - change (@truediv Qc Exact) with Qcdiv.
    change (@py_sum Qc Exact) with exact_sum.
    change (@of_len Qc Exact) with exact_of_len.
    change (@sub Qc Exact) with Qcminus.
    change (@eq_zero Qc Exact) with (fun a => Qc_eq_bool a (Q2Qc 0)).
    cbv beta. rewrite (exact_sum_constant _ _ Hr).
    unfold Qc_eq_bool.
    destruct (Qc_eq_dec _ _) as [_|Hne]; [reflexivity|]. exfalso. apply Hne.
    pose proof (exact_of_len_pos (List.length l)) as Hpos.
    cbn [List.length]. change (Q2Qc 0) with 0 in *. field. exact Hpos.
Qed.

End ExactFacts.

Section FloatFacts.


End FloatFacts.



Section BinaryRewardFacts.

Lemma binary_rewards_complete (l : list float) :
  Forall (fun x => x = 0%float \/ x = 1%float) l ->
  In l (binary_rewards (List.length l)).
Proof.
  intros Hall; induction Hall as [|x l Hx _ IH]; [now left|].
  cbn [List.length binary_rewards]. apply in_or_app.
  destruct Hx as [-> | ->]; [left|right]; now apply in_map.
Qed.

(** The advantages depend on the rewards only. *)
Lemma group_advantages_of_rewards {R : Type} {num : Number R}
    (g1 g2 : list (rollout R)) :
  map (@reward R) g1 = map (@reward R) g2 ->
  group_advantages g1 = group_advantages g2.
Proof. unfold group_advantages. now intros ->. Qed.

Lemma group_advantages_solved {R : Type} {num : Number R}
    (group : list (rollout R)) :
  group_advantages group
  = group_advantages (map (Reference.solved (R:=R)) (map (@reward R) group)).
Proof.
  apply group_advantages_of_rewards.
  rewrite map_map. cbn [reward Reference.solved]. now rewrite map_id.
Qed.



(** In binary64, a group of up to ten rollouts that all scored 0.0, or all
    scored 1.0, carries no signal. *)
Lemma uniform_binary_group_no_signal (num : Number float)
    (group : list (rollout float)) (x : float) :
  num = Binary64 \/ num = Binary64Compensated ->
  x = 0%float \/ x = 1%float ->
  (1 <= List.length group <= DEFAULT_GROUP_SIZE)%nat ->
  Forall (fun r => reward r = x) group ->
  @no_signal float num (@group_advantages float num group) = true.
Proof.
  intros Hnum Hx Hlen Hall.
  assert (Hrep : map (@reward float) group = repeat x (List.length group)).
  { clear Hlen. induction Hall as [|r g Hr _ IH]; [reflexivity|].
    cbn [map List.length repeat]. now rewrite Hr, IH. }
  rewrite (group_advantages_solved group), Hrep.
  change (rewards_without_signal num (repeat x (List.length group)) = true).
  assert (Hcheck : forallb (fun n => rewards_without_signal num (repeat x n))
                     (seq 1 DEFAULT_GROUP_SIZE) = true).
  { destruct Hnum as [-> | ->], Hx as [-> | ->]; vm_compute; reflexivity. }
  rewrite forallb_forall in Hcheck. apply Hcheck.
  apply in_seq. unfold DEFAULT_GROUP_SIZE in *. lia.
Qed.

End BinaryRewardFacts.




(** C2.  Three rollouts with the same reward 0.1: the binary64 mean is
    0.10000000000000002, every advantage is -2^-56 rather than zero, the
    group is kept and yields three datums, under the plain and under the
    compensated sum alike. *)
Theorem identical_rewards_leave_data :
  @group_advantages float Binary64 TENTHS_GROUP
  = [(-0x1p-56)%float; (-0x1p-56)%float; (-0x1p-56)%float]
  /\ @group_advantages float Binary64Compensated TENTHS_GROUP
     = [(-0x1p-56)%float; (-0x1p-56)%float; (-0x1p-56)%float]
  /\ (exists d1 d2 d3,
         @trajectories_to_training_data float Binary64 Reference.json
           Reference.tokenizer Reference.formatter [TENTHS_GROUP]
         = Ok [d1; d2; d3])
  /\ (exists d1 d2 d3,
         @trajectories_to_training_data float Binary64Compensated
           Reference.json Reference.tokenizer Reference.formatter
           [TENTHS_GROUP]
         = Ok [d1; d2; d3]).
Proof.
  split; [vm_compute; reflexivity|].
  split; [vm_compute; reflexivity|].
  split; do 3 eexists; vm_compute; reflexivity.
Qed.

Section DatumFacts.
Context {R : Type} {num : Number R} `{Json} `{Tokenizer} `{Format}.

(** What a datum is made of, when the loop body appends one: the
    trajectory is a JSON object, its patch is non-empty, and the tokens are
    the tokenizer's for the prompt and for the patch. *)
Lemma rollout_datum_shape (r : rollout R) (a : R) (d : datum R) :
  rollout_datum r a = Ok (Some d) ->
  exists (kv : list (pystr * value)) (prompt completion : list token),
    json_loads (trajectory_json r) = Some (VDict kv)
    /\ truthy (get_or kv (str "output_patch") (VStr [])) = true
    /\ encode (VStr (PROMPT_HEAD
                     ++ format_value
                          (get_or kv (str "problem_statement") (VStr []))))
         true = Ok prompt
    /\ encode (get_or kv (str "output_patch") (VStr [])) false = Ok completion
    /\ d = {| model_input := prompt ++ completion;
              target_tokens := tl (prompt ++ completion) ++ [eos_token_id];
              weights := repeat zero (List.length prompt)
                         ++ repeat a (List.length completion) |}.
Proof.
  unfold rollout_datum.
  destruct (json_loads (trajectory_json r)) as [traj|]; [|discriminate].
  destruct traj as [| | | | | |kv]; try discriminate.
  cbn [py_get rbind].
  set (ps := get_or kv (str "problem_statement") (VStr [])).
  set (op := get_or kv (str "output_patch") (VStr [])).
  destruct (truthy op) eqn:Hop.
  - rewrite Hop. cbn [negb].
    destruct (encode (VStr (PROMPT_HEAD ++ format_value ps)) true)
      as [prompt|e] eqn:Ep; [|discriminate].
    destruct (encode op false) as [completion|e] eqn:Ec; [|discriminate].
    cbn [rbind]. intros [= <-].
    exists kv, prompt, completion. auto.
  - cbn [truthy negb]. discriminate.
Qed.

(** Everything in the result of the inner loop was there before or was
    built from one of the pairs. *)
Lemma group_data_In (pairs : list (rollout R * R))
    (data0 data : list (datum R)) (d : datum R) :
  group_data pairs data0 = Ok data -> In d data ->
  In d data0
  \/ exists r a, In (r, a) pairs /\ rollout_datum r a = Ok (Some d).
Proof.
  revert data0; induction pairs as [|[r a] pairs IH]; intros data0.
  - intros [= <-]. auto.
  - cbn [group_data].
    destruct (rollout_datum r a) as [[d'|]|e] eqn:Er; cbn [rbind];
      [| |discriminate].
    + intros E Hin. destruct (IH _ E Hin) as [Hold|(r' & a' & Hp & Hd)].
      * apply in_app_or in Hold as [Hold|[<-|[]]]; [now left|].
        right. exists r, a. split; [now left|exact Er].
      * right. exists r', a'. split; [now right|exact Hd].
    + intros E Hin. destruct (IH _ E Hin) as [Hold|(r' & a' & Hp & Hd)].
      * now left.
      * right. exists r', a'. split; [now right|exact Hd].
Qed.

Lemma groups_data_In (groups : list (list (rollout R)))
    (data0 data : list (datum R)) (d : datum R) :
  groups_data groups data0 = Ok data -> In d data ->
  In d data0
  \/ exists group r a,
       In group groups
       /\ no_signal (group_advantages group) = false
       /\ In (r, a) (combine group (group_advantages group))
       /\ rollout_datum r a = Ok (Some d).
Proof.
  revert data0; induction groups as [|group groups IH]; intros data0.
  - intros [= <-]. auto.
  - cbn [groups_data].
    assert (Hrest : forall data1, groups_data groups data1 = Ok data ->
              In d data ->
              In d data1
              \/ exists g r a,
                   In g (group :: groups)
                   /\ no_signal (group_advantages g) = false
                   /\ In (r, a) (combine g (group_advantages g))
                   /\ rollout_datum r a = Ok (Some d)).
    { intros data1 E Hin.
      destruct (IH _ E Hin) as [Hold|(g & r & a & Hg & Hrest)];
        [now left|].
      right. exists g, r, a. split; [now right|exact Hrest]. }
    destruct group as [|x group]; [apply Hrest|].
    destruct (no_signal (group_advantages (x :: group))) eqn:Hsig;
      [apply Hrest|].
    destruct (group_data _ data0) as [data1|e] eqn:Eg; cbn [rbind];
      [|discriminate].
    intros E Hin. destruct (Hrest _ E Hin) as [Hold|Hnew]; [|now right].
    destruct (group_data_In _ _ _ _ Eg Hold) as [Hold0|(r & a & Hp & Hd)];
      [now left|].
    right. exists (x :: group), r, a. split; [now left|]. auto.
Qed.

(** C3.  Provided the tokenizer returns at least one token for the
    prompt, every datum built comes from one rollout [r] of one group: the
    rollout's trajectory is a JSON object with a non-empty patch, [prompt]
    is what the tokenizer returns for the prompt text with special tokens,
    [completion] what it returns for the patch without them, and [a] is the
    rollout's reward minus the mean reward of its group.  The datum's input
    is [prompt ++ completion]; its weights are 0.0 at each position of the
    prompt and [a] at each position of the completion; its targets are the
    input without its first token followed by the end-of-sequence token;
    and the three sequences have the same length. *)
Theorem datum_shape :
  (forall problem prompt,
      encode (VStr (PROMPT_HEAD ++ problem)) true = Ok prompt ->
      prompt <> []) ->
  forall (groups : list (list (rollout R))) (data : list (datum R))
         (d : datum R),
    trajectories_to_training_data groups = Ok data ->
    In d data ->
    exists group r a kv prompt completion,
      In group groups
      /\ In (r, a) (combine group (group_advantages group))
      /\ a = sub (reward r) (mean_reward (map (@reward R) group))
      /\ json_loads (trajectory_json r) = Some (VDict kv)
      /\ truthy (get_or kv (str "output_patch") (VStr [])) = true
      /\ encode (VStr (PROMPT_HEAD
                       ++ format_value
                            (get_or kv (str "problem_statement") (VStr []))))
           true = Ok prompt
      /\ encode (get_or kv (str "output_patch") (VStr [])) false
         = Ok completion
      /\ model_input d = prompt ++ completion
      /\ weights d = repeat zero (List.length prompt)
                     ++ repeat a (List.length completion)
      /\ (forall i, (i < List.length prompt)%nat ->
                    nth_error (weights d) i = Some zero)
      /\ (forall i, (i < List.length completion)%nat ->
                    nth_error (weights d) (List.length prompt + i) = Some a)
      /\ target_tokens d = tl (model_input d) ++ [eos_token_id]
      /\ (forall i, (S i < List.length (model_input d))%nat ->
                    nth_error (target_tokens d) i
                    = nth_error (model_input d) (S i))
      /\ List.length (weights d) = List.length (model_input d)
      /\ List.length (target_tokens d) = List.length (model_input d).
Proof.
  intros Hprompt groups data d E Hin.
  destruct (groups_data_In _ _ _ _ E Hin)
    as [[]|(group & r & a & Hg & _ & Hp & Hd)].
  apply rollout_datum_shape in Hd
    as (kv & prompt & completion & Ej & Hop & Ep & Ec & ->).
  exists group, r, a, kv, prompt, completion.
  cbn [model_input weights target_tokens].
  assert (Ha : a = sub (reward r) (mean_reward (map (@reward R) group))).
  { unfold group_advantages in Hp. revert Hp. clear.
    generalize (mean_reward (map (@reward R) group)). intros m.
    induction group as [|x group IH]; [intros []|].
    cbn [map combine]. intros [[= <- <-]|Hp]; [reflexivity|auto]. }
  apply Hprompt in Ep as Hne.
  repeat split; auto.
  - intros i Hi. rewrite nth_error_app1 by now rewrite repeat_length.
    now apply nth_error_repeat.
  - intros i Hi. rewrite nth_error_app2 by (rewrite repeat_length; lia).
    rewrite repeat_length.
    replace (List.length prompt + i - List.length prompt)%nat with i by lia.
    now apply nth_error_repeat.
  - intros i Hi. destruct prompt as [|t prompt]; [congruence|].
    cbn [app tl nth_error]. cbn [app List.length] in Hi.
    apply nth_error_app1. lia.
  - now rewrite !length_app, !repeat_length.
  - destruct prompt as [|t prompt]; [congruence|].
    cbn [app tl]. rewrite length_app. cbn [List.length]. lia.
Qed.

End DatumFacts.


(** C3 on a group with rewards 1 and 0: two datums, and each one is the
    prompt and patch tokens of a rollout of the group, weighted 0.0 and by
    that rollout's advantage. *)
Lemma datum_shape_witness :
  exists data,
    @trajectories_to_training_data float Binary64 Reference.json
      Reference.tokenizer Reference.formatter [MIXED_GROUP] = Ok data
    /\ List.length data = 2%nat
    /\ Forall (fun d =>
                 exists r a prompt completion,
                   In r MIXED_GROUP
                   /\ a = PrimFloat.sub (reward r)
                            (@mean_reward float Binary64
                               (map (@reward float) MIXED_GROUP))
                   /\ model_input d = prompt ++ completion
                   /\ weights d
                      = repeat 0%float (List.length prompt)
                        ++ repeat a (List.length completion)
                   /\ target_tokens d
                      = tl (model_input d)
                        ++ [@eos_token_id Reference.tokenizer]
                   /\ List.length (weights d) = List.length (model_input d)
                   /\ List.length (target_tokens d)
                      = List.length (model_input d)) data.
Proof.
  assert (Htok : forall problem prompt,
             @encode Reference.tokenizer (VStr (PROMPT_HEAD ++ problem)) true
             = Ok prompt -> prompt <> []).
  { intros problem prompt E. cbn in E. injection E as <-. discriminate. }
  eexists. split; [vm_compute; reflexivity|]. split; [reflexivity|].
  apply Forall_forall. intros d Hin.
  destruct (@datum_shape float Binary64 Reference.json Reference.tokenizer
              Reference.formatter Htok [MIXED_GROUP] _ d eq_refl Hin)
    as (group & r & a & kv & prompt & completion & Hg & Hp & Ha & _ & _ & _
        & _ & Hi & Hw & _ & _ & Ht & _ & Hlw & Hlt).
  destruct Hg as [<-|[]].
  exists r, a, prompt, completion.
  repeat split; try assumption.
  clear - Hp. apply in_combine_l in Hp. exact Hp.
Defined.

Section NoSignalFacts.
Context {R : Type} {num : Number R} `{Json} `{Tokenizer} `{Format}.

(** Groups that are empty or carry no signal add nothing. *)
Lemma groups_data_no_signal (groups : list (list (rollout R)))
    (data : list (datum R)) :
  Forall (fun g => no_signal (group_advantages g) = true) groups ->
  groups_data groups data = Ok data.
Proof.
  intros Hall; induction Hall as [|g groups Hg _ IH]; [reflexivity|].
  cbn [groups_data]. destruct g as [|x g]; [exact IH|].
  now rewrite Hg.
Qed.

End NoSignalFacts.


(** C8.  On an empty batch [train_step] returns loss 0.0 and zero samples
    and sends nothing to the training service; and when every group is
    empty or without signal the batch is empty, so the step is that
    no-op. *)
Theorem empty_batch_is_noop :
  (forall (R : Type) (client : TrainingClient R) (lr : float)
          (sent : list (client_request R)),
      train_step [] lr sent
      = (Ok {| loss := 0%float; num_samples := 0 |}, sent))
  /\
  (forall (R : Type) (num : Number R) (json : Json) (tok : Tokenizer)
          (fmt : Format) (client : TrainingClient R)
          (groups : list (list (rollout R))) (lr : float)
          (sent : list (client_request R)),
      Forall (fun g => g = [] \/ no_signal (group_advantages g) = true)
        groups ->
      exists data,
        trajectories_to_training_data groups = Ok data
        /\ train_step data lr sent
           = (Ok {| loss := 0%float; num_samples := 0 |}, sent)).
Proof.
  split; [reflexivity|].
  intros R num json tok fmt client groups lr sent Hall.
  exists []. split; [|reflexivity].
  apply groups_data_no_signal.
  apply Forall_impl with (2 := Hall).
  intros g [->|Hg]; [reflexivity|exact Hg].
Qed.

(** C8 on an empty group and a group of two failures. *)
Lemma empty_batch_is_noop_witness :
  exists data,
    @trajectories_to_training_data float Binary64 Reference.json
      Reference.tokenizer Reference.formatter [[]; ZERO_GROUP] = Ok data
    /\ @train_step float (Reference.trainer float) data 2e-5%float []
       = (Ok {| loss := 0%float; num_samples := 0 |}, []).
Proof.
  apply (proj2 empty_batch_is_noop float Binary64 Reference.json
           Reference.tokenizer Reference.formatter (Reference.trainer float)).
  constructor; [now left|].
  constructor; [right; vm_compute; reflexivity|constructor].
Defined.

End GrpoFacts.

(* ===================================================================== *)
(** * Further properties of the proxy: finding and decoding blocks        *)
(* ===================================================================== *)

Module ExtractionFacts.
Import Py Proxy Routes Cases Fixtures ProxyFacts.

Section TextFacts.

Lemma strip_prefix_app (p t rest : pystr) :
  strip_prefix p t = Some rest <-> t = p ++ rest.
Proof.
  revert t; induction p as [|a p IH]; intros t; cbn [strip_prefix app].
  - split; [now intros [= ->]|now intros ->].
  - destruct t as [|b t]; [split; discriminate|].
    destruct (N.eqb a b) eqn:E.
    + apply N.eqb_eq in E. subst b. rewrite IH. split; [now intros ->|].
      now intros [= ->].
    + apply N.eqb_neq in E. split; [discriminate|]. intros [= Hb _].
      congruence.
Qed.

(** [lstrip] removes a run of whitespace and stops at the first character
    that is not whitespace. *)
Lemma lstrip_split (s : pystr) :
  exists ws, s = ws ++ lstrip s
             /\ forallb isspace ws = true
             /\ match lstrip s with
                | c :: _ => isspace c = false
                | [] => True
                end.
Proof.
  induction s as [|c s (ws & Hs & Hws & Hhd)]; [now exists []|].
  cbn [lstrip]. destruct (isspace c) eqn:Ec.
  - exists (c :: ws). cbn [app forallb]. rewrite Ec, Hws. split; [|auto].
    now f_equal.
  - exists []. auto.
Qed.

Lemma lstrip_spaces (ws s : pystr) :
  forallb isspace ws = true -> lstrip (ws ++ s) = lstrip s.
Proof.
  induction ws as [|c ws IH]; [reflexivity|]. cbn [forallb app lstrip].
  intros E. apply andb_true_iff in E as [-> E]. now apply IH.
Qed.

Lemma lstrip_stop (c : pychar) (s : pystr) :
  isspace c = false -> lstrip (c :: s) = c :: s.
Proof. intros E. cbn [lstrip]. now rewrite E. Qed.

(** A pattern that lacks the character [a] cannot reach across it. *)
Lemma strip_prefix_border (pat p rest r : pystr) (a : pychar) :
  ~ In a pat ->
  strip_prefix pat (p ++ a :: rest) = Some r ->
  exists r', strip_prefix pat p = Some r'.
Proof.
  revert p; induction pat as [|b pat IH]; intros p Ha; cbn [strip_prefix].
  - intros _. now exists p.
  - destruct p as [|c p]; cbn [app].
    + destruct (N.eqb b a) eqn:E; [|discriminate].
      apply N.eqb_eq in E. subst b. elim Ha. now left.
    + destruct (N.eqb b c); [|discriminate].
      apply IH. intros Hin. apply Ha. now right.
Qed.

Lemma occurs_here (pat t r : pystr) :
  strip_prefix pat t = Some r -> occurs pat t = true.
Proof. intros E. destruct t; cbn [occurs]; now rewrite E. Qed.

Lemma occurs_tail (pat : pystr) (c : pychar) (t : pystr) :
  occurs pat (c :: t) = false -> occurs pat t = false.
Proof.
  cbn [occurs]. destruct (strip_prefix pat (c :: t)); [discriminate|auto].
Qed.

Lemma occurs_suffix (pat p t : pystr) :
  occurs pat (p ++ t) = false -> occurs pat t = false.
Proof.
  induction p as [|c p IH]; [auto|]. cbn [app]. intros E.
  apply IH. exact (occurs_tail _ _ _ E).
Qed.

Lemma strip_prefix_longer (pat t r u : pystr) :
  strip_prefix pat t = Some r -> strip_prefix pat (t ++ u) = Some (r ++ u).
Proof.
  intros E. apply strip_prefix_app in E. subst t.
  apply strip_prefix_app. now rewrite app_assoc.
Qed.

Lemma occurs_prefix (pat t u : pystr) :
  occurs pat (t ++ u) = false -> occurs pat t = false.
Proof.
  induction t as [|c t IH]; cbn [app].
  - intros E. cbn [occurs].
    destruct (strip_prefix pat []) as [r|] eqn:Ep; [|reflexivity].
    apply strip_prefix_longer with (u := u) in Ep. cbn [app] in Ep.
    apply occurs_here in Ep. congruence.
  - intros E. cbn [occurs].
    destruct (strip_prefix pat (c :: t)) as [r|] eqn:Ep.
    + apply strip_prefix_longer with (u := u) in Ep.
      apply occurs_here in Ep. cbn [app] in Ep. congruence.
    + apply IH. exact (occurs_tail _ _ _ E).
Qed.

End TextFacts.

Section Soundness.

Lemma lazy_body_sound (t seen g rest : pystr) :
  lazy_body seen t = Some (g, rest) ->
  exists u ws2,
    t = u ++ RBRACE :: ws2 ++ TOOL_CALL_CLOSE ++ rest
    /\ g = rev seen ++ u ++ [RBRACE]
    /\ forallb isspace ws2 = true.
Proof.
  revert seen; induction t as [|c t IH]; intros seen; cbn [lazy_body];
    [discriminate|].
  assert (Hrec : lazy_body (c :: seen) t = Some (g, rest) ->
                 exists u ws2,
                   c :: t = u ++ RBRACE :: ws2 ++ TOOL_CALL_CLOSE ++ rest
                   /\ g = rev seen ++ u ++ [RBRACE]
                   /\ forallb isspace ws2 = true).
  { intros E. apply IH in E as (u & ws2 & -> & -> & Hws).
    exists (c :: u), ws2. cbn [rev app]. rewrite <- !app_assoc. auto. }
  destruct (N.eqb c RBRACE) eqn:Ec; [|exact Hrec].
  destruct (strip_prefix TOOL_CALL_CLOSE (lstrip t)) as [r|] eqn:Es;
    [|exact Hrec].
  intros [= <- <-]. apply N.eqb_eq in Ec. subst c.
  apply strip_prefix_app in Es.
  destruct (lstrip_split t) as (ws & Ht & Hws & _).
  exists [], ws. cbn [app rev]. rewrite Ht at 1. rewrite Es. auto.
Qed.

Lemma match_here_sound (t g rest : pystr) :
  match_here t = Some (g, rest) ->
  exists ws1 u ws2,
    t = TOOL_CALL_OPEN ++ ws1 ++ g ++ ws2 ++ TOOL_CALL_CLOSE ++ rest
    /\ g = LBRACE :: u ++ [RBRACE]
    /\ forallb isspace ws1 = true
    /\ forallb isspace ws2 = true.
Proof.
  unfold match_here.
  destruct (strip_prefix TOOL_CALL_OPEN t) as [t1|] eqn:E1; [|discriminate].
  destruct (lstrip t1) as [|c t2] eqn:E2; [discriminate|].
  destruct (N.eqb c LBRACE) eqn:Ec; [|discriminate].
  apply N.eqb_eq in Ec. subst c. intros E.
  apply lazy_body_sound in E as (u & ws2 & -> & -> & Hws2).
  apply strip_prefix_app in E1.
  destruct (lstrip_split t1) as (ws1 & Ht1 & Hws1 & _).
  exists ws1, u, ws2. split; [|auto].
  rewrite E1, Ht1, E2. cbn [rev app]. now rewrite <- !app_assoc.
Qed.

(** X1.  Every group the tool-call pattern finds is delimited in the text:
    it lies between an opening tag and a closing tag, separated from each
    by whitespace only, and it runs from an opening brace to a closing
    brace.  Nothing else is ever handed to the JSON reader. *)
Theorem finditer_sound (text g : pystr) :
  In g (finditer text) ->
  exists pre ws1 u ws2 post,
    text = pre ++ TOOL_CALL_OPEN ++ ws1 ++ g ++ ws2 ++ TOOL_CALL_CLOSE ++ post
    /\ g = LBRACE :: u ++ [RBRACE]
    /\ forallb isspace ws1 = true
    /\ forallb isspace ws2 = true.
Proof.
  unfold finditer. generalize (S (List.length text)). intros n.
  revert text; induction n as [|n IH]; intros t; cbn [finditer_from];
    [intros []|].
  destruct (match_here t) as [[g0 rest]|] eqn:E.
  - apply match_here_sound in E as (ws1 & u & ws2 & Ht & Hg & H1 & H2).
    intros [<- | Hin].
    + exists [], ws1, u, ws2, rest. auto.
    + apply IH in Hin as (pre & ws1' & u' & ws2' & post & -> & Hrest).
      exists (TOOL_CALL_OPEN ++ ws1 ++ g0 ++ ws2 ++ TOOL_CALL_CLOSE ++ pre),
        ws1', u', ws2', post.
      split; [|exact Hrest]. rewrite Ht. now rewrite <- !app_assoc.
  - destruct t as [|c t]; [intros []|].
    intros Hin. apply IH in Hin as (pre & ws1 & u & ws2 & post & -> & Hrest).
    exists (c :: pre), ws1, u, ws2, post. auto.
Qed.

Lemma match_here_needs_tag (t : pystr) :
  strip_prefix TOOL_CALL_OPEN t = None -> match_here t = None.
Proof. unfold match_here. now intros ->. Qed.

Lemma finditer_skip (pre t : pystr) :
  occurs TOOL_CALL_OPEN pre = false ->
  (forall p, p <> [] -> (exists q, pre = q ++ p) ->
             strip_prefix TOOL_CALL_OPEN (p ++ t) = None) ->
  finditer (pre ++ t) = finditer t.
Proof.
  induction pre as [|c pre IH]; [reflexivity|]. intros Hocc Hfail.
  cbn [app]. rewrite finditer_unfold.
  rewrite match_here_needs_tag.
  - apply IH; [exact (occurs_tail _ _ _ Hocc)|].
    intros p Hp [q ->]. apply Hfail; [exact Hp|]. now exists (c :: q).
  - apply (Hfail (c :: pre)); [discriminate|]. now exists [].
Qed.

(** The opening tag starts with a character it does not repeat, so an
    occurrence cannot begin inside tag-free text and end in a tag. *)
Lemma open_tag_not_straddling (p t : pystr) :
  p <> [] -> occurs TOOL_CALL_OPEN p = false ->
  strip_prefix TOOL_CALL_OPEN (p ++ TOOL_CALL_OPEN ++ t) = None.
Proof.
  intros Hp Hocc.
  destruct (strip_prefix TOOL_CALL_OPEN (p ++ TOOL_CALL_OPEN ++ t))
    as [r|] eqn:E; [|reflexivity].
  exfalso. destruct p as [|c p]; [congruence|].
  change TOOL_CALL_OPEN with (60%N :: tl TOOL_CALL_OPEN) in E at 1.
  change (TOOL_CALL_OPEN ++ t) with (60%N :: tl TOOL_CALL_OPEN ++ t) in E.
  cbn [app strip_prefix] in E.
  destruct (N.eqb 60 c) eqn:Ec; [|discriminate].
  apply strip_prefix_border in E as [r' E'].
  - assert (Hhere : strip_prefix TOOL_CALL_OPEN (c :: p) = Some r').
    { change TOOL_CALL_OPEN with (60%N :: tl TOOL_CALL_OPEN).
      cbn [strip_prefix]. now rewrite Ec. }
    apply occurs_here in Hhere. congruence.
  - vm_compute. intuition discriminate.
Qed.

End Soundness.

(** X1 on an output with one block. *)
Lemma finditer_sound_witness :
  exists pre ws1 u ws2 post,
    VALID_ALONE
    = pre ++ TOOL_CALL_OPEN ++ ws1 ++ G_BLOCK ++ ws2 ++ TOOL_CALL_CLOSE ++ post
    /\ G_BLOCK = LBRACE :: u ++ [RBRACE]
    /\ forallb isspace ws1 = true
    /\ forallb isspace ws2 = true.
Proof.
  apply (finditer_sound VALID_ALONE G_BLOCK). vm_compute. left. reflexivity.
Defined.

Section BlockFacts.

(** Prose without an opening tag is passed over. *)
Lemma finditer_skip_prose (pre t : pystr) :
  occurs TOOL_CALL_OPEN pre = false ->
  finditer (pre ++ TOOL_CALL_OPEN ++ t) = finditer (TOOL_CALL_OPEN ++ t).
Proof.
  intros Hocc. apply finditer_skip; [exact Hocc|].
  intros p Hp [q ->]. apply open_tag_not_straddling; [exact Hp|].
  exact (occurs_suffix _ _ _ Hocc).
Qed.

(** Without an opening tag there is no match. *)
Lemma finditer_no_tag (text : pystr) :
  occurs TOOL_CALL_OPEN text = false -> finditer text = [].
Proof.
  induction text as [|c text IH]; [reflexivity|]. intros Hocc.
  rewrite finditer_unfold, match_here_needs_tag.
  - apply IH. exact (occurs_tail _ _ _ Hocc).
  - cbn [occurs] in Hocc.
    now destruct (strip_prefix TOOL_CALL_OPEN (c :: text)).
Qed.

Lemma lstrip_keeps_brace (u tail : pystr) :
  exists ws v,
    u = ws ++ v
    /\ lstrip (u ++ RBRACE :: tail) = v ++ RBRACE :: tail.
Proof.
  induction u as [|d u (ws & v & Hu & Hl)]; cbn [app lstrip].
  - exists [], []. replace (isspace RBRACE) with false by reflexivity. auto.
  - destruct (isspace d).
    + exists (d :: ws), v. cbn [app]. split; [now f_equal|exact Hl].
    + exists [], (d :: u). auto.
Qed.

(** The lazy body runs to the first closing brace that is followed by the
    closing tag: if the closing tag does not occur in the group, that is the
    group's last character. *)
Lemma lazy_body_complete (u seen ws2 rest : pystr) :
  occurs TOOL_CALL_CLOSE (u ++ [RBRACE]) = false ->
  forallb isspace ws2 = true ->
  lazy_body seen (u ++ RBRACE :: ws2 ++ TOOL_CALL_CLOSE ++ rest)
  = Some (rev seen ++ u ++ [RBRACE], rest).
Proof.
  intros Hocc Hws. revert seen Hocc; induction u as [|c u IH];
    intros seen Hocc; cbn [app lazy_body].
  - rewrite N.eqb_refl, (lstrip_spaces _ _ Hws).
    change (TOOL_CALL_CLOSE ++ rest) with (60%N :: tl TOOL_CALL_CLOSE ++ rest).
    rewrite lstrip_stop by reflexivity.
    change (60%N :: tl TOOL_CALL_CLOSE ++ rest) with (TOOL_CALL_CLOSE ++ rest).
    rewrite (proj2 (strip_prefix_app _ _ _) eq_refl). reflexivity.
  - assert (Hrec : lazy_body (c :: seen)
                     (u ++ RBRACE :: ws2 ++ TOOL_CALL_CLOSE ++ rest)
                   = Some (rev seen ++ c :: u ++ [RBRACE], rest)).
    { rewrite IH by exact (occurs_tail _ _ _ Hocc).
      cbn [rev]. now rewrite <- app_assoc. }
    destruct (N.eqb c RBRACE); [|exact Hrec].
    destruct (strip_prefix TOOL_CALL_CLOSE
                (lstrip (u ++ RBRACE :: ws2 ++ TOOL_CALL_CLOSE ++ rest)))
      as [r|] eqn:Es; [|exact Hrec].
    exfalso.
    destruct (lstrip_keeps_brace u (ws2 ++ TOOL_CALL_CLOSE ++ rest))
      as (ws & v & Hu & Hl).
    rewrite Hl in Es.
    apply strip_prefix_border in Es as [r' Es].
    + apply occurs_here in Es.
      assert (Hsub : occurs TOOL_CALL_CLOSE (v ++ [RBRACE]) = false).
      { apply occurs_suffix with (p := c :: ws).
        cbn [app]. rewrite app_assoc, <- Hu. exact Hocc. }
      apply occurs_prefix in Hsub. congruence.
    + vm_compute. intuition discriminate.
Qed.

(** The pattern matches a well-formed block in full. *)
Lemma match_here_complete (ws1 u ws2 rest : pystr) :
  forallb isspace ws1 = true ->
  forallb isspace ws2 = true ->
  occurs TOOL_CALL_CLOSE (u ++ [RBRACE]) = false ->
  match_here (TOOL_CALL_OPEN ++ ws1 ++ (LBRACE :: u ++ [RBRACE]) ++ ws2
              ++ TOOL_CALL_CLOSE ++ rest)
  = Some (LBRACE :: u ++ [RBRACE], rest).
Proof.
  intros H1 H2 Hocc. unfold match_here.
  rewrite (proj2 (strip_prefix_app _ _ _) eq_refl).
  rewrite (lstrip_spaces _ _ H1). cbn [app].
  rewrite lstrip_stop by reflexivity. rewrite N.eqb_refl.
  rewrite <- app_assoc. cbn [app].
  now rewrite (lazy_body_complete u [LBRACE] ws2 rest Hocc H2).
Qed.

(** X2.  A block that follows tag-free prose is found, and found whole:
    when the text before the first opening tag holds no opening tag, the
    tags are separated from the braces by whitespace only and no closing
    tag occurs between the braces, the first group is the text from brace
    to brace and the search goes on after the closing tag. *)
Theorem finditer_block (pre ws1 u ws2 rest : pystr) :
  occurs TOOL_CALL_OPEN pre = false ->
  forallb isspace ws1 = true ->
  forallb isspace ws2 = true ->
  occurs TOOL_CALL_CLOSE (u ++ [RBRACE]) = false ->
  finditer (pre ++ TOOL_CALL_OPEN ++ ws1 ++ (LBRACE :: u ++ [RBRACE]) ++ ws2
            ++ TOOL_CALL_CLOSE ++ rest)
  = (LBRACE :: u ++ [RBRACE]) :: finditer rest.
Proof.
  intros Hpre H1 H2 Hocc.
  rewrite (finditer_skip_prose _ _ Hpre), finditer_unfold.
  now rewrite (match_here_complete _ _ _ _ H1 H2 Hocc).
Qed.

End BlockFacts.

(** X2 on prose, a newline and one block. *)
Lemma finditer_block_witness :
  finditer (str "hi " ++ TOOL_CALL_OPEN ++ [10%N]
            ++ (LBRACE :: jstr "'name':'f'" ++ [RBRACE]) ++ []
            ++ TOOL_CALL_CLOSE ++ [])
  = (LBRACE :: jstr "'name':'f'" ++ [RBRACE]) :: finditer [].
Proof.
  apply (finditer_block (str "hi ") [10%N] (jstr "'name':'f'") [] []);
    vm_compute; reflexivity.
Defined.

Section DecodeAccounting.
Context `{Json} `{Host} `{FloatRepr}.

(** What decoding leaves behind: one uuid drawn per call, one warning per
    rejected group, nothing sent. *)
Lemma parse_matches_effects (gs : list pystr) (acc r : list tool_call)
    (w w' : world) :
  parse_matches gs acc w = (Ok r, w') ->
  exists new,
    r = acc ++ new
    /\ draws w' = (draws w + List.length new)%nat
    /\ map tc_id new
       = map (fun i => str "call_" ++ firstn 8 (uuid4_hex (draws w + i)))
           (seq 0 (List.length new))
    /\ Forall (fun c => tc_type c = str "function") new
    /\ log w'
       = log w ++ map (fun g => (WARNING, MALFORMED_WARNING ++ g))
                    (filter (fun g => match json_loads g with
                                      | None => true
                                      | Some _ => false
                                      end) gs)
    /\ sent w' = sent w.
Proof.
  revert acc w; induction gs as [|g gs IH]; intros acc w.
  - intros [= <- <-]. exists [].
    cbn [List.length seq map filter]. rewrite !app_nil_r, Nat.add_0_r.
    repeat split; auto.
  - cbn [filter]. destruct (json_loads g) as [call|] eqn:E.
    + destruct call; try (cbn [parse_matches]; rewrite E; discriminate).
      rewrite (parse_matches_object _ _ _ _ _ E). intros E'.
      apply IH in E' as (new & -> & Hd & Hid & Hty & Hlog & Hsent).
      eexists (_ :: new). rewrite <- app_assoc. split; [reflexivity|].
      cbn [uuid4 snd draws log sent] in *. cbn [List.length seq map].
      split; [lia|]. split; [|split; [|split; [exact Hlog|exact Hsent]]].
      * cbn [make_tool_call tc_id]. rewrite Nat.add_0_r. f_equal.
        rewrite Hid, <- seq_shift, map_map.
        apply map_ext. intros i. now rewrite Nat.add_succ_r.
      * constructor; [reflexivity|exact Hty].
    + rewrite (parse_matches_skip _ _ _ _ E). intros E'.
      apply IH in E' as (new & -> & Hd & Hid & Hty & Hlog & Hsent).
      exists new. cbn [logger snd draws log sent] in *.
      split; [reflexivity|]. split; [exact Hd|]. split; [exact Hid|].
      split; [exact Hty|]. split; [|exact Hsent].
      cbn [map]. rewrite Hlog, <- app_assoc. reflexivity.
Qed.

(** X4.  What decoding costs and leaves behind: one uuid is drawn per call
    returned, the ids of the calls are the first eight hexadecimal digits
    of those uuids in the order drawn, every call has type function, each
    group the JSON reader rejects adds exactly one warning (in the order of
    the text), nothing is sent to the sampling service, and every group
    found is either returned as a call or logged as rejected. *)
Theorem decode_accounting (text : pystr) (calls : list tool_call)
    (w w' : world) :
  _parse_tool_calls text w = (Ok calls, w') ->
  draws w' = (draws w + List.length calls)%nat
  /\ map tc_id calls
     = map (fun i => str "call_" ++ firstn 8 (uuid4_hex (draws w + i)))
         (seq 0 (List.length calls))
  /\ Forall (fun c => tc_type c = str "function") calls
  /\ log w'
     = log w ++ map (fun g => (WARNING, MALFORMED_WARNING ++ g))
                  (filter (fun g => match json_loads g with
                                    | None => true
                                    | Some _ => false
                                    end) (finditer text))
  /\ sent w' = sent w
  /\ (List.length calls
      + List.length (filter (fun g => match json_loads g with
                                      | None => true
                                      | Some _ => false
                                      end) (finditer text))
      = List.length (finditer text))%nat.
Proof.
  intros E. pose proof (parse_matches_count _ _ _ _ _ E) as Hcount.
  apply parse_matches_effects in E as (new & Hnew & Hd & Hid & Hty & Hlog & Hs).
  cbn [app] in Hnew. subst new.
  repeat (split; [assumption|]).
  rewrite Hcount. cbn [List.length Nat.add].
  clear. induction (finditer text) as [|g gs IH]; [reflexivity|].
  cbn [filter]. destruct (json_loads g); cbn [List.length]; lia.
Qed.

(** X3.  A text without the opening tag decodes to no call, with no uuid
    drawn and nothing logged; the answer built from it carries the whole
    text as content, no tool_calls key and the finish reason stop. *)
Theorem no_tag_no_calls (text : pystr) (w : world) :
  occurs TOOL_CALL_OPEN text = false ->
  _parse_tool_calls text w = (Ok [], w)
  /\ assistant_message text []
     = ({| role := str "assistant"; content := Some text;
           tool_calls := None |}, str "stop").
Proof.
  intros Hocc. unfold _parse_tool_calls.
  rewrite (finditer_no_tag _ Hocc). split; reflexivity.
Qed.

End DecodeAccounting.

(** X4 on a rejected block followed by a well-formed one. *)
Lemma decode_accounting_witness :
  map tc_id [make_tool_call (str "0123456789abcdef") (VStr (str "g"))
               (str "{}")]
  = [str "call_01234567"]
  /\ log {| draws := 1;
            log := [(WARNING, MALFORMED_WARNING ++ str "{bad}")];
            sent := [] |}
     = [(WARNING, MALFORMED_WARNING ++ str "{bad}")].
Proof.
  destruct (@decode_accounting Reference.json Reference.host
              Reference.float_printer MALFORMED_THEN_VALID
              [make_tool_call (str "0123456789abcdef") (VStr (str "g"))
                 (str "{}")]
              Reference.fresh
              {| draws := 1;
                 log := [(WARNING, MALFORMED_WARNING ++ str "{bad}")];
                 sent := [] |})
    as (_ & Hid & _ & Hlog & _).
  - vm_compute. reflexivity.
  - split; [exact Hid|exact Hlog].
Defined.

(** X3 on an answer in plain words. *)
Lemma no_tag_no_calls_witness :
  @_parse_tool_calls Reference.json Reference.host Reference.float_printer
    PLAIN_OUTPUT Reference.fresh = (Ok [], Reference.fresh)
  /\ assistant_message PLAIN_OUTPUT []
     = ({| role := str "assistant"; content := Some PLAIN_OUTPUT;
           tool_calls := None |}, str "stop").
Proof.
  apply (@no_tag_no_calls Reference.json Reference.host
           Reference.float_printer PLAIN_OUTPUT Reference.fresh).
  vm_compute. reflexivity.
Defined.

Section ContentFacts.

Lemma before_first_prefix (pat t : pystr) :
  exists rest, t = before_first pat t ++ rest.
Proof.
  induction t as [|c t [rest IH]]; cbn [before_first].
  - exists []. now destruct (strip_prefix pat []).
  - destruct (strip_prefix pat (c :: t)).
    + now exists (c :: t).
    + exists rest. cbn [app]. now f_equal.
Qed.

(** The text before the first opening tag holds no opening tag. *)
Lemma before_first_clean (t : pystr) :
  occurs TOOL_CALL_OPEN (before_first TOOL_CALL_OPEN t) = false.
Proof.
  induction t as [|c t IH]; cbn [before_first].
  - reflexivity.
  - destruct (strip_prefix TOOL_CALL_OPEN (c :: t)) as [r|] eqn:E;
      [reflexivity|].
    cbn [occurs].
    destruct (strip_prefix TOOL_CALL_OPEN
                (c :: before_first TOOL_CALL_OPEN t)) as [r|] eqn:E';
      [|exact IH].
    destruct (before_first_prefix TOOL_CALL_OPEN t) as [rest Hrest].
    apply strip_prefix_longer with (u := rest) in E'.
    cbn [app] in E'. rewrite <- Hrest in E'. congruence.
Qed.

Lemma before_first_pre (pre t : pystr) :
  occurs TOOL_CALL_OPEN pre = false ->
  before_first TOOL_CALL_OPEN (pre ++ TOOL_CALL_OPEN ++ t) = pre.
Proof.
  induction pre as [|c pre IH]; intros Hocc.
  - reflexivity.
  - cbn [app before_first].
    change (c :: pre ++ TOOL_CALL_OPEN ++ t)
      with ((c :: pre) ++ TOOL_CALL_OPEN ++ t).
    rewrite open_tag_not_straddling; [|discriminate|exact Hocc].
    cbn [app]. f_equal. apply IH. exact (occurs_tail _ _ _ Hocc).
Qed.

Lemma forallb_isspace_rev (ws : pystr) :
  forallb isspace (rev ws) = forallb isspace ws.
Proof.
  induction ws as [|c ws IH]; [reflexivity|].
  cbn [rev forallb]. rewrite forallb_app, IH. cbn [forallb].
  rewrite andb_true_r. apply andb_comm.
Qed.

(** [strip] cuts a run of whitespace at each end and stops, at both ends,
    at a character that is not whitespace. *)
Lemma strip_split (s : pystr) :
  exists a b,
    s = a ++ strip s ++ b
    /\ forallb isspace a = true
    /\ forallb isspace b = true
    /\ (strip s <> [] ->
        isspace (hd 32%N (strip s)) = false
        /\ isspace (last (strip s) 32%N) = false).
Proof.
  unfold strip, rstrip.
  destruct (lstrip_split s) as (a & Ha & Hwa & Hhd).
  destruct (lstrip_split (rev (lstrip s))) as (b & Hb & Hwb & Hlast).
  exists a, (rev b). split; [|split; [exact Hwa|split]].
  - rewrite Ha at 1. f_equal.
    rewrite <- (rev_involutive (lstrip s)) at 1. rewrite Hb at 1.
    now rewrite rev_app_distr.
  - now rewrite forallb_isspace_rev.
  - intros Hne.
    set (m := lstrip (rev (lstrip s))) in *.
    assert (Hm : m <> []) by (intros E; apply Hne; now rewrite E).
    split.
    + (* the head of the result is the head of [lstrip s] *)
      assert (Hl : lstrip s = rev m ++ rev b).
      { rewrite <- (rev_involutive (lstrip s)), Hb.
        now rewrite rev_app_distr. }
      destruct (rev m) as [|c r] eqn:Er; [now elim Hne|].
      cbn [hd]. rewrite Hl in Hhd. cbn [app] in Hhd. exact Hhd.
    + destruct m as [|c r]; [now elim Hm|].
      cbn [rev]. rewrite last_last. exact Hlast.
Qed.

(** X6.  When an answer carries tool calls and its content is not null, the
    content is not empty, neither starts nor ends with whitespace, holds no
    opening tag, and is a piece of the model output that only whitespace
    precedes. *)
Theorem content_is_clean (completion_text : pystr) (calls : list tool_call)
    (s : pystr) :
  calls <> [] ->
  content (fst (assistant_message completion_text calls)) = Some s ->
  s <> []
  /\ isspace (hd 32%N s) = false
  /\ isspace (last s 32%N) = false
  /\ occurs TOOL_CALL_OPEN s = false
  /\ exists a b, completion_text = a ++ s ++ b /\ forallb isspace a = true.
Proof.
  intros Hcalls. destruct calls as [|c calls]; [now elim Hcalls|].
  cbn [assistant_message fst content].
  destruct (strip_split (before_first TOOL_CALL_OPEN completion_text))
    as (a & b & Hsplit & Hwa & Hwb & Hends).
  destruct (before_first_prefix TOOL_CALL_OPEN completion_text)
    as [rest Hrest].
  pose proof (before_first_clean completion_text) as Hclean.
  destruct (strip (before_first TOOL_CALL_OPEN completion_text))
    as [|c0 r] eqn:Es; [discriminate|].
  intros [= <-].
  destruct Hends as [Hh Hl]; [discriminate|].
  split; [discriminate|]. split; [exact Hh|]. split; [exact Hl|]. split.
  - rewrite Hsplit in Hclean. apply occurs_suffix in Hclean.
    exact (occurs_prefix _ _ _ Hclean).
  - exists a, (b ++ rest). split; [|exact Hwa].
    rewrite Hrest at 1. rewrite Hsplit at 1.
    now rewrite <- !app_assoc.
Qed.

End ContentFacts.

(** X6 on prose, a space and a newline before a block. *)
Lemma content_is_clean_witness :
  str "hi" <> []
  /\ isspace (hd 32%N (str "hi")) = false
  /\ isspace (last (str "hi") 32%N) = false
  /\ occurs TOOL_CALL_OPEN (str "hi") = false
  /\ exists a b, CHATTY_OUTPUT = a ++ str "hi" ++ b
                 /\ forallb isspace a = true.
Proof.
  apply (content_is_clean CHATTY_OUTPUT
           [make_tool_call (str "0123456789abcdef") (VStr (str "f"))
              (str "{}")] (str "hi")).
  - discriminate.
  - vm_compute. reflexivity.
Defined.

Section SingleBlock.
Context `{Json} `{Host} `{FloatRepr}.

(** X5.  Prose, then one well-formed block, then text without an opening
    tag: decoding returns exactly one call, built from the object of the
    block with one uuid drawn and nothing logged, and the answer's content
    is the prose with surrounding whitespace stripped (null when the prose
    is blank). *)
Theorem prose_then_block (pre ws1 u ws2 rest : pystr)
    (kv : list (pystr * value)) (w : world) :
  let block := LBRACE :: u ++ [RBRACE] in
  let text := pre ++ TOOL_CALL_OPEN ++ ws1 ++ block ++ ws2
              ++ TOOL_CALL_CLOSE ++ rest in
  let call := make_tool_call (uuid4_hex (draws w))
                (get_or kv (str "name") (VStr []))
                (arguments_string (get_or kv (str "arguments") (VDict []))) in
  occurs TOOL_CALL_OPEN pre = false ->
  forallb isspace ws1 = true ->
  forallb isspace ws2 = true ->
  occurs TOOL_CALL_CLOSE (u ++ [RBRACE]) = false ->
  occurs TOOL_CALL_OPEN rest = false ->
  json_loads block = Some (VDict kv) ->
  _parse_tool_calls text w = (Ok [call], snd (uuid4 w))
  /\ assistant_message text [call]
     = ({| role := str "assistant";
           content := match strip pre with
                      | [] => None
                      | c :: s => Some (c :: s)
                      end;
           tool_calls := Some [call] |}, str "tool_calls").
Proof.
  intros block text call Hpre Hws1 Hws2 Hu Hrest Hloads. split.
  - unfold _parse_tool_calls, text, block.
    rewrite (finditer_skip_prose _ _ Hpre), finditer_unfold.
    rewrite (match_here_complete _ _ _ _ Hws1 Hws2 Hu).
    rewrite (finditer_no_tag _ Hrest).
    rewrite (parse_matches_object _ _ _ _ _ Hloads). reflexivity.
  - unfold assistant_message, text.
    rewrite (before_first_pre _ _ Hpre).
    destruct (strip pre); reflexivity.
Qed.

End SingleBlock.

(** X5 on prose, a space and a newline before a block. *)
Lemma prose_then_block_witness :
  let call := make_tool_call (str "0123456789abcdef0123456789abcdef")
                (VStr (str "f")) (str "{}") in
  @_parse_tool_calls Reference.json Reference.host Reference.float_printer
    CHATTY_OUTPUT Reference.fresh
  = (Ok [call], {| draws := 1; log := []; sent := [] |})
  /\ assistant_message CHATTY_OUTPUT [call]
     = ({| role := str "assistant"; content := Some (str "hi");
           tool_calls := Some [call] |}, str "tool_calls").
Proof.
  apply (@prose_then_block Reference.json Reference.host
           Reference.float_printer (str "hi " ++ [10%N]) []
           (jstr "'name':'f','arguments':{}") [] []
           [(str "name", VStr (str "f")); (str "arguments", VDict [])]
           Reference.fresh);
    vm_compute; reflexivity.
Defined.

Section TaggedBlocks.

Lemma sealed_app (a b : pystr) :
  tag_sealed a -> tag_sealed b -> tag_sealed (a ++ b).
Proof.
  intros Ha Hb a1 a2 tail E Hne.
  apply app_eq_app in E as [l [[Ea Ea2]|[Ea1 Eb]]].
  - destruct l as [|x l].
    + cbn [app] in Ea2. subst a2. apply (Hb [] b tail eq_refl Hne).
    + subst a2. rewrite <- app_assoc.
      apply (Ha a1 (x :: l) (b ++ tail) Ea). discriminate.
  - apply (Hb l a2 tail Eb Hne).
Qed.

Lemma sealed_plain (s : pystr) :
  Forall (fun c => c <> 60%N) s -> tag_sealed s.
Proof.
  intros Hs a1 a2 tail -> Hne.
  destruct a2 as [|x a2]; [congruence|].
  apply Forall_app in Hs as [_ Hs]. apply Forall_inv in Hs.
  change TOOL_CALL_OPEN with (60%N :: tl TOOL_CALL_OPEN).
  cbn [app strip_prefix].
  destruct (N.eqb 60 x) eqn:E; [|reflexivity].
  apply N.eqb_eq in E. congruence.
Qed.

Lemma sealed_spaces (ws : pystr) :
  forallb isspace ws = true -> tag_sealed ws.
Proof.
  intros Hws. apply sealed_plain. apply Forall_forall. intros c Hin ->.
  rewrite forallb_forall in Hws. apply Hws in Hin. discriminate.
Qed.

(** Text that ends with a closing brace and holds no opening tag. *)
Lemma sealed_braced (s : pystr) :
  occurs TOOL_CALL_OPEN (s ++ [RBRACE]) = false ->
  tag_sealed (s ++ [RBRACE]).
Proof.
  intros Hocc a1 a2 tail E Hne.
  destruct (exists_last Hne) as (a2' & x & ->).
  rewrite app_assoc in E. apply app_inj_tail in E as [-> <-].
  destruct (strip_prefix TOOL_CALL_OPEN ((a2' ++ [RBRACE]) ++ tail))
    as [r|] eqn:Es; [|reflexivity].
  exfalso. rewrite <- app_assoc in Es. cbn [app] in Es.
  apply strip_prefix_border in Es as [r' Es].
  - apply occurs_here in Es.
    rewrite <- app_assoc in Hocc.
    apply occurs_suffix in Hocc. apply occurs_prefix in Hocc. congruence.
  - vm_compute. intuition discriminate.
Qed.

Lemma sealed_close : tag_sealed TOOL_CALL_CLOSE.
Proof.
  intros a1 a2 tail E Hne. destruct a1 as [|c a1].
  - cbn [app] in E. subst a2. reflexivity.
  - change TOOL_CALL_CLOSE with (60%N :: tl TOOL_CALL_CLOSE) in E.
    cbn [app] in E. injection E as _ E.
    refine (sealed_plain (tl TOOL_CALL_CLOSE) _ a1 a2 tail E Hne).
    vm_compute. repeat constructor; discriminate.
Qed.

(** Past its first character, a match whose group holds no opening tag
    has no place where an opening tag could begin. *)
Lemma sealed_match (ws1 u ws2 : pystr) :
  forallb isspace ws1 = true ->
  forallb isspace ws2 = true ->
  occurs TOOL_CALL_OPEN (LBRACE :: u ++ [RBRACE]) = false ->
  tag_sealed (tl TOOL_CALL_OPEN ++ ws1 ++ (LBRACE :: u ++ [RBRACE]) ++ ws2
              ++ TOOL_CALL_CLOSE).
Proof.
  intros H1 H2 Hocc.
  apply sealed_app.
  { apply sealed_plain. vm_compute. repeat constructor; discriminate. }
  apply sealed_app; [now apply sealed_spaces|].
  apply sealed_app; [exact (sealed_braced (LBRACE :: u) Hocc)|].
  apply sealed_app; [now apply sealed_spaces|exact sealed_close].
Qed.

(** Every group found is delimited in the text searched. *)
Lemma finditer_from_delimited (n : nat) (t g : pystr) :
  In g (finditer_from n t) ->
  exists pre ws1 u ws2 post,
    t = pre ++ TOOL_CALL_OPEN ++ ws1 ++ g ++ ws2 ++ TOOL_CALL_CLOSE ++ post
    /\ g = LBRACE :: u ++ [RBRACE]
    /\ forallb isspace ws1 = true
    /\ forallb isspace ws2 = true.
Proof.
  revert t; induction n as [|n IH]; intros t; cbn [finditer_from];
    [intros []|].
  destruct (match_here t) as [[g0 rest]|] eqn:E.
  - apply match_here_sound in E as (ws1 & u & ws2 & Ht & Hg & H1 & H2).
    intros [<- | Hin].
    + exists [], ws1, u, ws2, rest. auto.
    + apply IH in Hin as (pre & ws1' & u' & ws2' & post & -> & Hrest).
      exists (TOOL_CALL_OPEN ++ ws1 ++ g0 ++ ws2 ++ TOOL_CALL_CLOSE ++ pre),
        ws1', u', ws2', post.
      split; [|exact Hrest]. rewrite Ht. now rewrite <- !app_assoc.
  - destruct t as [|c t]; [intros []|].
    intros Hin. apply IH in Hin as (pre & ws1 & u & ws2 & post & -> & Hrest).
    exists (c :: pre), ws1, u, ws2, post. auto.
Qed.

(** A matched group without a closing tag in it is a tagged block. *)
Lemma group_is_delimited_block (text g : pystr) :
  In g (finditer text) ->
  occurs TOOL_CALL_CLOSE g = false ->
  delimited_block text g.
Proof.
  intros Hin Hocc. apply finditer_from_delimited in Hin
    as (pre & ws1 & u & ws2 & post & Ht & Hg & H1 & H2).
  exists pre, ws1, u, ws2, post. auto.
Qed.

(** When no matched group holds an opening tag, every tagged block is
    among the groups: no match covers the start of a later block. *)
Lemma delimited_block_found (n : nat) :
  forall text block : pystr,
    (List.length text <= n)%nat ->
    Forall (fun g => occurs TOOL_CALL_OPEN g = false) (finditer text) ->
    delimited_block text block ->
    In block (finditer text).
Proof.
  induction n as [|n IH];
    intros text block Hlen Hfree
      (pre & ws1 & u & ws2 & post & Ht & Hb & H1 & H2 & Hc).
  - exfalso. subst text. rewrite !length_app in Hlen.
    cbn [TOOL_CALL_OPEN str List.length] in Hlen.
    revert Hlen. vm_compute (List.length TOOL_CALL_OPEN). lia.
  - assert (Hcu : occurs TOOL_CALL_CLOSE (u ++ [RBRACE]) = false).
    { subst block. exact (occurs_tail _ _ _ Hc). }
    destruct pre as [|c pre].
    + cbn [app] in Ht. rewrite finditer_unfold. subst text block.
      rewrite (match_here_complete _ _ _ _ H1 H2 Hcu). now left.
    + rewrite finditer_unfold in Hfree |- *.
      destruct (match_here text) as [[g rest]|] eqn:Em.
      * right.
        apply match_here_sound in Em
          as (ws1' & u' & ws2' & Hm & Hg & H1' & H2').
        pose proof (Forall_inv Hfree) as Hg0. cbn beta in Hg0.
        apply Forall_inv_tail in Hfree.
        apply IH; [|exact Hfree|].
        { rewrite Hm, !length_app in Hlen.
          revert Hlen. vm_compute (List.length TOOL_CALL_OPEN). lia. }
        rewrite Hg in Hg0.
        pose proof (sealed_match ws1' u' ws2' H1' H2' Hg0) as Hsealed.
        rewrite <- Hg in Hsealed.
        rewrite Ht in Hm.
        apply (f_equal (@tl _)) in Hm.
        change (pre ++ TOOL_CALL_OPEN ++ ws1 ++ block ++ ws2
                ++ TOOL_CALL_CLOSE ++ post
                = tl TOOL_CALL_OPEN ++ ws1' ++ g ++ ws2' ++ TOOL_CALL_CLOSE
                  ++ rest) in Hm.
        replace (tl TOOL_CALL_OPEN ++ ws1' ++ g ++ ws2' ++ TOOL_CALL_CLOSE
                 ++ rest)
          with ((tl TOOL_CALL_OPEN ++ ws1' ++ g ++ ws2' ++ TOOL_CALL_CLOSE)
                ++ rest) in Hm
          by now rewrite <- !app_assoc.
        apply app_eq_app in Hm as [l [[Hpre Hrest]|[HM HT]]].
        -- exists l, ws1, u, ws2, post. auto.
        -- destruct l as [|x l].
           ++ cbn [app] in HT. exists [], ws1, u, ws2, post.
              cbn [app]. rewrite <- HT. auto.
           ++ exfalso.
              pose proof (Hsealed pre (x :: l) rest HM) as Hnone.
              rewrite <- HT in Hnone.
              rewrite (proj2 (strip_prefix_app _ _ _) eq_refl) in Hnone.
              discriminate Hnone. discriminate.
      * destruct text as [|c' text']; [discriminate Ht|].
        cbn [app] in Ht. injection Ht as _ Ht.
        apply IH; [cbn [List.length] in Hlen; lia|exact Hfree|].
        exists pre, ws1, u, ws2, post. auto.
Qed.

(** On outputs whose matched groups hold no tag, the groups that parse
    and the tagged blocks that parse are the same. *)
Lemma tag_free_blocks_are_groups `{Json} (text : pystr) :
  tag_free_groups text = true ->
  (exists block, delimited_block text block /\ json_loads block <> None)
  <-> ~ Forall (fun g => json_loads g = None) (finditer text).
Proof.
  intros Hfree. unfold tag_free_groups in Hfree.
  rewrite forallb_forall in Hfree.
  assert (Hopen : Forall (fun g => occurs TOOL_CALL_OPEN g = false)
                    (finditer text)).
  { apply Forall_forall. intros g Hin. apply Hfree in Hin.
    apply andb_true_iff in Hin as [Hin _].
    now apply negb_true_iff in Hin. }
  split.
  - intros (block & Hblock & Hparse) Hall.
    apply (delimited_block_found _ text block (Nat.le_refl _) Hopen) in Hblock.
    rewrite Forall_forall in Hall. apply Hparse, Hall, Hblock.
  - intros Hnot.
    assert (Hex : Exists (fun g => json_loads g <> None) (finditer text)).
    { clear Hfree Hopen. induction (finditer text) as [|g gs IH].
      - elim Hnot. constructor.
      - destruct (json_loads g) eqn:Eg.
        + left. congruence.
        + right. apply IH. intros Hall. apply Hnot. now constructor. }
    apply Exists_exists in Hex as (g & Hin & Hparse).
    exists g. split; [|exact Hparse].
    apply group_is_delimited_block; [exact Hin|].
    apply Hfree in Hin. apply andb_true_iff in Hin as [_ Hin].
    now apply negb_true_iff in Hin.
Qed.

End TaggedBlocks.

Section TaggedAnswer.
Context `{Json} `{Host} `{FloatRepr} `{Tokenizer} `{SamplingClient}.
Variable model_name : pystr.

(** C5, amended.  With a non-empty [tools], collaborators that answer, a
    JSON reader that returns objects for the texts in braces it accepts,
    and a decoded output in which no group matched by the pattern holds a
    tag: generation returns one choice with an assistant message; if the
    output contains a tagged block that parses, decoding returns at least
    one call, the finish reason is tool_calls, [tool_calls] holds the calls
    and the content is the text before the first opening tag with
    surrounding whitespace stripped, or null when nothing remains;
    otherwise the finish reason is stop, there is no [tool_calls] key and
    the content is the whole decoded text. *)
Theorem answer_follows_tool_calls
    (messages temperature max_tokens stop tools : value)
    (w : world) (prompt_text : pystr) (prompt_tokens : list token)
    (effective : value) (output_tokens : list token)
    (completion_text : pystr) :
  truthy tools = true ->
  apply_chat_template messages (Some tools) = Ok prompt_text ->
  encode (VStr prompt_text) true = Ok prompt_tokens ->
  max_floor temperature = Ok effective ->
  sample prompt_tokens (sampling_params max_tokens effective stop)
  = Ok output_tokens ->
  decode output_tokens = Ok completion_text ->
  Forall (fun g => forall v, json_loads g = Some v -> exists kv, v = VDict kv)
    (finditer completion_text) ->
  tag_free_groups completion_text = true ->
  exists c w3 msg reason calls w2,
    generate model_name messages temperature max_tokens stop tools w
    = (Ok c, w3)
    /\ choices c = [{| index := 0; choice_message := msg;
                       finish_reason := reason |}]
    /\ role msg = str "assistant"
    /\ _parse_tool_calls completion_text
         (snd (sample_remote prompt_tokens
                 (sampling_params max_tokens effective stop) w))
       = (Ok calls, w2)
    /\ ((exists block,
            delimited_block completion_text block
            /\ json_loads block <> None) ->
        calls <> []
        /\ reason = str "tool_calls"
        /\ tool_calls msg = Some calls
        /\ content msg
           = match strip (before_first TOOL_CALL_OPEN completion_text) with
             | [] => None
             | c0 :: rest => Some (c0 :: rest)
             end)
    /\ (~ (exists block,
              delimited_block completion_text block
              /\ json_loads block <> None) ->
        calls = []
        /\ reason = str "stop"
        /\ tool_calls msg = None
        /\ content msg = Some completion_text).
Proof.
  intros Htools Ht He Hm Hs Hd Hobj Hfree.
  destruct (parse_matches_returns (finditer completion_text) []
              (snd (sample_remote prompt_tokens
                      (sampling_params max_tokens effective stop) w)) Hobj)
    as (calls & w2 & Hp).
  change (parse_matches (finditer completion_text) [])
    with (_parse_tool_calls completion_text) in Hp.
  destruct (answer_follows_decoded_calls model_name messages temperature
              max_tokens stop tools w w2 prompt_text prompt_tokens effective
              output_tokens completion_text calls Htools Ht He Hm Hs Hd Hp)
    as (c & w3 & msg & reason & Hrun & Hchoices & Hrole & Hiff & Hshape).
  exists c, w3, msg, reason, calls, w2.
  split; [exact Hrun|]. split; [exact Hchoices|]. split; [exact Hrole|].
  split; [exact Hp|].
  pose proof (tag_free_blocks_are_groups completion_text Hfree) as Hblocks.
  split.
  - intros Hex. apply Hblocks in Hex.
    destruct calls as [|c0 calls].
    + elim Hex. now apply Hiff.
    + destruct Hshape as (Hr & Htc & Hc).
      split; [discriminate|]. auto.
  - intros Hnone.
    destruct calls as [|c0 calls]; [destruct Hshape as (Hr & Htc & Hc); auto|].
    exfalso. apply Hnone, Hblocks. intros Hall.
    apply Hiff in Hall. discriminate.
Qed.

End TaggedAnswer.

(** C5 amended, on the output of the counterexample. *)
Lemma answer_follows_tool_calls_witness :
  exists c w3 msg,
    @generate Reference.json Reference.host Reference.float_printer
      Reference.tokenizer (Reference.canned CHATTY_OUTPUT)
      (str "model") (VList []) (VFloat 1%float) (VInt 64) VNone SOME_TOOLS
      Reference.fresh = (Ok c, w3)
    /\ choices c = [{| index := 0; choice_message := msg;
                       finish_reason := str "tool_calls" |}]
    /\ content msg = Some (str "hi").
Proof.
  destruct (@answer_follows_tool_calls Reference.json Reference.host
              Reference.float_printer Reference.tokenizer
              (Reference.canned CHATTY_OUTPUT) (str "model")
              (VList []) (VFloat 1%float) (VInt 64) VNone SOME_TOOLS
              Reference.fresh
              (str "<prompt>") ([1%Z] ++ map Z.of_N (str "<prompt>"))
              (VFloat 1%float) (map Z.of_N CHATTY_OUTPUT) CHATTY_OUTPUT)
    as (c & w3 & msg & reason & calls & w2 & Hrun & Hchoices & _ & _ & Hyes
        & _);
    try (vm_compute; reflexivity).
  { replace (finditer CHATTY_OUTPUT)
      with [jstr "{'name':'f','arguments':{}}"] by (vm_compute; reflexivity).
    constructor; [|constructor].
    intros v E. vm_compute in E. injection E as <-. eexists. reflexivity. }
  destruct Hyes as (_ & Hreason & _ & Hcontent).
  { exists (jstr "{'name':'f','arguments':{}}"). split.
    - exists (str "hi " ++ [10%N]), [], (jstr "'name':'f','arguments':{}"),
        [], [].
      repeat split; vm_compute; reflexivity.
    - vm_compute. discriminate. }
  exists c, w3, msg. split; [exact Hrun|]. split.
  - rewrite Hchoices, Hreason. reflexivity.
  - rewrite Hcontent. vm_compute. reflexivity.
Defined.

(** The output with a block cut short lies outside the outputs considered
    above: its one group holds both tags. *)
Example cut_output_is_not_tag_free :
  tag_free_groups TRUNCATED_THEN_VALID = false
  /\ tag_free_groups CUT_THEN_EMPTY_OBJECT = false
  /\ tag_free_groups CHATTY_OUTPUT = true.
Proof. repeat split; vm_compute; reflexivity. Qed.

End ExtractionFacts.

(* ===================================================================== *)
(** * Further properties of the proxy: generation and the handler         *)
(* ===================================================================== *)

Module ServerFacts.
Import Py Proxy Routes Cases Fixtures ProxyFacts.

Section PlainGeneration.
Context `{Json} `{Host} `{FloatRepr} `{Tokenizer} `{SamplingClient}.
Variable model_name : pystr.

(** X7.  Without tools in the request (absent, null or an empty list) the
    model output is returned verbatim as the content, with finish reason
    stop and no tool_calls key, whatever tags it holds: nothing is decoded
    or logged, one sampling request is sent, one uuid is drawn for the id
    of the completion, and the usage adds the two token counts. *)
Theorem generate_without_tools
    (messages temperature max_tokens stop tools : value) (w : world)
    (prompt_text : pystr) (prompt_tokens : list token) (effective : value)
    (output_tokens : list token) (completion_text : pystr) :
  truthy tools = false ->
  apply_chat_template messages None = Ok prompt_text ->
  encode (VStr prompt_text) true = Ok prompt_tokens ->
  max_floor temperature = Ok effective ->
  sample prompt_tokens (sampling_params max_tokens effective stop)
  = Ok output_tokens ->
  decode output_tokens = Ok completion_text ->
  exists c,
    generate model_name messages temperature max_tokens stop tools w
    = (Ok c,
       {| draws := S (draws w); log := log w;
          sent := sent w ++ [(prompt_tokens,
                              sampling_params max_tokens effective stop)] |})
    /\ choices c
       = [{| index := 0;
             choice_message := {| role := str "assistant";
                                  content := Some completion_text;
                                  tool_calls := None |};
             finish_reason := str "stop" |}]
    /\ completion_id c = str "chatcmpl-" ++ firstn 8 (uuid4_hex (draws w))
    /\ total_tokens (completion_usage c)
       = (List.length prompt_tokens + List.length output_tokens)%nat.
Proof.
  intros Htools Ht He Hm Hs Hd.
  assert (Ht' : apply_chat_template messages
                  (if truthy tools then Some tools else None)
                = Ok prompt_text) by now rewrite Htools.
  pose (w1 := snd (sample_remote prompt_tokens
                     (sampling_params max_tokens effective stop) w)).
  assert (Hp : (if truthy tools then _parse_tool_calls completion_text
                else ret []) w1 = (Ok [], w1)) by now rewrite Htools.
  eexists. split.
  - exact (generate_run model_name _ _ _ _ _ _ _ _ _ _ _ _ _
             Ht' He Hm Hs Hd Hp).
  - repeat split.
Qed.

End PlainGeneration.

(** X7 on a request without tools, the model answering with a block. *)
Lemma generate_without_tools_witness :
  exists c,
    @generate Reference.json Reference.host Reference.float_printer
      Reference.tokenizer (Reference.canned VALID_ALONE) (str "model")
      (VList []) (VInt 1) (VInt 64) VNone VNone Reference.fresh
    = (Ok c,
       {| draws := 1; log := [];
          sent := [([1%Z] ++ map Z.of_N (str "<prompt>"),
                    sampling_params (VInt 64) (VInt 1) VNone)] |})
    /\ choices c
       = [{| index := 0;
             choice_message := {| role := str "assistant";
                                  content := Some VALID_ALONE;
                                  tool_calls := None |};
             finish_reason := str "stop" |}]
    /\ completion_id c = str "chatcmpl-01234567"
    /\ total_tokens (completion_usage c) = 59%nat.
Proof.
  refine (@generate_without_tools Reference.json Reference.host
            Reference.float_printer Reference.tokenizer
            (Reference.canned VALID_ALONE) (str "model")
            (VList []) (VInt 1) (VInt 64) VNone VNone Reference.fresh
            (str "<prompt>") ([1%Z] ++ map Z.of_N (str "<prompt>"))
            (VInt 1) (map Z.of_N VALID_ALONE) VALID_ALONE _ _ _ _ _ _);
    vm_compute; reflexivity.
Defined.

Section Containment.
Context `{Json} `{Host} `{FloatRepr} `{Tokenizer} `{SamplingClient} `{Interp}.
Variable model_name : pystr.

(** A state with one more access line in its log. *)
Lemma send_response_run (req : request) (code : Z) (w : world) :
  send_response req code w
  = (Ok tt, {| draws := draws w;
               log := log w ++ [(INFO, access_line req code)];
               sent := sent w |}).
Proof. reflexivity. Qed.

Lemma respond_status (req : request) (payload : value) (w w' : world)
    (resp : response) :
  respond model_name req payload w = (Ok resp, w') ->
  status resp = 200%Z /\ headers resp = JSON_HEADER
  /\ exists c w1,
       body resp = json_dumps (completion_value c)
       /\ w' = {| draws := draws w1;
                  log := log w1 ++ [(INFO, access_line req 200)];
                  sent := sent w1 |}.
Proof.
  unfold respond, bind, lift.
  repeat match goal with
         | |- context [py_get ?d ?k ?v] => destruct (py_get d k v)
         end; try discriminate.
  match goal with
  | |- context [generate ?m ?a ?b ?c ?d ?e ?w] =>
      destruct (generate m a b c d e w) as [[g|e0] w0]
  end; [|discriminate].
  rewrite send_response_run. intros [= <- <-].
  split; [reflexivity|]. split; [reflexivity|].
  exists g, w0. split; reflexivity.
Qed.

(** X8.  Once the body of a chat-completions request has been parsed, and
    with the socket taking what is written to it, [do_POST] returns an
    answer with the JSON content type: either status 200, the log ending
    with the access line of that status; or, when the guarded region raised
    an exception, status 500 with a JSON body holding the text of the
    exception under the key error, the log of the failed attempt extended
    by exactly two entries, the error and then the access line.  No
    exception of the guarded region escapes. *)
Theorem generation_errors_are_contained (req : request) (w : world)
    (n : Z) (payload : value) :
  existsb (pystr_eqb (path req)) CHAT_PATHS = true ->
  py_int (content_length req) = Ok n ->
  json_loads_bytes (rfile_read req n) = Some payload ->
  exists resp w',
    do_POST model_name req w = (Ok resp, w')
    /\ headers resp = JSON_HEADER
    /\ ((status resp = 200%Z
         /\ exists c w1,
              body resp = json_dumps (completion_value c)
              /\ w' = {| draws := draws w1;
                         log := log w1 ++ [(INFO, access_line req 200)];
                         sent := sent w1 |})
        \/ (status resp = 500%Z
            /\ exists e w1,
                 respond model_name req payload w = (Raised e, w1)
                 /\ body resp
                    = json_dumps (VDict [(str "error", VStr (str_of_exn e))])
                 /\ w' = {| draws := draws w1;
                            log := log w1
                                   ++ [(ERROR, str "Generation error: "
                                               ++ str_of_exn e);
                                       (INFO, access_line req 500)];
                            sent := sent w1 |})).
Proof.
  intros Hpath Hlen Hbody. unfold do_POST. rewrite Hpath.
  unfold bind at 1, lift at 1. rewrite Hlen.
  unfold bind at 1, lift at 1, loads_body. rewrite Hbody.
  unfold try_except.
  destruct (respond model_name req payload w) as [[resp|e] w1] eqn:Hr.
  - exists resp, w1. apply respond_status in Hr as (Hs & Hh & Hc).
    split; [reflexivity|]. split; [exact Hh|]. left. auto.
  - eexists. eexists. split; [reflexivity|]. split; [reflexivity|].
    right. split; [reflexivity|]. exists e, w1.
    split; [reflexivity|]. split; [reflexivity|].
    cbn [logger send_response snd draws log sent].
    now rewrite <- app_assoc.
Qed.

(** X9.  A body that is JSON but not an object (a list, a string, a
    number, null) is answered with status 500 for the [AttributeError] of
    its missing [get], whatever the tokenizer and the sampling service
    would do: nothing is sent to the sampling service, no uuid is drawn,
    and the log grows by the error and the access line of the 500. *)
Theorem body_must_be_an_object (req : request) (w : world) (n : Z)
    (payload : value) :
  existsb (pystr_eqb (path req)) CHAT_PATHS = true ->
  py_int (content_length req) = Ok n ->
  json_loads_bytes (rfile_read req n) = Some payload ->
  (forall kv, payload <> VDict kv) ->
  do_POST model_name req w
  = (Ok {| status := 500; headers := JSON_HEADER;
           body := json_dumps
                     (VDict [(str "error",
                              VStr (str_of_exn AttributeError))]) |},
     {| draws := draws w;
        log := log w ++ [(ERROR, str "Generation error: "
                                 ++ str_of_exn AttributeError);
                         (INFO, access_line req 500)];
        sent := sent w |}).
Proof.
  intros Hpath Hlen Hbody Hobj. unfold do_POST. rewrite Hpath.
  unfold bind at 1, lift at 1. rewrite Hlen.
  unfold bind at 1, lift at 1, loads_body. rewrite Hbody.
  unfold try_except, respond, bind, lift.
  destruct payload as [ |b|z|f|s|l|kv]; [| | | | | |now elim (Hobj kv)].
  all: cbn [py_get]. all: unfold report, bind, send_response, logger, ret.
  all: cbn [fst snd draws log sent]. all: rewrite <- app_assoc.
  all: reflexivity.
Qed.

(** X10.  A temperature that is not a number (null, a string, a list, an
    object) makes [max] raise before any sampling request is built: the
    answer has status 500, the sampling service is not contacted, no uuid
    is drawn, and the log grows by the error and the access line of the
    500. *)
Theorem bad_temperature_sends_nothing (req : request) (w : world) (n : Z)
    (kv : list (pystr * value)) :
  existsb (pystr_eqb (path req)) CHAT_PATHS = true ->
  py_int (content_length req) = Ok n ->
  json_loads_bytes (rfile_read req n) = Some (VDict kv) ->
  floor_gt (get_or kv (str "temperature") (VFloat 0%float))
  = Raised TypeError ->
  exists resp e,
    do_POST model_name req w
    = (Ok resp,
       {| draws := draws w;
          log := log w ++ [(ERROR, str "Generation error: "
                                   ++ str_of_exn e);
                           (INFO, access_line req 500)];
          sent := sent w |})
    /\ status resp = 500%Z
    /\ body resp = json_dumps (VDict [(str "error", VStr (str_of_exn e))]).
Proof.
  intros Hpath Hlen Hbody Hbad. unfold do_POST. rewrite Hpath.
  unfold bind at 1, lift at 1. rewrite Hlen.
  unfold bind at 1, lift at 1, loads_body. rewrite Hbody.
  unfold try_except, respond, generate, bind, lift, py_get, max_floor.
  rewrite Hbad.
  assert (Hreport : forall e,
             exists resp,
               report req e w
               = (Ok resp,
                  {| draws := draws w;
                     log := log w ++ [(ERROR, str "Generation error: "
                                              ++ str_of_exn e);
                                      (INFO, access_line req 500)];
                     sent := sent w |})
               /\ status resp = 500%Z
               /\ body resp
                  = json_dumps (VDict [(str "error",
                                        VStr (str_of_exn e))])).
  { intros e. eexists. unfold report, bind, send_response, logger, ret.
    cbn [fst snd draws log sent]. rewrite <- app_assoc.
    split; [reflexivity|]. split; reflexivity. }
  destruct (apply_chat_template _ _) as [pt|e1].
  - destruct (encode _ _) as [ptoks|e2].
    + destruct (Hreport TypeError) as (resp & E & Hs & Hb).
      exists resp, TypeError. auto.
    + destruct (Hreport e2) as (resp & E & Hs & Hb). exists resp, e2. auto.
  - destruct (Hreport e1) as (resp & E & Hs & Hb). exists resp, e1. auto.
Qed.

End Containment.

(** X8 with the sampling service down. *)
Lemma generation_errors_are_contained_witness :
  exists resp w',
    @do_POST Reference.json Reference.host Reference.float_printer
      Reference.tokenizer Reference.unreachable Reference.interp
      (str "model") ZERO_TEMPERATURE_REQUEST Reference.fresh = (Ok resp, w')
    /\ status resp = 500%Z
    /\ body resp = jstr "{'error': 'connection refused'}"
    /\ map fst (log w') = [ERROR; INFO].
Proof.
  destruct (@generation_errors_are_contained Reference.json Reference.host
              Reference.float_printer Reference.tokenizer
              Reference.unreachable Reference.interp (str "model")
              ZERO_TEMPERATURE_REQUEST Reference.fresh 35%Z
              (VDict [(str "messages", VList []);
                      (str "temperature", VInt 0)]))
    as (resp & w' & Hrun & _ & [(Hok & _) | (Hs & e & w1 & Hr & Hb & Hw)]);
    try (vm_compute; reflexivity).
  - exfalso. vm_compute in Hrun. injection Hrun as <- _. discriminate.
  - exists resp, w'. split; [exact Hrun|]. split; [exact Hs|].
    vm_compute in Hr. injection Hr as <- <-.
    split; [rewrite Hb|rewrite Hw]; reflexivity.
Defined.

(** X9 on a body that is an empty list. *)
Lemma body_must_be_an_object_witness :
  @do_POST Reference.json Reference.host Reference.float_printer
    Reference.tokenizer (Reference.canned (str "ok")) Reference.interp
    (str "model") LIST_BODY_REQUEST Reference.fresh
  = (Ok {| status := 500; headers := JSON_HEADER;
           body := jstr "{'error': 'error'}" |},
     {| draws := 0;
        log := [(ERROR, str "Generation error: error");
                (INFO, jstr "'POST /chat/completions HTTP/1.1' 500 -")];
        sent := [] |}).
Proof.
  apply (@body_must_be_an_object Reference.json Reference.host
           Reference.float_printer Reference.tokenizer
           (Reference.canned (str "ok")) Reference.interp (str "model")
           LIST_BODY_REQUEST Reference.fresh 2%Z (VList []));
    try (vm_compute; reflexivity).
  discriminate.
Defined.

(** X10 on a temperature given as a word. *)
Lemma bad_temperature_sends_nothing_witness :
  exists resp e,
    @do_POST Reference.json Reference.host Reference.float_printer
      Reference.tokenizer (Reference.canned (str "ok")) Reference.interp
      (str "model") HOT_REQUEST Reference.fresh
    = (Ok resp,
       {| draws := 0;
          log := [(ERROR, str "Generation error: "
                          ++ @str_of_exn Reference.interp e);
                  (INFO, access_line HOT_REQUEST 500)];
          sent := [] |})
    /\ status resp = 500%Z
    /\ body resp
       = @json_dumps Reference.float_printer
           (VDict [(str "error", VStr (@str_of_exn Reference.interp e))]).
Proof.
  apply (@bad_temperature_sends_nothing Reference.json Reference.host
           Reference.float_printer Reference.tokenizer
           (Reference.canned (str "ok")) Reference.interp (str "model")
           HOT_REQUEST Reference.fresh 22%Z
           [(str "temperature", VStr (str "hot"))]);
    vm_compute; reflexivity.
Defined.

Section Flooring.

(** X11.  The temperature sent is the one requested unless that compares
    below 0.01, in which case it is exactly 0.01; the result never compares
    below the floor, and flooring it again changes nothing. *)
Theorem max_floor_settles (temperature v : value) :
  max_floor temperature = Ok v ->
  floor_gt v = Ok false
  /\ max_floor v = Ok v
  /\ (floor_gt temperature = Ok false -> v = temperature)
  /\ (floor_gt temperature = Ok true -> v = VFloat TEMPERATURE_FLOOR).
Proof.
  assert (Hfloor : PrimFloat.ltb TEMPERATURE_FLOOR TEMPERATURE_FLOOR = false)
    by (vm_compute; reflexivity).
  unfold max_floor.
  destruct (floor_gt temperature) as [[|]|e] eqn:E; [| |discriminate];
    intros [= <-].
  - unfold max_floor. cbn [floor_gt]. rewrite Hfloor.
    split; [reflexivity|]. split; [reflexivity|].
    split; [discriminate|reflexivity].
  - unfold max_floor. rewrite E.
    split; [reflexivity|]. split; [reflexivity|].
    split; [reflexivity|discriminate].
Qed.

End Flooring.

(** X11 on the temperature zero. *)
Lemma max_floor_settles_witness :
  floor_gt (VFloat TEMPERATURE_FLOOR) = Ok false
  /\ max_floor (VFloat TEMPERATURE_FLOOR) = Ok (VFloat TEMPERATURE_FLOOR)
  /\ (floor_gt (VInt 0) = Ok false -> VFloat TEMPERATURE_FLOOR = VInt 0)
  /\ (floor_gt (VInt 0) = Ok true
      -> VFloat TEMPERATURE_FLOOR = VFloat TEMPERATURE_FLOOR).
Proof.
  apply (max_floor_settles (VInt 0) (VFloat TEMPERATURE_FLOOR)).
  reflexivity.
Defined.


Section RouteFacts.
Context `{FloatRepr}.
Variable model_name : pystr.

Lemma existsb_pystr (p : pystr) (l : list pystr) :
  existsb (pystr_eqb p) l = true <-> In p l.
Proof.
  rewrite existsb_exists. split.
  - intros (q & Hq & E). apply pystr_eqb_eq in E. now subst q.
  - intros Hin. exists p. split; [exact Hin|]. now apply pystr_eqb_eq.
Qed.

(** X12.  With the socket taking what is written to it, a GET returns an
    answer and leaves exactly one trace: the access line of its status, at
    level INFO, added to the log; no uuid is drawn and the sampling service
    is not contacted.  The status is 200 on the two model paths and on the
    health path and 404 on every other path; only the model paths have a
    body, the JSON object listing the served model with its name escaped as
    a JSON string. *)
Theorem get_routes (req : request) (w : world) :
  exists resp,
    do_GET model_name req w
    = (Ok resp, {| draws := draws w;
                   log := log w ++ [(INFO, access_line req (status resp))];
                   sent := sent w |})
    /\ (status resp = 200%Z \/ status resp = 404%Z)
    /\ (status resp = 200%Z <-> In (path req) (HEALTH_PATH :: MODEL_PATHS))
    /\ (In (path req) MODEL_PATHS ->
        headers resp = JSON_HEADER
        /\ body resp
           = jstr "{'data': [{'id': " ++ encode_basestring_ascii model_name
             ++ jstr ", 'object': 'model'}]}")
    /\ (~ In (path req) MODEL_PATHS ->
        headers resp = [] /\ body resp = []).
Proof.
  unfold do_GET.
  destruct (existsb (pystr_eqb (path req)) MODEL_PATHS) eqn:Em.
  - apply existsb_pystr in Em.
    exists {| status := 200; headers := JSON_HEADER;
              body := json_dumps (models_value model_name) |}.
    split; [reflexivity|].
    cbn [status headers body]. split; [now left|]. split; [|split].
    + split; [intros _; now right|reflexivity].
    + intros _. split; [reflexivity|].
      unfold models_value. cbn [json_dumps map join fst snd].
      rewrite <- !app_assoc. reflexivity.
    + intros Hn. contradiction.
  - assert (Hm : ~ In (path req) MODEL_PATHS).
    { intros Hin. apply existsb_pystr in Hin. congruence. }
    destruct (pystr_eqb (path req) HEALTH_PATH) eqn:Eh.
    + apply pystr_eqb_eq in Eh.
      exists {| status := 200; headers := []; body := [] |}.
      split; [reflexivity|].
      cbn [status headers body]. split; [now left|]. split; [|split].
      * split; [intros _; now left|reflexivity].
      * intros Hin. contradiction.
      * intros _. split; reflexivity.
    + exists {| status := 404; headers := []; body := [] |}.
      split; [reflexivity|].
      cbn [status headers body]. split; [now right|]. split; [|split].
      * split; [discriminate|]. intros [E | Hin]; [|contradiction].
        rewrite <- E in Eh.
        now rewrite (proj2 (pystr_eqb_eq _ _) eq_refl) in Eh.
      * intros Hin. contradiction.
      * intros _. split; reflexivity.
Qed.

End RouteFacts.


Section EncodingFacts.
Local Open Scope N_scope.

Lemma ascii_text_app (a b : pystr) :
  ascii_text a -> ascii_text b -> ascii_text (a ++ b).
Proof. intros Ha Hb. apply Forall_app. now split. Qed.

Lemma hex_digit_ascii (n : N) : n < 16 -> hex_digit n < 128.
Proof. unfold hex_digit. destruct (n <? 10); lia. Qed.

Lemma u_escape_ascii (n : N) : ascii_text (u_escape n).
Proof.
  unfold u_escape, hex4, ascii_text. cbn [app].
  repeat constructor; try lia;
    apply hex_digit_ascii; apply N.mod_lt; discriminate.
Qed.

Lemma escape_char_ascii (c : pychar) : ascii_text (escape_char c).
Proof.
  unfold escape_char.
  repeat match goal with
         | |- context [if ?b then _ else _] => destruct b eqn:?
         end;
    try (repeat constructor; lia);
    try apply u_escape_ascii.
  - apply andb_true_iff in Heqb1 as [_ Hle]. apply N.leb_le in Hle.
    repeat constructor. lia.
  - apply ascii_text_app; apply u_escape_ascii.
Qed.

Lemma encode_basestring_ascii_ascii (s : pystr) :
  ascii_text (encode_basestring_ascii s).
Proof.
  unfold encode_basestring_ascii.
  apply ascii_text_app; [repeat constructor; lia|].
  apply ascii_text_app; [|repeat constructor; lia].
  induction s as [|c s IH]; [constructor|].
  cbn [flat_map]. apply ascii_text_app; [apply escape_char_ascii|exact IH].
Qed.

Lemma string_of_uint_ascii (d : Decimal.uint) :
  ascii_text (str (NilEmpty.string_of_uint d)).
Proof.
  induction d; cbn [NilEmpty.string_of_uint]; try constructor;
    try (vm_compute; reflexivity); try exact IHd.
Qed.

Lemma int_repr_ascii (z : Z) : ascii_text (int_repr z).
Proof.
  unfold int_repr, NilZero.string_of_int.
  destruct (Z.to_int z) as [d|d].
  - unfold NilZero.string_of_uint.
    destruct d; try apply string_of_uint_ascii.
    repeat constructor; vm_compute; reflexivity.
  - change (ascii_text (45 :: str (NilZero.string_of_uint d))).
    constructor; [reflexivity|]. unfold NilZero.string_of_uint.
    destruct d; try apply string_of_uint_ascii.
    repeat constructor; vm_compute; reflexivity.
Qed.

Lemma join_ascii (sep : pystr) (parts : list pystr) :
  ascii_text sep -> Forall ascii_text parts -> ascii_text (join sep parts).
Proof.
  intros Hsep Hparts. induction Hparts as [|p ps Hp Hps IH]; [constructor|].
  cbn [join]. destruct ps as [|q ps]; [exact Hp|].
  apply ascii_text_app; [exact Hp|]. apply ascii_text_app; [exact Hsep|].
  exact IH.
Qed.

Lemma literal_ascii (s : pystr) :
  forallb (fun c => c <? 128) s = true -> ascii_text s.
Proof.
  intros E. apply Forall_forall. intros c Hc.
  rewrite forallb_forall in E. apply N.ltb_lt. now apply E.
Qed.

End EncodingFacts.

Section ResponseFacts.
Context `{Json} `{Host} `{FloatRepr} `{Tokenizer} `{SamplingClient} `{Interp}.
Variable model_name : pystr.
Hypothesis float_repr_ascii : forall f, ascii_text (float_repr f).

Lemma json_dumps_ascii_text : forall v : value, ascii_text (json_dumps v).
Proof.
  fix IH 1. intros [ |b|z|f|s|l|kv]; cbn [json_dumps].
  - now apply literal_ascii.
  - destruct b; now apply literal_ascii.
  - apply int_repr_ascii.
  - apply float_repr_ascii.
  - apply encode_basestring_ascii_ascii.
  - apply ascii_text_app; [now apply literal_ascii|].
    apply ascii_text_app; [|now apply literal_ascii].
    apply join_ascii; [now apply literal_ascii|].
    induction l as [|a l IHl]; [constructor|].
    cbn [map]. constructor; [apply IH|exact IHl].
  - apply ascii_text_app; [now apply literal_ascii|].
    apply ascii_text_app; [|now apply literal_ascii].
    apply join_ascii; [now apply literal_ascii|].
    induction kv as [|[k a] kv IHkv]; [constructor|].
    cbn [map fst snd]. constructor; [|exact IHkv].
    apply ascii_text_app; [apply encode_basestring_ascii_ascii|].
    apply ascii_text_app; [now apply literal_ascii|apply IH].
Qed.

(** X13.  Every response body is ASCII, whatever the model, the request or
    an exception text contains, provided floats print in ASCII: the body of
    a POST answer (completion, error report or the empty 404) and of a GET
    answer holds only code points below 128, so encoding it cannot fail. *)
Theorem response_bodies_are_ascii :
  (forall (req : request) (w w' : world) (resp : response),
      do_POST model_name req w = (Ok resp, w') -> ascii_text (body resp))
  /\ (forall (req : request) (w w' : world) (resp : response),
         do_GET model_name req w = (Ok resp, w') -> ascii_text (body resp)).
Proof.
  split.
  - intros req w w' resp. unfold do_POST.
    destruct (existsb _ CHAT_PATHS); [|intros [= <- _]; constructor].
    unfold bind at 1, lift at 1.
    destruct (py_int (content_length req)) as [n|e]; [|discriminate].
    unfold bind at 1, lift at 1.
    destruct (loads_body (rfile_read req n)) as [payload|e]; [|discriminate].
    unfold try_except.
    destruct (respond model_name req payload w) as [[ok|e] w1] eqn:Hr.
    + intros [= <- _].
      apply respond_status in Hr as (_ & _ & c & w0 & -> & _).
      apply json_dumps_ascii_text.
    + intros [= <- _].
      exact (json_dumps_ascii_text
               (VDict [(str "error", VStr (str_of_exn e))])).
  - intros req w w' resp. unfold do_GET.
    destruct (existsb _ MODEL_PATHS).
    + intros [= <- _].
      exact (json_dumps_ascii_text (models_value model_name)).
    + destruct (pystr_eqb (path req) HEALTH_PATH); intros [= <- _];
        constructor.
Qed.

End ResponseFacts.

(** X13 on a model output with an accented letter and an emoji. *)
Lemma response_bodies_are_ascii_witness :
  exists resp w',
    @do_POST Reference.json Reference.host Reference.float_printer
      Reference.tokenizer (Reference.canned ACCENTED_OUTPUT)
      Reference.interp (str "model") PLAIN_REQUEST Reference.fresh
    = (Ok resp, w')
    /\ status resp = 200%Z
    /\ ascii_text (body resp).
Proof.
  eexists. eexists. split; [vm_compute; reflexivity|].
  split; [reflexivity|].
  refine (proj1 (@response_bodies_are_ascii Reference.json Reference.host
                   Reference.float_printer Reference.tokenizer
                   (Reference.canned ACCENTED_OUTPUT) Reference.interp
                   (str "model") _) PLAIN_REQUEST Reference.fresh _ _ _).
  - intros f. apply literal_ascii. reflexivity.
  - vm_compute. reflexivity.
Defined.

End ServerFacts.

(* ===================================================================== *)
(** * Further properties of the trainer                                   *)
(* ===================================================================== *)

Module TrainerFacts.
Import Py Grpo Cases Checks Fixtures GrpoFacts.

Section StepFacts.
Context {R : Type} `{TrainingClient R}.

(** X14.  A training step on a batch that is not empty sends the
    forward-backward request for that batch with the importance-sampling
    loss first.  If it fails, the step fails with its error and no
    optimizer step is requested.  Otherwise exactly one optimizer step
    follows, with the learning rate given and Adam's beta1 0.9, beta2 0.95
    and eps 1e-8; the step then fails, or returns the number of datums with
    the loss reported by the service (0.0 when none is reported). *)
Theorem train_step_protocol (data : list (datum R)) (lr : float)
    (sent sent' : list (client_request R)) (r : result step_metrics) :
  data <> [] ->
  train_step data lr sent = (r, sent') ->
  let fwd_bwd := ForwardBackward data (str "importance_sampling") in
  let optim := OptimStep R {| learning_rate := lr; beta1 := 0.9%float;
                              beta2 := 0.95%float; eps := 1e-8%float |} in
  (exists e,
      forward_backward data (str "importance_sampling") = Raised e
      /\ r = Raised e /\ sent' = sent ++ [fwd_bwd])
  \/ (exists metrics,
         forward_backward data (str "importance_sampling") = Ok metrics
         /\ sent' = sent ++ [fwd_bwd; optim]
         /\ ((exists e, r = Raised e)
             \/ r = Ok {| loss := match metric (str "loss") metrics with
                                  | Some l => l
                                  | None => 0%float
                                  end;
                          num_samples := List.length data |})).
Proof.
  intros Hne. destruct data as [|d data]; [now elim Hne|].
  cbn [train_step].
  destruct (forward_backward _ _) as [metrics|e].
  - destruct (optim_step _) as [u|e]; intros [= <- <-]; right;
      exists metrics; (split; [reflexivity|]);
      rewrite <- app_assoc; (split; [reflexivity|]).
    + right. reflexivity.
    + left. now exists e.
  - intros [= <- <-]. left. exists e. auto.
Qed.

End StepFacts.

(** X14 on one datum, with a service that reports a loss of one half. *)
Lemma train_step_protocol_witness :
  exists metrics,
    @forward_backward float (Reference.trainer float) [ONE_DATUM]
      (str "importance_sampling") = Ok metrics
    /\ snd (@train_step float (Reference.trainer float) [ONE_DATUM]
              2e-5%float [])
       = [ForwardBackward [ONE_DATUM] (str "importance_sampling");
          OptimStep float {| learning_rate := 2e-5%float; beta1 := 0.9%float;
                             beta2 := 0.95%float; eps := 1e-8%float |}].
Proof.
  destruct (@train_step_protocol float (Reference.trainer float) [ONE_DATUM]
              2e-5%float []
              (snd (@train_step float (Reference.trainer float) [ONE_DATUM]
                      2e-5%float []))
              (fst (@train_step float (Reference.trainer float) [ONE_DATUM]
                      2e-5%float [])))
    as [(e & Hfb & _) | (metrics & Hfb & Hsent & _)].
  - discriminate.
  - reflexivity.
  - discriminate Hfb.
  - exists metrics. split; [exact Hfb|exact Hsent].
Defined.

Section SelectionFacts.
Context {R : Type} {num : Number R} `{Json} `{Tokenizer} `{Format}.

(** The datum a rollout contributes, if any. *)
Lemma group_data_spec (pairs : list (rollout R * R))
    (data0 data : list (datum R)) :
  group_data pairs data0 = Ok data ->
  data = data0
         ++ flat_map (fun ra => match rollout_datum (fst ra) (snd ra) with
                                | Ok (Some d) => [d]
                                | _ => []
                                end) pairs
  /\ Forall (fun ra => exists o, rollout_datum (fst ra) (snd ra) = Ok o)
       pairs.
Proof.
  revert data0; induction pairs as [|[r a] pairs IH]; intros data0.
  - intros [= <-]. cbn [flat_map]. rewrite app_nil_r. auto.
  - cbn [group_data flat_map fst snd].
    destruct (rollout_datum r a) as [[d|]|e] eqn:Er; cbn [rbind];
      [| |discriminate].
    + intros E. apply IH in E as [-> Hall]. split.
      * now rewrite <- app_assoc.
      * constructor; [|exact Hall]. cbn [fst snd]. rewrite Er. eauto.
    + intros E. apply IH in E as [-> Hall]. split; [reflexivity|].
      constructor; [|exact Hall]. cbn [fst snd]. rewrite Er. eauto.
Qed.

Lemma groups_data_spec (groups : list (list (rollout R)))
    (data0 data : list (datum R)) :
  groups_data groups data0 = Ok data ->
  data = data0
         ++ flat_map
              (fun group =>
                 if no_signal (group_advantages group) then []
                 else flat_map
                        (fun ra => match rollout_datum (fst ra) (snd ra) with
                                   | Ok (Some d) => [d]
                                   | _ => []
                                   end)
                        (combine group (group_advantages group))) groups
  /\ Forall (fun group =>
               no_signal (group_advantages group) = false ->
               Forall (fun ra => exists o,
                           rollout_datum (fst ra) (snd ra) = Ok o)
                 (combine group (group_advantages group))) groups.
Proof.
  revert data0; induction groups as [|group groups IH]; intros data0.
  - intros [= <-]. cbn [flat_map]. rewrite app_nil_r. auto.
  - cbn [groups_data flat_map]. destruct group as [|x group].
    + intros E. apply IH in E as [-> Hall]. split; [reflexivity|].
      constructor; [|exact Hall]. discriminate.
    + destruct (no_signal (group_advantages (x :: group))) eqn:Es.
      * intros E. apply IH in E as [-> Hall]. split; [reflexivity|].
        constructor; [|exact Hall]. intros Hs. congruence.
      * destruct (group_data _ data0) as [data1|e] eqn:Eg; cbn [rbind];
          [|discriminate].
        apply group_data_spec in Eg as [-> Hg].
        intros E. apply IH in E as [-> Hall]. split.
        -- now rewrite <- app_assoc.
        -- constructor; [|exact Hall]. intros _. exact Hg.
Qed.

Lemma selection_length {A B : Type} (f : A -> list B) (l : list A) :
  (forall x, List.length (f x) <= 1)%nat ->
  (List.length (flat_map f l) <= List.length l)%nat.
Proof.
  intros Hf. induction l as [|x l IH]; [reflexivity|].
  cbn [flat_map List.length]. rewrite length_app.
  specialize (Hf x). lia.
Qed.

(** X15.  The training data are a selection of the rollouts in their
    order: group after group, the groups without signal left out, and
    within a group rollout after rollout, each contributing at most one
    datum.  So there are never more datums than rollouts. *)
Theorem training_data_in_order (groups : list (list (rollout R)))
    (data : list (datum R)) :
  trajectories_to_training_data groups = Ok data ->
  data = flat_map
           (fun group =>
              if no_signal (group_advantages group) then []
              else flat_map
                     (fun ra => match rollout_datum (fst ra) (snd ra) with
                                | Ok (Some d) => [d]
                                | _ => []
                                end)
                     (combine group (group_advantages group))) groups
  /\ (List.length data <= List.length (List.concat groups))%nat.
Proof.
  intros E. apply groups_data_spec in E as [E _]. cbn [app] in E.
  split; [exact E|]. rewrite E. clear E.
  induction groups as [|group groups IH]; [reflexivity|].
  cbn [flat_map List.concat]. rewrite !length_app.
  enough (List.length
            (if no_signal (group_advantages group) then []
             else flat_map
                    (fun ra => match rollout_datum (fst ra) (snd ra) with
                               | Ok (Some d) => [d]
                               | _ => []
                               end)
                    (combine group (group_advantages group)))
          <= List.length group)%nat by lia.
  destruct (no_signal _); [cbn [List.length]; lia|].
  etransitivity.
  - apply selection_length. intros [r a]. cbn [fst snd].
    destruct (rollout_datum r a) as [[d|]|e]; cbn [List.length]; lia.
  - rewrite length_combine. lia.
Qed.

Lemma rollout_has_advantage (group : list (rollout R)) (r : rollout R) :
  In r group ->
  exists a, In (r, a) (combine group (group_advantages group)).
Proof.
  rewrite group_advantages_map.
  generalize (fun x : rollout R =>
                sub (reward x) (mean_reward (map (@reward R) group))).
  intros f Hin. exists (f r).
  induction group as [|x group IH]; [destruct Hin|].
  cbn [map combine]. destruct Hin as [-> | Hin]; [now left|].
  right. now apply IH.
Qed.

(** X16.  A trajectory that is JSON but not an object (a list, null, a
    number) is not skipped like one that is not JSON: its [get] raises
    [AttributeError], and if its group carries signal the whole conversion
    raises, returning no datum at all. *)
Theorem non_object_trajectory_aborts (groups : list (list (rollout R)))
    (group : list (rollout R)) (r : rollout R) (traj : value) :
  In group groups ->
  no_signal (group_advantages group) = false ->
  In r group ->
  json_loads (trajectory_json r) = Some traj ->
  (forall kv, traj <> VDict kv) ->
  (forall a, rollout_datum r a = Raised AttributeError)
  /\ exists e, trajectories_to_training_data groups = Raised e.
Proof.
  intros Hgroup Hsignal Hr Hloads Hobj.
  assert (Hraise : forall a, rollout_datum r a = Raised AttributeError).
  { intros a. unfold rollout_datum. rewrite Hloads.
    destruct traj; try reflexivity. now elim (Hobj kv). }
  split; [exact Hraise|].
  destruct (trajectories_to_training_data groups) as [data|e] eqn:E;
    [|now exists e].
  exfalso. apply groups_data_spec in E as [_ Hall].
  rewrite Forall_forall in Hall. specialize (Hall _ Hgroup Hsignal).
  destruct (rollout_has_advantage group r Hr) as [a Ha].
  rewrite Forall_forall in Hall. destruct (Hall _ Ha) as [o Ho].
  cbn [fst snd] in Ho. rewrite Hraise in Ho. discriminate.
Qed.

End SelectionFacts.

(** X15 on a group without signal followed by a group with both
    outcomes. *)
Lemma training_data_in_order_witness :
  exists data,
    @trajectories_to_training_data float Binary64 Reference.json
      Reference.tokenizer Reference.formatter [ZERO_GROUP; MIXED_GROUP]
    = Ok data
    /\ List.length data = 2%nat
    /\ (List.length data
        <= List.length (List.concat [ZERO_GROUP; MIXED_GROUP]))%nat.
Proof.
  eexists. split; [vm_compute; reflexivity|]. split; [reflexivity|].
  refine (proj2 (@training_data_in_order float Binary64 Reference.json
                   Reference.tokenizer Reference.formatter
                   [ZERO_GROUP; MIXED_GROUP] _ _)).
  vm_compute. reflexivity.
Defined.

(** X16 on a group whose first trajectory is a JSON list. *)
Lemma non_object_trajectory_aborts_witness :
  (forall a,
      @rollout_datum float Binary64 Reference.json Reference.tokenizer
        Reference.formatter (LIST_TRAJECTORY 1%float) a
      = Raised AttributeError)
  /\ exists e,
       @trajectories_to_training_data float Binary64 Reference.json
         Reference.tokenizer Reference.formatter [LIST_THEN_SOLVED]
       = Raised e.
Proof.
  apply (@non_object_trajectory_aborts float Binary64 Reference.json
           Reference.tokenizer Reference.formatter [LIST_THEN_SOLVED]
           LIST_THEN_SOLVED (LIST_TRAJECTORY 1%float) (VList [])).
  - now left.
  - vm_compute. reflexivity.
  - now left.
  - vm_compute. reflexivity.
  - discriminate.
Defined.

Section PassFailFacts.

Lemma binary_eqb (x y : float) :
  x = 0%float \/ x = 1%float -> y = 0%float \/ y = 1%float ->
  (PrimFloat.eqb x y = true <-> x = y).
Proof.
  intros [-> | ->] [-> | ->]; split; intros E; try reflexivity;
    try (vm_compute in E; discriminate).
Qed.

Lemma uniform_binary (l : list float) :
  Forall (fun x => x = 0%float \/ x = 1%float) l ->
  (uniform l = true <-> exists x, Forall (fun y => y = x) l).
Proof.
  intros Hall. destruct Hall as [|x l Hx Hl]; cbn [uniform].
  - split; [|reflexivity]. intros _. exists 0%float. constructor.
  - rewrite forallb_forall. split.
    + intros E. exists x. constructor; [reflexivity|].
      apply Forall_forall. intros y Hy. symmetry.
      rewrite Forall_forall in Hl.
      apply (binary_eqb x y Hx (Hl _ Hy)). now apply E.
    + intros [z Hz] y Hy. inversion Hz as [|? ? Ez Hz']. subst.
      rewrite Forall_forall in Hz'. rewrite (Hz' _ Hy).
      rewrite Forall_forall in Hl.
      destruct Hx as [-> | ->]; vm_compute; reflexivity.
Qed.

Lemma pass_fail_checked (num : Number float) :
  num = Binary64 \/ num = Binary64Compensated ->
  forallb (fun n => forallb (fun l => dropped_iff_uniform num l
                                      && mean_is_success_rate num l)
                      (binary_rewards n))
    (seq 1 DEFAULT_GROUP_SIZE) = true.
Proof. intros [-> | ->]; vm_compute; reflexivity. Qed.

Lemma pass_fail_group (num : Number float) (group : list (rollout float)) :
  num = Binary64 \/ num = Binary64Compensated ->
  (1 <= List.length group <= DEFAULT_GROUP_SIZE)%nat ->
  Forall (fun r => reward r = 0%float \/ reward r = 1%float) group ->
  dropped_iff_uniform num (map (@reward float) group) = true
  /\ mean_is_success_rate num (map (@reward float) group) = true.
Proof.
  intros Hnum Hlen Hall.
  assert (Hin : In (map (@reward float) group)
                  (binary_rewards (List.length group))).
  { rewrite <- (length_map (@reward float) group).
    apply binary_rewards_complete. now apply Forall_map. }
  pose proof (pass_fail_checked num Hnum) as Hcheck.
  rewrite forallb_forall in Hcheck.
  assert (Hn : In (List.length group) (seq 1 DEFAULT_GROUP_SIZE))
    by (apply in_seq; unfold DEFAULT_GROUP_SIZE in *; lia).
  specialize (Hcheck _ Hn). rewrite forallb_forall in Hcheck.
  specialize (Hcheck _ Hin). now apply andb_true_iff in Hcheck.
Qed.

(** X17.  In binary64, under either summation, a group of one to ten
    rollouts that each scored 0.0 or 1.0 is dropped exactly when all its
    rollouts scored the same: a group with both outcomes always trains. *)
Theorem pass_fail_group_dropped_iff_unanimous (num : Number float)
    (group : list (rollout float)) :
  num = Binary64 \/ num = Binary64Compensated ->
  (1 <= List.length group <= DEFAULT_GROUP_SIZE)%nat ->
  Forall (fun r => reward r = 0%float \/ reward r = 1%float) group ->
  (@no_signal float num (@group_advantages float num group) = true
   <-> exists x, Forall (fun r => reward r = x) group).
Proof.
  intros Hnum Hlen Hall.
  destruct (pass_fail_group num group Hnum Hlen Hall) as [Hd _].
  unfold dropped_iff_uniform in Hd. apply eqb_prop in Hd.
  rewrite <- (group_advantages_solved group) in Hd. rewrite Hd.
  rewrite uniform_binary by now apply Forall_map.
  split; intros [x Hx]; exists x.
  - now apply Forall_map in Hx.
  - now apply Forall_map.
Qed.

(** X18.  In binary64, under either summation, for a group of one to ten
    rollouts that each scored 0.0 or 1.0 the advantage of a rollout is its
    reward minus the correctly rounded success rate of the group, the
    number of rollouts that scored 1.0 divided by the size of the group,
    whatever the order of the rollouts. *)
Theorem pass_fail_mean_is_success_rate (num : Number float)
    (group : list (rollout float)) :
  num = Binary64 \/ num = Binary64Compensated ->
  (1 <= List.length group <= DEFAULT_GROUP_SIZE)%nat ->
  Forall (fun r => reward r = 0%float \/ reward r = 1%float) group ->
  @group_advantages float num group
  = map (fun r =>
           PrimFloat.sub (reward r)
             (PrimFloat.div
                (float_of_len (successes (map (@reward float) group)))
                (float_of_len (List.length group)))) group.
Proof.
  intros Hnum Hlen Hall.
  destruct (pass_fail_group num group Hnum Hlen Hall) as [_ Hm].
  unfold mean_is_success_rate in Hm. apply FloatAxioms.Leibniz.eqb_spec in Hm.
  rewrite length_map in Hm.
  rewrite group_advantages_map, Hm.
  destruct Hnum as [-> | ->]; reflexivity.
Qed.

End PassFailFacts.

(** X17 on a group with one success and one failure. *)
Lemma pass_fail_group_dropped_iff_unanimous_witness :
  @no_signal float Binary64 (@group_advantages float Binary64 MIXED_GROUP)
  = true
  <-> exists x, Forall (fun r => reward r = x) MIXED_GROUP.
Proof.
  apply (pass_fail_group_dropped_iff_unanimous Binary64 MIXED_GROUP).
  - now left.
  - vm_compute. split; repeat constructor.
  - constructor; [now right|]. constructor; [now left|]. constructor.
Defined.

(** X18 on the same group, under the compensated sum. *)
Lemma pass_fail_mean_is_success_rate_witness :
  @group_advantages float Binary64Compensated MIXED_GROUP
  = map (fun r =>
           PrimFloat.sub (reward r)
             (PrimFloat.div
                (float_of_len (successes (map (@reward float) MIXED_GROUP)))
                (float_of_len (List.length MIXED_GROUP)))) MIXED_GROUP.
Proof.
  apply (pass_fail_mean_is_success_rate Binary64Compensated MIXED_GROUP).
  - now right.
  - vm_compute. split; repeat constructor.
  - constructor; [now right|]. constructor; [now left|]. constructor.
Defined.

Section ExactSignalFacts.
Local Open Scope Qc_scope.

(** X19.  In exact arithmetic a group is dropped exactly when all its
    rewards are equal (an empty group included): rounding is all that
    separates the code from the comment on the skipped groups. *)
Theorem exact_group_dropped_iff_unanimous (group : list (rollout Qc)) :
  @no_signal Qc Exact (@group_advantages Qc Exact group) = true
  <-> exists x, Forall (fun r => reward r = x) group.
Proof.
  split.
  - intros E. rewrite group_advantages_map in E. unfold no_signal in E.
    set (m := @mean_reward Qc Exact (map (@reward Qc) group)) in *.
    exists m. apply Forall_forall. intros r Hr.
    rewrite forallb_forall in E.
    specialize (E _ (in_map _ _ _ Hr)).
    change (@eq_zero Qc Exact) with (fun a => Qc_eq_bool a (Q2Qc 0)) in E.
    change (@sub Qc Exact) with Qcminus in E. cbv beta in E.
    apply Qc_eq_bool_correct in E.
    change (Q2Qc 0) with 0 in E.
    transitivity (reward r - m + m); [ring|].
    rewrite E. ring.
  - intros [x Hx]. exact (exact_identical_rewards_no_signal group x Hx).
Qed.

End ExactSignalFacts.

End TrainerFacts.

(* ===================================================================== *)
(** * Properties of collect_rollouts                                      *)
(* ===================================================================== *)

Module RolloutFacts.
Import Py Rollouts Fixtures.

Section CollectFacts.
Context {R : Type} `{TrajectoryLoader R} `{ExnText} `{Grpo.Format} `{Pool}.

Lemma gather_step (kv : list (pystr * value))
    (outcome : result (option pystr)) (results : list (collected R)) :
  (exists e, gather (VDict kv) outcome results = Raised e
             /\ returned_none (VDict kv, outcome) = false)
  \/ (gather (VDict kv) outcome results = Ok results
      /\ returned_none (VDict kv, outcome) = true)
  \/ (exists json r,
         gather (VDict kv) outcome results
         = Ok (results
               ++ [{| trajectory_json := json; reward := r;
                      task_id :=
                        get_or kv (str "instance_id")
                          (get_or kv (str "docker_image")
                             (VStr (str "unknown"))) |}])
         /\ returned_none (VDict kv, outcome) = false).
Proof.
  unfold gather, returned_none. cbn [snd].
  destruct outcome as [[json|]|e]; cbn [rbind].
  - destruct (load_reward json) as [r|e]; cbn [rbind].
    + right. right. exists json, r. split; reflexivity.
    + left. exists e. split; reflexivity.
  - right. left. split; reflexivity.
  - left. exists e. split; reflexivity.
Qed.

Lemma collect_completed_accounts
    (completed : list (value * result (option pystr)))
    (results0 : list (collected R)) (log0 : list (Proxy.level * pystr)) :
  Forall (fun c => exists kv, fst c = VDict kv) completed ->
  exists results errors,
    collect_completed completed results0 log0
    = Ok (results0 ++ results, log0 ++ errors)
    /\ Forall (fun entry => fst entry = Proxy.ERROR) errors
    /\ (List.length results + List.length errors
        + List.length (filter returned_none completed)
        = List.length completed)%nat
    /\ Forall (fun r => exists kv,
                   In (VDict kv) (map fst completed)
                   /\ task_id r
                      = get_or kv (str "instance_id")
                          (get_or kv (str "docker_image")
                             (VStr (str "unknown")))) results.
Proof.
  intros Hall; revert results0 log0;
    induction Hall as [|[entry outcome] completed [kv Hkv] _ IH];
    intros results0 log0.
  - exists [], []. cbn. rewrite !app_nil_r. auto.
  - cbn [fst] in Hkv. subst entry. cbn [collect_completed filter map fst].
    destruct (gather_step kv outcome results0)
      as [(e & -> & ->) | [(-> & ->) | (json & r & -> & ->)]].
    + cbn [report_failure py_get rbind].
      destruct (IH results0
                  (log0 ++ [(Proxy.ERROR,
                             str "Rollout failed for "
                             ++ Grpo.format_value
                                  (get_or kv (str "docker_image")
                                     (VStr (str "?")))
                             ++ str ": " ++ exn_text e)]))
        as (results & errors & -> & Herr & Hlen & Hids).
      exists results, ((Proxy.ERROR,
                        str "Rollout failed for "
                        ++ Grpo.format_value
                             (get_or kv (str "docker_image") (VStr (str "?")))
                        ++ str ": " ++ exn_text e) :: errors).
      rewrite <- app_assoc. split; [reflexivity|].
      split; [constructor; [reflexivity|exact Herr]|].
      split; [cbn [List.length]; lia|].
      eapply Forall_impl; [|exact Hids].
      intros c (kv' & Hin & Hid). exists kv'. split; [now right|exact Hid].
    + destruct (IH results0 log0) as (results & errors & -> & Herr & Hlen
                                      & Hids).
      exists results, errors. split; [reflexivity|]. split; [exact Herr|].
      split; [cbn [List.length]; lia|].
      eapply Forall_impl; [|exact Hids].
      intros c (kv' & Hin & Hid). exists kv'. split; [now right|exact Hid].
    + destruct (IH (results0
                    ++ [{| trajectory_json := json; reward := r;
                           task_id :=
                             get_or kv (str "instance_id")
                               (get_or kv (str "docker_image")
                                  (VStr (str "unknown"))) |}]) log0)
        as (results & errors & -> & Herr & Hlen & Hids).
      exists ({| trajectory_json := json; reward := r;
                 task_id :=
                   get_or kv (str "instance_id")
                     (get_or kv (str "docker_image")
                        (VStr (str "unknown"))) |} :: results), errors.
      rewrite <- app_assoc. split; [reflexivity|]. split; [exact Herr|].
      split; [cbn [List.length]; lia|].
      constructor.
      * exists kv. split; [now left|reflexivity].
      * eapply Forall_impl; [|exact Hids].
        intros c (kv' & Hin & Hid). exists kv'.
        split; [now right|exact Hid].
Qed.

Lemma submit_all_ok (ds_entries : list value) :
  Forall (fun ds_entry => submit ds_entry = Ok tt) ds_entries ->
  submit_all ds_entries = Ok tt.
Proof.
  intros Hall; induction Hall as [|e es He _ IH]; [reflexivity|].
  cbn [submit_all]. rewrite He. exact IH.
Qed.

(** X27.  [collect_rollouts] raises [ValueError] before any rollout is
    submitted when [max_workers] is not positive.  With a positive
    [max_workers], when every submission is accepted and the dataset
    entries are dictionaries, it returns, whatever the rollouts do, and
    every entry is accounted for exactly once: as an entry of the list
    returned, as one error in the log, or as a rollout that returned no
    trajectory, which is dropped without a trace.  Each entry returned is
    named after a task submitted: by its instance id, else its docker
    image, else as unknown. *)
Theorem collect_rollouts_accounts (max_workers : Z)
    (ds_entries : list value) (log0 : list (Proxy.level * pystr)) :
  ((max_workers <= 0)%Z ->
   collect_rollouts max_workers ds_entries log0 = Raised ValueError)
  /\ ((0 < max_workers)%Z ->
      Forall (fun ds_entry => submit ds_entry = Ok tt) ds_entries ->
      Permutation (map fst (as_completed ds_entries)) ds_entries ->
      Forall (fun ds_entry => exists kv, ds_entry = VDict kv) ds_entries ->
      exists results errors,
        collect_rollouts max_workers ds_entries log0
        = Ok (results, log0 ++ errors)
        /\ Forall (fun entry => fst entry = Proxy.ERROR) errors
        /\ (List.length results + List.length errors
            + List.length (filter returned_none (as_completed ds_entries))
            = List.length ds_entries)%nat
        /\ Forall (fun r => exists kv,
                       In (VDict kv) ds_entries
                       /\ task_id r
                          = get_or kv (str "instance_id")
                              (get_or kv (str "docker_image")
                                 (VStr (str "unknown")))) results).
Proof.
  unfold collect_rollouts. split.
  - intros Hle. destruct (Z.leb_spec max_workers 0); [reflexivity|lia].
  - intros Hpos Hsubmit Hperm Hdicts.
    destruct (Z.leb_spec max_workers 0); [lia|].
    rewrite (submit_all_ok _ Hsubmit). cbn [rbind].
    assert (Hall : Forall (fun c => exists kv, fst c = VDict kv)
                     (as_completed ds_entries)).
    { apply Forall_forall. intros c Hc.
      rewrite Forall_forall in Hdicts. apply Hdicts.
      apply (Permutation_in _ Hperm). now apply in_map. }
    destruct (collect_completed_accounts (as_completed ds_entries) [] log0
                Hall)
      as (results & errors & E & Herr & Hlen & Hids).
    exists results, errors. split; [exact E|]. split; [exact Herr|]. split.
    + rewrite Hlen, <- (length_map fst).
      exact (Permutation_length Hperm).
    + eapply Forall_impl; [|exact Hids].
      intros r (kv & Hin & Hid). exists kv. split; [|exact Hid].
      exact (Permutation_in _ Hperm Hin).
Qed.

End CollectFacts.

(** X27 on one task run four times. *)
Lemma collect_rollouts_accounts_witness :
  exists results errors,
    @collect_rollouts float loader plain_exn_text Reference.formatter
      four_runs 20 FOUR_ENTRIES [] = Ok (results, [] ++ errors)
    /\ List.length results = 1%nat
    /\ List.length errors = 2%nat
    /\ map (@task_id float) results = [VStr (str "image:1")].
Proof.
  destruct (proj2 (@collect_rollouts_accounts float loader plain_exn_text
                     Reference.formatter four_runs 20 FOUR_ENTRIES []))
    as (results & errors & E & _).
  - reflexivity.
  - repeat constructor.
  - apply Permutation_refl.
  - repeat constructor; eexists; reflexivity.
  - exists results, errors. split; [exact E|].
    vm_compute in E. injection E as <- <-. repeat split.
Defined.

End RolloutFacts.

(* ===================================================================== *)
(** * Properties of the training loop                                     *)
(* ===================================================================== *)

Module LoopFacts.
Import Py Loop.

Section BatchFacts.
Local Open Scope Z_scope.

Lemma comprehension_total {A B : Type} (f : A -> option B) (g : A -> B)
    (l : list A) :
  (forall x, In x l -> f x = Some (g x)) ->
  comprehension f l = Some (map g l).
Proof.
  induction l as [|x l IH]; intros Hf; [reflexivity|].
  cbn [comprehension map]. rewrite (Hf x) by now left.
  rewrite IH; [reflexivity|]. intros y Hy. apply Hf. now right.
Qed.

Lemma range_length (n : Z) : List.length (range n) = Z.to_nat n.
Proof. unfold range. now rewrite length_map, length_seq. Qed.

Lemma range_nth (n : Z) (i : nat) :
  (i < Z.to_nat n)%nat -> nth_error (range n) i = Some (Z.of_nat i).
Proof.
  intros Hi. unfold range. rewrite nth_error_map.
  rewrite nth_error_seq. destruct (Nat.ltb_spec i (Z.to_nat n)); [|lia].
  reflexivity.
Qed.

Lemma batch_indices_some (step batch_size : Z) (len_ds : nat) :
  (0 < len_ds)%nat ->
  batch_indices step batch_size len_ds
  = Some (map (fun i => (step * batch_size + i) mod Z.of_nat len_ds)
            (range batch_size)).
Proof.
  intros Hlen. unfold batch_indices. apply comprehension_total.
  intros i _. unfold py_mod.
  destruct (Z.eqb_spec (Z.of_nat len_ds) 0); [lia|reflexivity].
Qed.

(** X20.  The batch of a step, over a dataset that is not empty, is the
    run of [batch_size] consecutive positions starting at
    [step * batch_size], each taken modulo the size of the dataset: it has
    [batch_size] entries, all of them valid indices.  Over an empty dataset
    a positive batch size raises [ZeroDivisionError] at the first index; a
    batch size that is not positive gives an empty batch, whatever the
    dataset. *)
Theorem batch_indices_round_robin (step batch_size : Z) (len_ds : nat) :
  ((0 < len_ds)%nat ->
   exists batch,
     batch_indices step batch_size len_ds = Some batch
     /\ batch = map (fun i => (step * batch_size + i) mod Z.of_nat len_ds)
                  (range batch_size)
     /\ List.length batch = Z.to_nat batch_size
     /\ Forall (fun idx => 0 <= idx < Z.of_nat len_ds) batch)
  /\ (len_ds = 0%nat -> 0 < batch_size ->
      batch_indices step batch_size len_ds = None)
  /\ (batch_size <= 0 -> batch_indices step batch_size len_ds = Some []).
Proof.
  split; [|split].
  - intros Hlen. eexists. split; [exact (batch_indices_some _ _ _ Hlen)|].
    split; [reflexivity|]. split.
    + now rewrite length_map, range_length.
    + apply Forall_map, Forall_forall. intros i _.
      apply Z.mod_pos_bound. lia.
  - intros -> Hb. unfold batch_indices, range.
    destruct (Z.to_nat batch_size) as [|n] eqn:En; [lia|].
    reflexivity.
  - intros Hb. unfold batch_indices, range.
    replace (Z.to_nat batch_size) with 0%nat by lia. reflexivity.
Qed.

(** X21.  With a positive batch size every task is scheduled: task [j] of
    the dataset is entry [j % batch_size] of the batch of step
    [j // batch_size], so the first pass over the dataset visits the tasks
    in order, none skipped. *)
Theorem every_task_is_scheduled (batch_size : Z) (len_ds j : nat) :
  0 < batch_size ->
  (j < len_ds)%nat ->
  exists batch,
    batch_indices (Z.of_nat j / batch_size) batch_size len_ds = Some batch
    /\ nth_error batch (Z.to_nat (Z.of_nat j mod batch_size))
       = Some (Z.of_nat j).
Proof.
  intros Hb Hj. eexists. split; [apply batch_indices_some; lia|].
  pose proof (Z.mod_pos_bound (Z.of_nat j) batch_size Hb) as Hm.
  rewrite nth_error_map, range_nth by lia.
  cbn [option_map]. f_equal. rewrite Z2Nat.id by lia.
  rewrite (Z.mul_comm _ batch_size), <- Z.div_mod by lia.
  apply Z.mod_small. lia.
Qed.

End BatchFacts.

(** X21 on the fourteenth task of twenty, in batches of eight. *)
Lemma every_task_is_scheduled_witness :
  exists batch,
    batch_indices (Z.of_nat 13 / 8) 8 20 = Some batch
    /\ nth_error batch (Z.to_nat (Z.of_nat 13 mod 8)) = Some (Z.of_nat 13).
Proof. apply (every_task_is_scheduled 8 20 13); lia. Defined.

Section CheckpointFacts.
Local Open Scope Z_scope.

Lemma range_succ (n : nat) :
  range (Z.of_nat (S n)) = range (Z.of_nat n) ++ [Z.of_nat n].
Proof.
  unfold range. rewrite !Nat2Z.id, seq_S, map_app. reflexivity.
Qed.

Lemma due_step (k n : Z) :
  0 < k -> 0 <= n ->
  (n + 1) / k = n / k + (if (n + 1) mod k =? 0 then 1 else 0).
Proof.
  intros Hk Hn.
  pose proof (Z.div_mod n k ltac:(lia)) as Hdm.
  pose proof (Z.mod_pos_bound n k Hk) as Hr.
  destruct (Z.eq_dec (n mod k + 1) k) as [E|E].
  - assert (Hq : (n + 1) / k = n / k + 1).
    { symmetry. apply (Z.div_unique _ _ _ 0); [lia|]. nia. }
    assert (Hm : (n + 1) mod k = 0).
    { symmetry. apply (Z.mod_unique _ _ (n / k + 1)); [lia|]. nia. }
    rewrite Hq, Hm. reflexivity.
  - assert (Hq : (n + 1) / k = n / k).
    { symmetry. apply (Z.div_unique _ _ _ (n mod k + 1)); [lia|]. nia. }
    assert (Hm : (n + 1) mod k = n mod k + 1).
    { symmetry. apply (Z.mod_unique _ _ (n / k)); [lia|]. nia. }
    rewrite Hq, Hm. destruct (Z.eqb_spec (n mod k + 1) 0); lia.
Qed.

Lemma checkpoint_count_nat (save_every : Z) (n : nat) :
  0 < save_every ->
  Z.of_nat (List.length (checkpoint_steps save_every (Z.of_nat n)))
  = Z.of_nat n / save_every.
Proof.
  intros Hk. unfold checkpoint_steps. induction n as [|n IH].
  - reflexivity.
  - rewrite range_succ, filter_app, length_app, Nat2Z.inj_add, IH.
    rewrite Nat2Z.inj_succ, <- Z.add_1_r, (due_step _ _ Hk) by lia.
    f_equal. cbn [filter]. unfold checkpoint_due.
    destruct (Z.ltb_spec 0 save_every); [|lia]. cbn [andb].
    destruct (_ =? 0); reflexivity.
Qed.

(** X22.  With a positive [save_every], the steps after which a periodic
    checkpoint is saved are those whose number plus one is a multiple of
    [save_every], so a run of [num_steps] steps saves
    [num_steps // save_every] of them; a [save_every] that is zero or
    negative saves none (and divides by nothing). *)
Theorem checkpoint_cadence (save_every num_steps : Z) :
  (0 < save_every -> 0 <= num_steps ->
   Z.of_nat (List.length (checkpoint_steps save_every num_steps))
   = num_steps / save_every)
  /\ (forall step,
         In step (checkpoint_steps save_every num_steps) <->
         0 <= step < num_steps /\ 0 < save_every
         /\ exists k, step + 1 = k * save_every)
  /\ (save_every <= 0 -> checkpoint_steps save_every num_steps = []).
Proof.
  assert (Hrange : forall step,
             In step (range num_steps) <-> 0 <= step < num_steps).
  { intros step. unfold range. rewrite in_map_iff. split.
    - intros (i & <- & Hi). apply in_seq in Hi. lia.
    - intros Hs. exists (Z.to_nat step). split; [lia|].
      apply in_seq. lia. }
  split; [|split].
  - intros Hk Hn. rewrite <- (Z2Nat.id num_steps Hn).
    now apply checkpoint_count_nat.
  - intros step. unfold checkpoint_steps. rewrite filter_In, Hrange.
    unfold checkpoint_due. rewrite andb_true_iff, Z.ltb_lt, Z.eqb_eq.
    split.
    + intros (Hs & Hk & Hm). split; [exact Hs|]. split; [exact Hk|].
      exists ((step + 1) / save_every).
      pose proof (Z.div_mod (step + 1) save_every ltac:(lia)). lia.
    + intros (Hs & Hk & k & E). split; [exact Hs|]. split; [exact Hk|].
      rewrite E. apply Z.mod_mul. lia.
  - intros Hk. unfold checkpoint_steps. clear Hrange.
    induction (range num_steps) as [|s l IH]; [reflexivity|].
    cbn [filter]. unfold checkpoint_due at 1.
    destruct (Z.ltb_spec 0 save_every); [lia|]. cbn [andb]. exact IH.
Qed.

End CheckpointFacts.

End LoopFacts.

(* ===================================================================== *)
(** * Properties of GRPOConfig.from_yaml                                  *)
(* ===================================================================== *)

Module ConfigFacts.
Import Py Config Fixtures ProxyFacts.

Section DictFacts.

Lemma pystr_eqb_refl (k : pystr) : pystr_eqb k k = true.
Proof. now apply pystr_eqb_eq. Qed.

Lemma pystr_eqb_neq (a b : pystr) : a <> b -> pystr_eqb a b = false.
Proof.
  intros Hne. destruct (pystr_eqb a b) eqn:E; [|reflexivity].
  apply pystr_eqb_eq in E. contradiction.
Qed.

Lemma lookup_absent (k : pystr) (d : list (pystr * value)) :
  ~ In k (map fst d) -> lookup k d = None.
Proof.
  induction d as [|[k' v'] d IH]; [reflexivity|]. cbn [map fst In lookup].
  intros Hn. rewrite pystr_eqb_neq by (intros ->; apply Hn; now left).
  apply IH. intros Hin. apply Hn. now right.
Qed.

Lemma lookup_setitem (k k' : pystr) (v : value) (d : list (pystr * value)) :
  lookup k (setitem k' v d)
  = if pystr_eqb k k' then Some v else lookup k d.
Proof.
  induction d as [|[k0 v0] d IH]; cbn [setitem lookup].
  - reflexivity.
  - destruct (pystr_eqb k' k0) eqn:E0; cbn [lookup].
    + apply pystr_eqb_eq in E0. subst k0.
      destruct (pystr_eqb k k'); reflexivity.
    + rewrite IH. destruct (pystr_eqb k k0) eqn:E1; [|reflexivity].
      apply pystr_eqb_eq in E1. subst k0.
      destruct (pystr_eqb k k') eqn:E2; [|reflexivity].
      apply pystr_eqb_eq in E2. subst k'.
      now rewrite pystr_eqb_refl in E0.
Qed.

Lemma lookup_update (k : pystr) (d other : list (pystr * value)) :
  NoDup (map fst other) ->
  lookup k (update d other)
  = match lookup k other with
    | Some v => Some v
    | None => lookup k d
    end.
Proof.
  unfold update. revert d; induction other as [|[k1 v1] other IH];
    intros d Hnd; [reflexivity|].
  cbn [map fst] in Hnd. inversion Hnd as [|? ? Hnotin Hnd']. subst.
  cbn [fold_left fst snd lookup]. rewrite (IH _ Hnd'), lookup_setitem.
  destruct (pystr_eqb k k1) eqn:E; [|reflexivity].
  apply pystr_eqb_eq in E. subst k1. now rewrite (lookup_absent _ _ Hnotin).
Qed.

Lemma lookup_filter (p : pystr * value -> bool) (k : pystr)
    (d : list (pystr * value)) :
  (forall v, p (k, v) = true) ->
  lookup k (filter p d) = lookup k d.
Proof.
  intros Hp. induction d as [|[k' v'] d IH]; [reflexivity|].
  cbn [filter lookup]. destruct (pystr_eqb k k') eqn:E.
  - apply pystr_eqb_eq in E. subst k'. rewrite Hp. cbn [lookup].
    now rewrite pystr_eqb_refl.
  - destruct (p (k', v')); [|exact IH]. cbn [lookup]. now rewrite E.
Qed.

End DictFacts.

Section ConfigFacts.

Lemma flatten_sections (name : pystr) (sections : list value)
    (raw kwargs : list (pystr * value)) :
  Forall mapping sections ->
  lookup name (flatten sections raw kwargs)
  = fold_left (fun found section =>
                 match section with
                 | VDict kv => match lookup name kv with
                               | Some v => Some v
                               | None => found
                               end
                 | _ => found
                 end) sections (lookup name kwargs).
Proof.
  intros Hall; revert kwargs;
    induction Hall as [|s sections (kv & -> & Hnd) _ IH]; intros kwargs;
    [reflexivity|].
  cbn [flatten fold_left]. rewrite IH, (lookup_update _ _ _ Hnd).
  reflexivity.
Qed.

Lemma flatten_until_scalar (name : pystr) (before after : list value)
    (scalar : value) (raw kwargs : list (pystr * value)) :
  Forall mapping before ->
  (forall kv, scalar <> VDict kv) ->
  NoDup (map fst raw) ->
  lookup name (flatten (before ++ scalar :: after) raw kwargs)
  = match lookup name raw with
    | Some v => Some v
    | None =>
        fold_left (fun found section =>
                     match section with
                     | VDict kv => match lookup name kv with
                                   | Some v => Some v
                                   | None => found
                                   end
                     | _ => found
                     end) before (lookup name kwargs)
    end.
Proof.
  intros Hall Hscalar Hraw; revert kwargs;
    induction Hall as [|s before (kv & -> & Hnd) _ IH]; intros kwargs.
  - cbn [app flatten fold_left].
    destruct scalar; try apply (lookup_update _ _ _ Hraw).
    now elim (Hscalar kv).
  - cbn [app flatten fold_left]. rewrite IH, (lookup_update _ _ _ Hnd).
    reflexivity.
Qed.

Lemma field_known (kwargs : list (pystr * value)) (name : pystr) :
  In name dataclass_fields ->
  field (known kwargs) name = field kwargs name.
Proof.
  intros Hin. unfold field, get_or, known. rewrite lookup_filter; [reflexivity|].
  intros v. cbn [fst]. apply existsb_exists. exists name.
  split; [exact Hin|apply pystr_eqb_refl].
Qed.

Lemma getattr_construct (kwargs : list (pystr * value)) (name : pystr) :
  In name dataclass_fields ->
  getattr (construct kwargs) name = Some (field kwargs name).
Proof.
  intros Hin. cbv [dataclass_fields DEFAULTS map fst In] in Hin.
  repeat (destruct Hin as [<- | Hin]; [reflexivity|]). destruct Hin.
Qed.

Lemma from_yaml_fields (items : list (pystr * value)) (name : pystr) :
  In name dataclass_fields ->
  exists config,
    from_yaml (VDict items) = Ok config
    /\ getattr config name
       = Some (match lookup name (flatten (map snd items) items []) with
               | Some v => v
               | None => default name
               end).
Proof.
  intros Hin. eexists. split; [reflexivity|].
  rewrite (getattr_construct _ _ Hin), (field_known _ _ Hin).
  reflexivity.
Qed.

(** X23.  For a document whose top-level values are all mappings,
    [from_yaml] returns a configuration in which every field holds the
    value given by the last section that names it, and its default when no
    section does; the names of the sections, and keys that are not fields,
    have no effect. *)
Theorem nested_sections_merge (items : list (pystr * value)) :
  Forall mapping (map snd items) ->
  exists config,
    from_yaml (VDict items) = Ok config
    /\ forall name,
         In name dataclass_fields ->
         getattr config name
         = Some (match last_binding name (map snd items) with
                 | Some v => v
                 | None => default name
                 end).
Proof.
  intros Hall. eexists. split; [reflexivity|]. intros name Hin.
  destruct (from_yaml_fields items name Hin) as (config & [= <-] & ->).
  now rewrite (flatten_sections _ _ _ _ Hall).
Qed.

(** X24.  The first top-level value that is not a mapping ends the
    flattening: every field then holds the document's own top-level value
    for its name if there is one, else the value of the last section before
    that scalar which names it, else its default.  Sections after the
    scalar are never flattened, so a flat document is read as it is. *)
Theorem scalar_stops_flattening (before after : list (pystr * value))
    (key : pystr) (scalar : value) :
  let items := before ++ (key, scalar) :: after in
  Forall mapping (map snd before) ->
  (forall kv, scalar <> VDict kv) ->
  NoDup (map fst items) ->
  exists config,
    from_yaml (VDict items) = Ok config
    /\ forall name,
         In name dataclass_fields ->
         getattr config name
         = Some (match lookup name items with
                 | Some v => v
                 | None =>
                     match last_binding name (map snd before) with
                     | Some v => v
                     | None => default name
                     end
                 end).
Proof.
  intros items Hall Hscalar Hnd. eexists. split; [reflexivity|].
  intros name Hin.
  destruct (from_yaml_fields items name Hin) as (config & [= <-] & ->).
  unfold items at 1. rewrite map_app. cbn [map snd].
  rewrite (flatten_until_scalar _ _ _ _ _ _ Hall Hscalar Hnd).
  fold items. destruct (lookup name items); reflexivity.
Qed.

End ConfigFacts.

(** X23 on two sections that both set the rank. *)
Lemma nested_sections_merge_witness :
  exists config,
    from_yaml (VDict NESTED_DOCUMENT) = Ok config
    /\ getattr config (str "lora_rank") = Some (VInt 16)
    /\ getattr config (str "model_name") = Some (VStr (str "Qwen/Qwen3-8B"))
    /\ getattr config (str "save_every") = Some (VInt 50).
Proof.
  destruct (nested_sections_merge NESTED_DOCUMENT) as (config & E & Hget).
  - constructor; [|constructor; [|constructor]].
    + eexists. split; [reflexivity|].
      constructor; [cbn; intuition discriminate|].
      constructor; [cbn; intuition discriminate|constructor].
    + eexists. split; [reflexivity|].
      constructor; [cbn; intuition discriminate|].
      constructor; [cbn; intuition discriminate|constructor].
  - exists config. split; [exact E|].
    split; [|split]; rewrite Hget; try reflexivity;
      vm_compute; auto 25.
Defined.

(** X24 on a section, a top-level step count and a section after it. *)
Lemma scalar_stops_flattening_witness :
  exists config,
    from_yaml (VDict (LEADING_SECTIONS ++ (str "num_steps", VInt 5)
                      :: TRAILING_SECTIONS)) = Ok config
    /\ getattr config (str "num_steps") = Some (VInt 5)
    /\ getattr config (str "lora_rank") = Some (VInt 8)
    /\ getattr config (str "max_steps") = Some (VInt 40).
Proof.
  destruct (scalar_stops_flattening LEADING_SECTIONS TRAILING_SECTIONS
              (str "num_steps") (VInt 5)) as (config & E & Hget).
  - constructor; [|constructor].
    eexists. split; [reflexivity|].
    constructor; [cbn; intuition discriminate|constructor].
  - discriminate.
  - constructor; [cbn; intuition discriminate|].
    constructor; [cbn; intuition discriminate|].
    constructor; [cbn; intuition discriminate|constructor].
  - exists config. split; [exact E|].
    split; [|split]; rewrite Hget; try reflexivity;
      vm_compute; auto 25.
Defined.

End ConfigFacts.

(* ===================================================================== *)
(** * Properties of S3Sync                                                *)
(* ===================================================================== *)

Module S3Facts.
Import Py S3 Fixtures.

Section SyncFacts.
Context {Path : Type} `{Environ} `{PathLib Path} `{Client}.

(** X25.  When no bucket is given and the environment names none (or an
    empty one), the constructor logs one warning and the object is
    disabled: [upload_file] then returns False and [sync_dir] returns 0 for
    every path, without logging, without looking at the file system and
    without calling S3. *)
Theorem unset_bucket_disables_sync (bucket_arg prefix_arg : option pystr)
    (w : world) :
  str_or bucket_arg (environ_get_or (str "S3_BUCKET") []) = [] ->
  exists self,
    init bucket_arg prefix_arg w
    = (Ok self, {| log := log w ++ [(Proxy.WARNING, NOT_SET_WARNING)];
                   puts := puts w |})
    /\ enabled self = false
    /\ (forall (p : Path) (base : option Path) (w1 : world),
           upload_file self p base w1 = (Ok false, w1))
    /\ (forall (d : Path) (w1 : world), sync_dir self d w1 = (Ok 0%nat, w1)).
Proof.
  intros E. unfold init. rewrite E. eexists. split; [reflexivity|].
  split; [reflexivity|]. split; reflexivity.
Qed.

Variable self : S3Sync.

Lemma upload_file_run (local_dir p : Path) (w : world) :
  enabled self = true ->
  is_file p = true ->
  relative_to p local_dir <> None ->
  (forall e, client_upload (path_str p) (bucket self) (key_under self local_dir p)
             <> Failure e) ->
  exists w',
    upload_file self p (Some local_dir) w
    = (Ok (stored_under self local_dir p), w')
    /\ puts w' = puts w ++ [put_under self local_dir p].
Proof.
  intros Hen Hfile Hrel Hok.
  unfold upload_file, stored_under, put_under, key_under in *.
  rewrite Hen, Hfile. cbn [negb]. unfold _s3_key, bind.
  destruct (relative_to p local_dir) as [rel|]; [|now elim Hrel].
  unfold ret at 1. unfold client_upload_file at 1.
  destruct (client_upload _ _ _) as [ |msg|e] eqn:Eo.
  - eexists. split; [reflexivity|]. reflexivity.
  - eexists. split; [reflexivity|]. reflexivity.
  - now elim (Hok e).
Qed.

Lemma sync_paths_run (local_dir : Path) (paths : list Path) (count : nat)
    (w : world) :
  enabled self = true ->
  (forall p, In p paths -> is_file p = true ->
             relative_to p local_dir <> None) ->
  (forall p e, client_upload (path_str p) (bucket self)
                 (key_under self local_dir p) <> Failure e) ->
  exists w',
    sync_paths self local_dir paths count w
    = (Ok (count + List.length (filter (stored_under self local_dir)
                                  (filter is_file paths)))%nat, w')
    /\ puts w' = puts w ++ map (put_under self local_dir) (filter is_file paths).
Proof.
  intros Hen Hrel Hok. revert count w.
  induction paths as [|p paths IH]; intros count w.
  - exists w. cbn. rewrite Nat.add_0_r, app_nil_r. auto.
  - cbn [sync_paths filter]. destruct (is_file p) eqn:Hfile.
    + destruct (upload_file_run local_dir p w Hen Hfile) as (w1 & Eu & Hp).
      { apply Hrel; [now left|exact Hfile]. }
      { apply Hok. }
      unfold bind. rewrite Eu.
      destruct (IH (fun q Hq => Hrel q (or_intror Hq))
                  (if stored_under self local_dir p then S count else count) w1)
        as (w' & Es & Hp').
      exists w'. split.
      * rewrite Es. cbn [filter map]. f_equal. f_equal.
        destruct (stored_under self local_dir p); cbn [List.length]; lia.
      * rewrite Hp', Hp, <- app_assoc. reflexivity.
    + apply IH. intros q Hq. apply Hrel. now right.
Qed.

(** X26.  For an enabled object and an existing directory whose files all
    lie under it, with a client that fails with [ClientError] only:
    [sync_dir] requests one upload for every file, in sorted order, under
    the key made of the prefix, a slash and the path relative to the
    directory, and returns the number of uploads that succeeded.  A refused
    upload does not stop the ones after it. *)
Theorem sync_dir_counts_stored_files (local_dir : Path) (w : world) :
  let files := filter is_file (rglob_sorted local_dir) in
  enabled self = true ->
  is_dir local_dir = true ->
  (forall p, In p files -> relative_to p local_dir <> None) ->
  (forall p e, client_upload (path_str p) (bucket self)
                 (key_under self local_dir p) <> Failure e) ->
  exists count w',
    sync_dir self local_dir w = (Ok count, w')
    /\ count = List.length (filter (stored_under self local_dir) files)
    /\ (count <= List.length files)%nat
    /\ puts w' = puts w ++ map (put_under self local_dir) files.
Proof.
  intros files Hen Hdir Hrel Hok.
  destruct (sync_paths_run local_dir (rglob_sorted local_dir) 0 w Hen)
    as (w1 & Es & Hp).
  { intros p Hp Hfile. apply Hrel. apply filter_In. auto. }
  { exact Hok. }
  unfold sync_dir. rewrite Hen, Hdir. cbn [negb]. unfold bind at 1.
  rewrite Es. cbn [Nat.add]. eexists. eexists.
  split; [reflexivity|]. split; [reflexivity|].
  split; [apply filter_length_le|]. exact Hp.
Qed.

End SyncFacts.

(** X25 with an empty environment. *)
Lemma unset_bucket_disables_sync_witness :
  exists self,
    @init no_environ None None {| log := []; puts := [] |}
    = (Ok self, {| log := [(Proxy.WARNING, NOT_SET_WARNING)]; puts := [] |})
    /\ enabled self = false
    /\ (forall (p : list pystr) (base : option (list pystr)) (w1 : world),
           @upload_file (list pystr) tree picky_client self p base w1
           = (Ok false, w1))
    /\ (forall (d : list pystr) (w1 : world),
           @sync_dir (list pystr) tree picky_client self d w1
           = (Ok 0%nat, w1)).
Proof.
  apply (@unset_bucket_disables_sync (list pystr) no_environ tree
           picky_client None None {| log := []; puts := [] |}).
  reflexivity.
Defined.

(** X26 on a tree of two files, one of which the client refuses. *)
Lemma sync_dir_counts_stored_files_witness :
  exists count w',
    @sync_dir (list pystr) tree picky_client RUNS_BUCKET DATA_DIR
      {| log := []; puts := [] |} = (Ok count, w')
    /\ count = 1%nat
    /\ map put_key (puts w') = [str "runs/a.json"; str "runs/sub/b.json"].
Proof.
  destruct (@sync_dir_counts_stored_files (list pystr) tree picky_client
              RUNS_BUCKET DATA_DIR {| log := []; puts := [] |})
    as (count & w' & E & Hcount & _ & Hputs).
  - reflexivity.
  - reflexivity.
  - intros p Hp. vm_compute in Hp.
    destruct Hp as [<- | [<- | []]]; discriminate.
  - intros p e. unfold client_upload, picky_client.
    destruct (pystr_eqb _ _); discriminate.
  - exists count, w'. split; [exact E|].
    split; [rewrite Hcount|rewrite Hputs]; reflexivity.
Defined.

End S3Facts.
